(** * FB BUS connector: frame codec, pairing state machine, orchestrator

    A shallow embedding of
      - [fastybird_fb_bus_connector/clients/pjon.py]   (module [Pjon]),
      - [fb_bus_connector_plugin/pairing/apiv1.py]     (module [Pairing]),
      - [fb_bus_connector_plugin/connector.py]         (module [Connector]),
      - [fastybird_fb_bus_connector/logger.py]         (module [Logger]),
    together with the properties of the specification that concern them.

    Conventions.  Python integers are [Z]; a [List[int]] is a [list Z];
    [bytes(l)] is [py_bytes l], which fails with [ValueError] as Python does
    when an element is outside [range(256)].  Wall-clock readings
    ([time.time()], seconds) and delays are Python floats, that is IEEE 754
    binary64 numbers: they are the kernel's [float], subtracted with
    [PrimFloat.sub] and compared with [PrimFloat.leb], [PrimFloat.ltb] and
    [PrimFloat.eqb], which round and compare as Python does.  A call that
    has no result in Python but performs an effect returns the effect it
    performed. *)

From Stdlib Require Import Floats.PrimFloat.
From Stdlib Require Import ZArith List Lia Bool.
From stdpp Require Import base gmap list strings.

Local Open Scope Z_scope.

(** ** Python runtime: exceptions, indexing, slicing *)

Inductive Exn : Type :=
| ValueError
| IndexError
| KeyError
| PJON_Connection_Lost
| PJON_Packets_Buffer_Full
| PJON_Content_Too_Long.

(** Outcome of a call: a normal return, an exception that leaves the
    function, or a loop that has not finished within the fuel given. *)
Inductive Outcome (A : Type) : Type :=
| Returned (a : A)
| Raised (e : Exn)
| OutOfFuel.
Arguments Returned {A} a.
Arguments Raised {A} e.
Arguments OutOfFuel {A}.

Definition is_byte (z : Z) : bool := (0 <=? z) && (z <? 256).

(** [bytes(l)]: the same values, or [ValueError]. *)
Definition py_bytes (l : list Z) : option (list Z) :=
  if forallb is_byte l then Some l else None.

(** [l[i]] with Python's negative indices; [None] is [IndexError]. *)
Definition py_index (l : list Z) (i : Z) : option Z :=
  let n := Z.of_nat (length l) in
  if (0 <=? i) && (i <? n) then nth_error l (Z.to_nat i)
  else if (- n <=? i) && (i <? 0) then nth_error l (Z.to_nat (n + i))
  else None.

(** [l[0:stop]]; a negative [stop] counts from the end, and the slice is
    clipped to the list. *)
Definition py_slice_to (l : list Z) (stop : Z) : list Z :=
  let n := Z.of_nat (length l) in
  let stop := if stop <? 0 then Z.max 0 (n + stop) else Z.min stop n in
  firstn (Z.to_nat stop) l.

(** The float [n.0], for clocks in examples. *)
Fixpoint seconds (n : nat) : float :=
  match n with
  | O => 0%float
  | S n => PrimFloat.add (seconds n) 1%float
  end.

(** ** Protocol constants *)

(** Modelled from the spec: [types.py] is not part of the sources at hand.
    [PacketContent.TERMINATOR] is the byte [0x24] that ends every frame. *)
Definition TERMINATOR : Z := 0x24.

(** Modelled from the spec: [ProtocolVersion.V1], [Packet.DISCOVER] and the
    [PairingCommand] values of [types.py]. *)
Definition ProtocolVersion_V1 : Z := 0x01.
Definition Packet_DISCOVER : Z := 0x04.

(** Constants of the PJON library. *)
Definition PJON_BROADCAST : Z := 0.
Definition PJON_ACK : Z := 6.

(** The two enumerations of [types.py] that the frame codec consults.  Only
    their membership tests matter: [E.has_value(v)] is the table, and the
    constructor call [E(v)] raises [ValueError] exactly when the table says
    no. *)
Record Enums : Type := {
  ProtocolVersion_has_value : Z -> bool;
  Packet_has_value : Z -> bool
}.

(** Modelled from the spec: the values section 6 of the specification
    lists for [ProtocolVersion] and [Packet]. *)
Definition spec_enums : Enums := {|
  ProtocolVersion_has_value := fun v => v =? 0x01;
  Packet_has_value := fun v =>
    existsb (Z.eqb v) [0x01; 0x02; 0x03; 0x04; 0x21; 0x22; 0x31; 0x41]
|}.

(** ** The PJON client *)

Module Pjon.

(** *** CRC *)

(** One pass of the inner [for _ in range(0, 8)] loop of [__crc16]. *)
Definition crc16_bit (poly : Z) (st : Z * Z) : Z * Z :=
  let '(crc, cur_byte) := st in
  (if Z.lxor (Z.land crc 0x0001) (Z.land cur_byte 0x0001) =? 0
   then Z.shiftr crc 1
   else Z.lxor (Z.shiftr crc 1) poly,
   Z.shiftr cur_byte 1).

(** One pass of the outer [for byte in data] loop. *)
Definition crc16_byte (poly crc byte : Z) : Z :=
  fst (Nat.iter 8 (crc16_bit poly) (crc, Z.land 0xFF byte)).

Definition crc16_poly (calculate_data : list Z) (poly : Z) : Z :=
  let crc := fold_left (crc16_byte poly) calculate_data 0xFFFF in
  let crc := Z.land (Z.lnot crc) 0xFFFF in
  let crc := Z.lor (Z.shiftl crc 8) (Z.land (Z.shiftr crc 8) 0xFF) in
  Z.land crc 0xFFFF.

(** [PjonClient.__crc16] with its default polynomial. *)
Definition crc16 (calculate_data : list Z) : Z :=
  crc16_poly calculate_data 0x8408.

(** The reference CRC, written from the words of the specification: a
    16-bit register seeded with [0xFFFF]; every input byte is fed bit by
    bit, least significant bit first, through the reflected polynomial
    [0x8408]; the register is complemented and its two bytes are swapped. *)
Definition bits_lsb_first (byte : Z) : list bool :=
  map (Z.testbit byte) [0; 1; 2; 3; 4; 5; 6; 7].

Definition crc_feed_bit (reg : Z) (b : bool) : Z :=
  if xorb (Z.odd reg) b then Z.lxor (reg / 2) 0x8408 else reg / 2.

Definition crc16_reference (data : list Z) : Z :=
  let reg := fold_left crc_feed_bit (flat_map bits_lsb_first data) 0xFFFF in
  let complemented := 0xFFFF - reg in
  (complemented mod 256) * 256 + complemented / 256.

(** *** The link and the clock *)

(** What one call of the driver's [loop()] gives: the pair
    [(receive status, send status)], or one of the driver's exceptions. *)
Definition LoopResult : Type := (Exn + Z * Z)%type.

(** The environment of a client: the value of the [n]-th [time.time()]
    reading, the result of the [n]-th [loop()] call and the result of the
    [n]-th [send()] call. *)
Record Env : Type := {
  time_at : nat -> float;
  loop_at : nat -> LoopResult;
  send_at : nat -> Z
}.

(** How far the environment has been consumed, and what was handed to the
    driver's [send(address, bytes)]. *)
Record World : Type := {
  clock_reads : nat;
  loop_calls : nat;
  link_sent : list (Z * list Z)
}.

Definition time_time (env : Env) (w : World) : float * World :=
  (time_at env (clock_reads w),
   {| clock_reads := S (clock_reads w);
      loop_calls := loop_calls w;
      link_sent := link_sent w |}).

Definition driver_loop (env : Env) (w : World) : LoopResult * World :=
  (loop_at env (loop_calls w),
   {| clock_reads := clock_reads w;
      loop_calls := S (loop_calls w);
      link_sent := link_sent w |}).

Definition driver_send (env : Env) (address : Z) (data : list Z) (w : World)
    : Z * World :=
  (send_at env (length (link_sent w)),
   {| clock_reads := clock_reads w;
      loop_calls := loop_calls w;
      link_sent := link_sent w ++ [(address, data)] |}).

(** *** send_packet *)

(** The [while (time.time() - current_time) <= waiting_time] loop. *)
Fixpoint ack_wait (env : Env) (fuel : nat) (current_time waiting_time : float)
    (w : World) : Outcome bool * World :=
  match fuel with
  | O => (OutOfFuel, w)
  | S fuel =>
      let '(now, w) := time_time env w in
      if PrimFloat.leb (PrimFloat.sub now current_time) waiting_time then
        match driver_loop env w with
        | (inl e, w) => (Raised e, w)
        | (inr (_, send_packet_result), w) =>
            if send_packet_result =? PJON_ACK then (Returned true, w)
            else ack_wait env fuel current_time waiting_time w
        end
      else (Returned false, w)
  end.

(** [PjonClient.send_packet].  The second component of the result is the
    content of the caller's [payload] list object when the call ends: the
    method appends to the list it is given. *)
Definition send_packet (enums : Enums) (env : Env) (fuel : nat)
    (address : Z) (payload : list Z) (waiting_time : float) (w : World)
    : Outcome bool * list Z * World :=
  match py_bytes payload with
  | None => (Raised ValueError, payload, w)
  | Some data =>
      let crc16 := crc16 data in
      let payload := payload ++ [Z.shiftr crc16 8] in
      let payload := payload ++ [Z.land crc16 0xFF] in
      let payload := payload ++ [TERMINATOR] in
      match py_bytes payload with
      | None => (Raised ValueError, payload, w)
      | Some frame =>
          (* the result of send() is not looked at *)
          let '(_, w) := driver_send env address frame w in
          (* both debug messages evaluate Packet(payload[1]) *)
          match py_index payload 1 with
          | None => (Raised IndexError, payload, w)
          | Some kind =>
              if Packet_has_value enums kind then
                if PrimFloat.ltb 0 waiting_time then
                  let '(current_time, w) := time_time env w in
                  let '(r, w) := ack_wait env fuel current_time waiting_time w in
                  (r, payload, w)
                else (Returned true, payload, w)
              else (Raised ValueError, payload, w)
          end
      end
  end.


(** *** handle *)

(** The warnings [handle] writes. *)
Inductive HandleWarning : Type :=
| ConnectionLostWarning
| BufferFullWarning
| ContentTooLongWarning.

(** [PjonClient.handle]: the first component of what [loop()] gives; the
    three exceptions of the driver are logged and answered with [0], any
    other exception leaves the method. *)
Definition handle (env : Env) (w : World)
    : Outcome Z * option HandleWarning * World :=
  match driver_loop env w with
  | (inr result, w) => (Returned (fst result), None, w)
  | (inl PJON_Connection_Lost, w) => (Returned 0, Some ConnectionLostWarning, w)
  | (inl PJON_Packets_Buffer_Full, w) => (Returned 0, Some BufferFullWarning, w)
  | (inl PJON_Content_Too_Long, w) => (Returned 0, Some ContentTooLongWarning, w)
  | (inl e, w) => (Raised e, None, w)
  end.

(** *** receive *)

(** The header dictionary handed over by the driver; only the entry
    ["sender_id"] is read, [None] when the key is absent. *)
Record PacketInfo : Type := { sender_id : option Z }.

Inductive Rejection : Type :=
| UnknownProtocolVersion
| UnknownPacket
| InvalidCrc
| MissingTerminator.

(** What [receive] did with the frame: a warning and nothing else, or the
    call [receiver.on_message(payload, length, address, ...)]. *)
Inductive Received : Type :=
| Dropped (why : Rejection)
| Forwarded (payload : list Z) (length : Z) (address : option Z).

Definition receive (enums : Enums) (received_payload : list Z) (length : Z)
    (packet_info : PacketInfo) : Outcome Received :=
  (* int(str(packet_info.get("sender_id"))): get() gives None for a missing
     key, int("None") raises ValueError, which except KeyError lets pass *)
  match sender_id packet_info with
  | None => Raised ValueError
  | Some sender =>
      let sender_address := Some sender in
      let raw_payload := received_payload in
      match py_index raw_payload 0 with
      | None => Raised IndexError
      | Some version =>
          if negb (ProtocolVersion_has_value enums version)
          then Returned (Dropped UnknownProtocolVersion)
          else
            match py_index raw_payload 1 with
            | None => Raised IndexError
            | Some kind =>
                if negb (Packet_has_value enums kind)
                then Returned (Dropped UnknownPacket)
                else
                  let calculated_crc := crc16 (py_slice_to raw_payload (length - 3)) in
                  match py_index raw_payload (length - 3),
                        py_index raw_payload (length - 2) with
                  | Some hi, Some lo =>
                      let in_packet_crc := Z.lor (Z.shiftl hi 8) lo in
                      if negb (calculated_crc =? in_packet_crc)
                      then Returned (Dropped InvalidCrc)
                      else
                        match py_index raw_payload (-1) with
                        | None => Raised IndexError
                        | Some last =>
                            if negb (last =? TERMINATOR)
                            then Returned (Dropped MissingTerminator)
                            else
                              let payload := py_slice_to raw_payload (length - 3) in
                              match py_index payload 1 with
                              | None => Raised IndexError
                              | Some packet_id =>
                                  if Packet_has_value enums packet_id
                                  then Returned (Forwarded payload
                                                   (Z.of_nat (List.length payload))
                                                   sender_address)
                                  else Raised ValueError
                              end
                        end
                  | _, _ => Raised IndexError
                  end
            end
      end
  end.

(** The four checks of [receive], each as a predicate on the frame. *)
Definition version_ok (enums : Enums) (raw : list Z) : bool :=
  match py_index raw 0 with
  | Some v => ProtocolVersion_has_value enums v
  | None => false
  end.

Definition kind_ok (enums : Enums) (raw : list Z) : bool :=
  match py_index raw 1 with
  | Some k => Packet_has_value enums k
  | None => false
  end.

Definition crc_ok (raw : list Z) : bool :=
  let L := Z.of_nat (List.length raw) in
  match py_index raw (L - 3), py_index raw (L - 2) with
  | Some hi, Some lo =>
      crc16 (py_slice_to raw (L - 3)) =? Z.lor (Z.shiftl hi 8) lo
  | _, _ => false
  end.

Definition terminator_ok (raw : list Z) : bool :=
  match py_index raw (Z.of_nat (List.length raw) - 1) with
  | Some t => t =? TERMINATOR
  | None => false
  end.

(** The frame of a payload: the payload, the high and the low byte of its
    CRC, the terminator. *)
Definition encode (B : list Z) : list Z :=
  B ++ [Z.shiftr (crc16 B) 8; Z.land (crc16 B) 0xFF; TERMINATOR].

(** The sequence [raw] with bit [k] of its [i]-th element inverted, as a
    single-bit transmission error leaves it. *)
Definition flip_bit (raw : list Z) (i : nat) (k : Z) : list Z :=
  match nth_error raw i with
  | Some x => firstn i raw ++ Z.lxor x (2 ^ k) :: skipn (S i) raw
  | None => raw
  end.

Definition word16 (z : Z) : Prop := 0 <= z < 65536.

(** The test of the wait loop at its [j]-th clock reading, for a wait that
    starts in world [w] (the world in which [current_time] is read): the
    double [time.time() - current_time] is at most [waiting_time]. *)
Definition within_budget (env : Env) (w : World) (waiting_time : float)
    (j : nat) : bool :=
  PrimFloat.leb
    (PrimFloat.sub (time_at env (S (clock_reads w) + j)) (time_at env (clock_reads w)))
    waiting_time.

(** The [k]-th poll of that wait reports [PJON_ACK], and the wait gets
    that far: the test holds at every clock reading up to it and every
    earlier poll returned another send status. *)
Definition acked_at (env : Env) (w : World) (waiting_time : float) (k : nat) : Prop :=
  (forall j, (j <= k)%nat -> within_budget env w waiting_time j = true) /\
  (forall j, (j < k)%nat ->
     exists r s, loop_at env (loop_calls w + j) = inr (r, s) /\ s <> PJON_ACK) /\
  (exists r, loop_at env (loop_calls w + k) = inr (r, PJON_ACK)).

(** An environment for examples: the clock advances by one second at every
    reading, the driver never reports anything, [send()] returns [0]. *)
Definition quiet_env : Env := {|
  time_at := seconds;
  loop_at := fun _ => inr (0, 0);
  send_at := fun _ => 0
|}.

(** The same, with a driver that reports [PJON_ACK] at its third poll. *)
Definition acking_env : Env := {|
  time_at := seconds;
  loop_at := fun n => if (n =? 2)%nat then inr (0, PJON_ACK) else inr (0, 0);
  send_at := fun _ => 0
|}.

(** A link that acknowledges at every poll, with a clock that reads 0.1
    first and 1.1 afterwards (the doubles nearest to these numbers). *)
Definition tenths_env : Env := {|
  time_at := fun n => match n with
                      | O => 0x1.999999999999ap-4%float
                      | S _ => 0x1.199999999999ap+0%float
                      end;
  loop_at := fun _ => inr (0, PJON_ACK);
  send_at := fun _ => 0
|}.

Definition fresh_world : World :=
  {| clock_reads := 0; loop_calls := 0; link_sent := [] |}.

End Pjon.

(** ** The pairing handler for API v1 *)

Module Pairing.

(** *** Enumerations and records *)

(** Modelled from the spec: the enumerations of [types.py]
    ([PairingCommand], [RegisterType], [DeviceDataType],
    [ConnectionState]) with the wire values of section 6. *)
Inductive PairingCommand : Type :=
| SEARCH
| WRITE_ADDRESS
| PROVIDE_REGISTER_STRUCTURE
| PAIRING_FINISHED.

Definition PairingCommand_value (c : PairingCommand) : Z :=
  match c with
  | SEARCH => 0x01
  | WRITE_ADDRESS => 0x02
  | PROVIDE_REGISTER_STRUCTURE => 0x03
  | PAIRING_FINISHED => 0x04
  end.

(** [PairingCommand(z)] succeeds. *)
Definition PairingCommand_has_value (z : Z) : bool :=
  existsb (Z.eqb z) [0x01; 0x02; 0x03; 0x04].

(** Modelled from the spec: [PairingResponse] of [types.py]; section 6
    gives the response codes as [0x50 + command]. *)
Definition PairingResponse_has_value (z : Z) : bool :=
  existsb (Z.eqb z) [0x51; 0x52; 0x53; 0x54].

Inductive RegisterType : Type := INPUT | OUTPUT | ATTRIBUTE | SETTING.

Definition RegisterType_value (t : RegisterType) : Z :=
  match t with
  | INPUT => 0x01
  | OUTPUT => 0x02
  | ATTRIBUTE => 0x03
  | SETTING => 0x04
  end.

Inductive DeviceDataType : Type :=
| UNKNOWN | BOOL | U8 | U16 | U32 | I8 | I16 | I32
| FLOAT | STRING | ENUM | BUTTON | SWITCH | DATETIME.

Inductive ConnectionState : Type :=
| STATE_UNKNOWN | STATE_INIT | STATE_PAIRING | STATE_READY | STATE_LOST
| STATE_STOPPED.

#[global] Instance PairingCommand_eq_dec : EqDecision PairingCommand.
Proof. solve_decision. Defined.
#[global] Instance RegisterType_eq_dec : EqDecision RegisterType.
Proof. solve_decision. Defined.
#[global] Instance DeviceDataType_eq_dec : EqDecision DeviceDataType.
Proof. solve_decision. Defined.

(** A Python [str], as the list of the code points [ord] gives. *)
Definition str : Type := list Z.

(** [PairingDeviceRecord] of [registry/records.py], with the fields
    [append_device] fills in.  [address] is the only one assigned later. *)
Record PairingDeviceRecord : Type := mkDevice {
  device_client_id : Z;
  device_id : Z;
  device_address : Z;
  device_max_packet_length : Z;
  device_serial_number : str;
  device_hardware_version : str;
  device_hardware_model : str;
  device_hardware_manufacturer : str;
  device_firmware_version : str;
  device_firmware_manufacturer : str;
  input_registers_size : Z;
  output_registers_size : Z;
  attributes_registers_size : Z;
  settings_registers_size : Z;
  device_pub_sub_pub_support : bool;
  device_pub_sub_sub_support : bool;
  device_max_subscriptions : Z;
  device_max_subscription_conditions : Z;
  device_max_subscription_actions : Z
}.

(** [device.address = a]. *)
Definition set_device_address (a : Z) (d : PairingDeviceRecord)
    : PairingDeviceRecord :=
  mkDevice (device_client_id d) (device_id d) a (device_max_packet_length d)
    (device_serial_number d) (device_hardware_version d)
    (device_hardware_model d) (device_hardware_manufacturer d)
    (device_firmware_version d) (device_firmware_manufacturer d)
    (input_registers_size d) (output_registers_size d)
    (attributes_registers_size d) (settings_registers_size d)
    (device_pub_sub_pub_support d) (device_pub_sub_sub_support d)
    (device_max_subscriptions d) (device_max_subscription_conditions d)
    (device_max_subscription_actions d).

(** The four classes of pairing register records. *)
Inductive PairingRegisterRecord : Type :=
| PairingInputRegisterRecord
    (register_id register_address : Z) (register_data_type : DeviceDataType)
    (register_key : option str)
| PairingOutputRegisterRecord
    (register_id register_address : Z) (register_data_type : DeviceDataType)
    (register_key : option str)
| PairingAttributeRegisterRecord
    (register_id register_address : Z) (register_key register_name : option str)
    (register_data_type : DeviceDataType)
    (register_settable register_queryable : bool)
| PairingSettingRegisterRecord
    (register_id register_address : Z) (register_name : option str)
    (register_data_type : DeviceDataType).

Definition register_id (r : PairingRegisterRecord) : Z :=
  match r with
  | PairingInputRegisterRecord i _ _ _ => i
  | PairingOutputRegisterRecord i _ _ _ => i
  | PairingAttributeRegisterRecord i _ _ _ _ _ _ => i
  | PairingSettingRegisterRecord i _ _ _ => i
  end.

Definition register_address (r : PairingRegisterRecord) : Z :=
  match r with
  | PairingInputRegisterRecord _ a _ _ => a
  | PairingOutputRegisterRecord _ a _ _ => a
  | PairingAttributeRegisterRecord _ a _ _ _ _ _ => a
  | PairingSettingRegisterRecord _ a _ _ => a
  end.

Definition register_data_type (r : PairingRegisterRecord) : DeviceDataType :=
  match r with
  | PairingInputRegisterRecord _ _ t _ => t
  | PairingOutputRegisterRecord _ _ t _ => t
  | PairingAttributeRegisterRecord _ _ _ _ t _ _ => t
  | PairingSettingRegisterRecord _ _ _ t => t
  end.

Definition register_type (r : PairingRegisterRecord) : RegisterType :=
  match r with
  | PairingInputRegisterRecord _ _ _ _ => INPUT
  | PairingOutputRegisterRecord _ _ _ _ => OUTPUT
  | PairingAttributeRegisterRecord _ _ _ _ _ _ _ => ATTRIBUTE
  | PairingSettingRegisterRecord _ _ _ _ => SETTING
  end.

(** What the registries of [registry/model.py] hand out: a device record
    (of which pairing reads the address and the serial number) and register
    records of the four classes. *)
Record DeviceRecord : Type := {
  registry_device_id : Z;
  registry_device_address : Z;
  registry_device_serial_number : str
}.

Inductive RegisterRecord : Type :=
| InputRegisterRecord (id address : Z) (key : option str)
| OutputRegisterRecord (id address : Z) (key : option str)
| AttributeRegisterRecord (id address : Z) (key name : option str)
    (settable queryable : bool)
| SettingRegisterRecord (id address : Z) (name : option str).

(** One call of the client proxy: [broadcast_packet] ([call_address] is
    [None]) or [send_packet], with the content of the payload list at the
    time of the call. *)
Record ClientCall : Type := {
  call_address : option Z;
  call_payload : list Z;
  call_waiting_time : float;
  call_client_id : option Z
}.

(** The messages [apiv1.py] writes to its logger. *)
Inductive LogMessage : Type :=
| MaximumTotalAttemptsReached
| PairingCouldNotBeFinished
| PairingModeActivated
| PairingModeDeactivated
| NoDeviceForDiscovering
| NewFreeAddressNotFound
| NewDevicePrepared
| ExistingDevicePrepared
| ConfiguredRegisters
| ConfiguredAttributes
| ConfiguredSettings
| PreparingToBroadcastSearch
| PreparingToBroadcastWriteAddress
| PreparingToSendPairingCommand
| RegisterAddressNotConfigured.

#[global] Instance LogMessage_eq_dec : EqDecision LogMessage.
Proof. solve_decision. Defined.

(** *** The object and its surroundings *)

(** The attributes of an [ApiV1Pairing] object.  The two sets are kept as
    lists in iteration order: [set.pop()] takes the first element, and a
    [for] loop over the set visits the elements from first to last.  Python
    does not say which order that is; where a statement below depends on
    the order, the set is given as the list of its elements in that
    order. *)
Record State : Type := mkState {
  found_devices : list PairingDeviceRecord;
  pairing_device : option PairingDeviceRecord;
  pairing_device_registers : list PairingRegisterRecord;
  last_request_send_timestamp : float;
  waiting_for_packet : option Z;
  attempts : Z;
  total_attempts : Z;
  pairing_enabled : bool;
  pairing_cmd : PairingCommand;
  processing_register_address : option Z;
  processing_register_type : option RegisterType;
  broadcasting_search_finished : bool;
  finished_cmd : list PairingCommand;
  client_id : option (list Z)
}.

Definition set_found_devices (v : list PairingDeviceRecord) (s : State) : State :=
  let 'mkState _ pd regs ts wp att tot en cmd pa pt bsf fin cid := s in
  mkState v pd regs ts wp att tot en cmd pa pt bsf fin cid.

Definition set_pairing_device (v : option PairingDeviceRecord) (s : State) : State :=
  let 'mkState fd _ regs ts wp att tot en cmd pa pt bsf fin cid := s in
  mkState fd v regs ts wp att tot en cmd pa pt bsf fin cid.

Definition set_pairing_device_registers (v : list PairingRegisterRecord) (s : State) : State :=
  let 'mkState fd pd _ ts wp att tot en cmd pa pt bsf fin cid := s in
  mkState fd pd v ts wp att tot en cmd pa pt bsf fin cid.

Definition set_last_request_send_timestamp (v : float) (s : State) : State :=
  let 'mkState fd pd regs _ wp att tot en cmd pa pt bsf fin cid := s in
  mkState fd pd regs v wp att tot en cmd pa pt bsf fin cid.

Definition set_waiting_for_packet (v : option Z) (s : State) : State :=
  let 'mkState fd pd regs ts _ att tot en cmd pa pt bsf fin cid := s in
  mkState fd pd regs ts v att tot en cmd pa pt bsf fin cid.

Definition set_attempts (v : Z) (s : State) : State :=
  let 'mkState fd pd regs ts wp _ tot en cmd pa pt bsf fin cid := s in
  mkState fd pd regs ts wp v tot en cmd pa pt bsf fin cid.

Definition set_total_attempts (v : Z) (s : State) : State :=
  let 'mkState fd pd regs ts wp att _ en cmd pa pt bsf fin cid := s in
  mkState fd pd regs ts wp att v en cmd pa pt bsf fin cid.

Definition set_pairing_enabled (v : bool) (s : State) : State :=
  let 'mkState fd pd regs ts wp att tot _ cmd pa pt bsf fin cid := s in
  mkState fd pd regs ts wp att tot v cmd pa pt bsf fin cid.

Definition set_pairing_cmd (v : PairingCommand) (s : State) : State :=
  let 'mkState fd pd regs ts wp att tot en _ pa pt bsf fin cid := s in
  mkState fd pd regs ts wp att tot en v pa pt bsf fin cid.

Definition set_processing_register_address (v : option Z) (s : State) : State :=
  let 'mkState fd pd regs ts wp att tot en cmd _ pt bsf fin cid := s in
  mkState fd pd regs ts wp att tot en cmd v pt bsf fin cid.

Definition set_processing_register_type (v : option RegisterType) (s : State) : State :=
  let 'mkState fd pd regs ts wp att tot en cmd pa _ bsf fin cid := s in
  mkState fd pd regs ts wp att tot en cmd pa v bsf fin cid.

Definition set_broadcasting_search_finished (v : bool) (s : State) : State :=
  let 'mkState fd pd regs ts wp att tot en cmd pa pt _ fin cid := s in
  mkState fd pd regs ts wp att tot en cmd pa pt v fin cid.

Definition set_finished_cmd (v : list PairingCommand) (s : State) : State :=
  let 'mkState fd pd regs ts wp att tot en cmd pa pt bsf _ cid := s in
  mkState fd pd regs ts wp att tot en cmd pa pt bsf v cid.

Definition set_client_id (v : option (list Z)) (s : State) : State :=
  let 'mkState fd pd regs ts wp att tot en cmd pa pt bsf fin _ := s in
  mkState fd pd regs ts wp att tot en cmd pa pt bsf fin v.

Record World : Type := mkWorld {
  clock_reads : nat;
  uuids_drawn : nat;
  registry_reads : nat;
  client_calls : list ClientCall;
  set_state_calls : list (Z * ConnectionState);
  log : list LogMessage
}.

(** What pairing cannot decide by itself: the clock, [uuid.uuid4()], the
    client proxy ([clients/client.py]) and the two registries, each as the
    answer to the [n]-th call.  A client call answers with its result and
    with what it leaves in the payload list it was given. *)
Record Env : Type := {
  time_at : nat -> float;
  uuid4_at : nat -> Z;
  client_at : nat -> ClientCall -> bool * list Z;
  devices_get_by_id : nat -> Z -> option DeviceRecord;
  devices_find_free_address : nat -> Z -> option Z;
  registers_get_by_address : nat -> Z -> RegisterType -> Z -> option RegisterRecord
}.

Definition time_time (env : Env) (w : World) : float * World :=
  let 'mkWorld clock uuids reads calls states messages := w in
  (time_at env clock, mkWorld (S clock) uuids reads calls states messages).

Definition uuid4 (env : Env) (w : World) : Z * World :=
  let 'mkWorld clock uuids reads calls states messages := w in
  (uuid4_at env uuids, mkWorld clock (S uuids) reads calls states messages).

Definition registry_read (w : World) : World :=
  let 'mkWorld clock uuids reads calls states messages := w in
  mkWorld clock uuids (S reads) calls states messages.

Definition logger (m : LogMessage) (w : World) : World :=
  let 'mkWorld clock uuids reads calls states messages := w in
  mkWorld clock uuids reads calls states (messages ++ [m]).

Definition registry_set_state (device : Z) (state : ConnectionState) (w : World)
    : World :=
  let 'mkWorld clock uuids reads calls states messages := w in
  mkWorld clock uuids reads calls (states ++ [(device, state)]) messages.

(** A call of the client proxy: the result, the payload list afterwards. *)
Definition client_call (env : Env) (c : ClientCall) (w : World)
    : bool * list Z * World :=
  let 'mkWorld clock uuids reads calls states messages := w in
  (client_at env (length calls) c,
   mkWorld clock uuids reads (calls ++ [c]) states messages).

(** *** Constants of the class *)

Definition MAX_SEARCHING_ATTEMPTS : Z := 5.
Definition MAX_TRANSMIT_ATTEMPTS : Z := 5.
Definition MAX_TOTAL_TRANSMIT_ATTEMPTS : Z := 100.
Definition SEARCHING_DELAY : float := 2.
Definition MAX_PAIRING_DELAY : float := 5.
Definition BROADCAST_WAITING_DELAY : float := 2.
Definition ADDRESS_NOT_ASSIGNED : Z := 255.

(** *** Methods *)

Definition reset_device_pointers (s : State) : State :=
  let s := set_pairing_device None s in
  let s := set_pairing_device_registers [] s in
  let s := set_pairing_cmd WRITE_ADDRESS s in
  let s := set_waiting_for_packet None s in
  let s := set_attempts 0 s in
  let s := set_total_attempts 0 s in
  let s := set_processing_register_address None s in
  let s := set_processing_register_type None s in
  set_finished_cmd [] s.

Definition reset_pointers (s : State) : State :=
  let s := set_found_devices [] s in
  let s := set_last_request_send_timestamp 0 s in
  let s := set_broadcasting_search_finished false s in
  reset_device_pointers s.

(** [enable(client_id)]: the argument is a single id, a list of ids, or
    [None]. *)
Definition enable (arg : option (Z + list Z)) (s : State) (w : World)
    : State * World :=
  let s := set_client_id None s in
  let s := match arg with
           | Some (inl one) => set_client_id (Some [one]) s
           | _ => s
           end in
  let s := match arg with
           | Some (inr many) => set_client_id (Some many) s
           | _ => s
           end in
  let s := set_pairing_enabled true s in
  let s := reset_pointers s in
  (s, logger PairingModeActivated w).

Definition disable (s : State) (w : World) : State * World :=
  let s := set_pairing_enabled false s in
  let s := reset_pointers s in
  (s, logger PairingModeDeactivated w).

Definition is_enabled (s : State) : bool := pairing_enabled s.

(** [append_device]: the record of the answering device; the call also
    stops the wait for a packet. *)
Definition append_device (record : PairingDeviceRecord) (s : State)
    : PairingDeviceRecord * State :=
  let s := set_waiting_for_packet None s in
  let in_register :=
    find (fun r => bool_decide (device_client_id record = device_client_id r)
                   && bool_decide (device_serial_number record = device_serial_number r))
         (found_devices s) in
  match in_register with
  | Some r => (r, s)
  | None => (record, set_found_devices (found_devices s ++ [record]) s)
  end.

(** The loop [for register in set: if register.id == id: remove; break]. *)
Fixpoint remove_first_with_id (id : Z) (l : list PairingRegisterRecord)
    : list PairingRegisterRecord :=
  match l with
  | [] => []
  | r :: l => if register_id r =? id then l else r :: remove_first_with_id id l
  end.

Definition append_register (r : PairingRegisterRecord) (s : State) : State :=
  let registers := remove_first_with_id (register_id r) (pairing_device_registers s) in
  set_pairing_device_registers (registers ++ [r]) s.

Definition append_input_register (id address : Z) (data_type : DeviceDataType)
    (key : option str) (s : State) : State :=
  append_register (PairingInputRegisterRecord id address data_type key) s.

Definition append_output_register (id address : Z) (data_type : DeviceDataType)
    (key : option str) (s : State) : State :=
  append_register (PairingOutputRegisterRecord id address data_type key) s.

Definition append_attribute (id address : Z) (key name : option str)
    (data_type : DeviceDataType) (settable queryable : bool) (s : State) : State :=
  append_register
    (PairingAttributeRegisterRecord id address key name data_type settable queryable) s.

Definition append_setting (id address : Z) (name : option str)
    (data_type : DeviceDataType) (s : State) : State :=
  append_register (PairingSettingRegisterRecord id address name data_type) s.

Definition append_pairing_cmd (command : PairingCommand) (s : State) : State :=
  let s := set_finished_cmd (finished_cmd s ++ [command]) s in
  let s := set_waiting_for_packet None s in
  set_attempts 0 s.

Definition is_unknown (r : PairingRegisterRecord) : bool :=
  bool_decide (register_data_type r = UNKNOWN).

Definition has_registers_to_init (s : State) : bool :=
  existsb is_unknown (pairing_device_registers s).

(** What [move_to_next_register_for_init] does once it has found the
    register to ask for. *)
Definition select_register (t : RegisterType) (address : Z) (s : State) : State :=
  let s := set_processing_register_type (Some t) s in
  let s := set_processing_register_address (Some address) s in
  let s := set_waiting_for_packet None s in
  set_attempts 0 s.

Definition move_to_next_register_for_init (s : State) : bool * State :=
  let s := set_processing_register_type None s in
  let s := set_processing_register_address None s in
  if has_registers_to_init s then
    match find (fun r => is_unknown r
                         && (bool_decide (register_type r = INPUT)
                             || bool_decide (register_type r = OUTPUT)))
               (pairing_device_registers s) with
    | Some register =>
        (true, select_register (register_type register) (register_address register) s)
    | None =>
    match find (fun r => is_unknown r && bool_decide (register_type r = ATTRIBUTE))
               (pairing_device_registers s) with
    | Some attribute => (true, select_register ATTRIBUTE (register_address attribute) s)
    | None =>
    match find (fun r => is_unknown r && bool_decide (register_type r = SETTING))
               (pairing_device_registers s) with
    | Some setting => (true, select_register SETTING (register_address setting) s)
    | None => (false, s)
    end end end
  else (false, s).

Definition record_id (r : RegisterRecord) : Z :=
  match r with
  | InputRegisterRecord i _ _ | OutputRegisterRecord i _ _
  | AttributeRegisterRecord i _ _ _ _ _ | SettingRegisterRecord i _ _ => i
  end.

Definition record_address (r : RegisterRecord) : Z :=
  match r with
  | InputRegisterRecord _ a _ | OutputRegisterRecord _ a _
  | AttributeRegisterRecord _ a _ _ _ _ | SettingRegisterRecord _ a _ => a
  end.

Definition record_key (r : RegisterRecord) : option str :=
  match r with
  | InputRegisterRecord _ _ k | OutputRegisterRecord _ _ k
  | AttributeRegisterRecord _ _ k _ _ _ => k
  | SettingRegisterRecord _ _ _ => None
  end.

(** [registers_registry.get_by_address(...)]. *)
Definition get_by_address (env : Env) (device : Z) (t : RegisterType) (address : Z)
    (w : World) : option RegisterRecord * World :=
  (registers_get_by_address env (registry_reads w) device t address,
   registry_read w).

(** The indices [range(size)] runs through. *)
Definition py_range (size : Z) : list Z := map Z.of_nat (seq 0 (Z.to_nat size)).

Definition configure_registers (env : Env) (device : Z) (registers_size : Z)
    (registers_type : RegisterType) (s : State) (w : World) : State * World :=
  fold_left
    (fun (sw : State * World) (i : Z) =>
       let '(s, w) := sw in
       let '(register_record, w) := get_by_address env device registers_type i w in
       match register_record with
       | Some record =>
           match registers_type with
           | INPUT =>
               (append_input_register (record_id record) (record_address record)
                  UNKNOWN (record_key record) s, w)
           | OUTPUT =>
               (append_output_register (record_id record) (record_address record)
                  UNKNOWN (record_key record) s, w)
           | _ => (s, w)
           end
       | None =>
           match registers_type with
           | INPUT =>
               let '(id, w) := uuid4 env w in
               (append_input_register id i UNKNOWN None s, w)
           | OUTPUT =>
               let '(id, w) := uuid4 env w in
               (append_output_register id i UNKNOWN None s, w)
           | _ => (s, w)
           end
       end)
    (py_range registers_size) (s, w).

Definition configure_attributes (env : Env) (device : Z) (attributes_size : Z)
    (s : State) (w : World) : State * World :=
  fold_left
    (fun (sw : State * World) (i : Z) =>
       let '(s, w) := sw in
       let '(attribute_record, w) := get_by_address env device ATTRIBUTE i w in
       match attribute_record with
       | Some (AttributeRegisterRecord id address key name settable queryable) =>
           (append_attribute id address key name UNKNOWN settable queryable s, w)
       | Some _ => (s, w)
       | None =>
           let '(id, w) := uuid4 env w in
           (append_attribute id i None None UNKNOWN true true s, w)
       end)
    (py_range attributes_size) (s, w).

Definition configure_settings (env : Env) (device : Z) (settings_size : Z)
    (s : State) (w : World) : State * World :=
  fold_left
    (fun (sw : State * World) (i : Z) =>
       let '(s, w) := sw in
       let '(setting_record, w) := get_by_address env device SETTING i w in
       match setting_record with
       | Some (SettingRegisterRecord id address name) =>
           (append_setting id address name UNKNOWN s, w)
       | Some _ => (s, w)
       | None =>
           let '(id, w) := uuid4 env w in
           (append_setting id i None UNKNOWN s, w)
       end)
    (py_range settings_size) (s, w).

(** The second half of [discover_device], from [# Input registers] on; [d]
    is [self.__pairing_device]. *)
Definition configure_device (env : Env) (d : PairingDeviceRecord) (s : State)
    (w : World) : State * World :=
  let '(s, w) := configure_registers env (device_id d) (input_registers_size d) INPUT s w in
  let '(s, w) := configure_registers env (device_id d) (output_registers_size d) OUTPUT s w in
  let w := logger ConfiguredRegisters w in
  let '(s, w) := configure_attributes env (device_id d) (attributes_registers_size d) s w in
  let w := logger ConfiguredAttributes w in
  let '(s, w) := configure_settings env (device_id d) (settings_registers_size d) s w in
  (s, logger ConfiguredSettings w).

(** [discover_device].  The method calls itself when no address is free for
    the device it has popped; every call pops from the set, so the
    recursion is on what is left of [found_devices]. *)
Fixpoint discover_device_from (env : Env) (found : list PairingDeviceRecord)
    (s : State) (w : World) : State * World :=
  let s := reset_device_pointers s in
  match found with
  | [] =>
      (* pop() raises KeyError *)
      let '(s, w) := disable s w in
      (s, logger NoDeviceForDiscovering w)
  | d :: rest =>
      let s := set_found_devices rest s in
      let s := set_pairing_device (Some d) s in
      let s := set_attempts 0 s in
      let s := set_total_attempts 0 s in
      let device_record := devices_get_by_id env (registry_reads w) (device_id d) in
      let w := registry_read w in
      match device_record with
      | None =>
          let free_address :=
            devices_find_free_address env (registry_reads w) (device_client_id d) in
          let w := registry_read w in
          match free_address with
          | None =>
              let w := logger NewFreeAddressNotFound w in
              discover_device_from env rest s w
          | Some a =>
              let d := set_device_address a d in
              let s := set_pairing_device (Some d) s in
              let w := logger NewDevicePrepared w in
              configure_device env d s w
          end
      | Some record =>
          if registry_device_address record =? ADDRESS_NOT_ASSIGNED then
            let free_address :=
              devices_find_free_address env (registry_reads w) (device_client_id d) in
            let w := registry_read w in
            match free_address with
            | None =>
                let w := logger NewFreeAddressNotFound w in
                discover_device_from env rest s w
            | Some a =>
                let d := set_device_address a d in
                let s := set_pairing_device (Some d) s in
                let w := logger ExistingDevicePrepared w in
                let w := registry_set_state (registry_device_id record) STATE_PAIRING w in
                configure_device env d s w
            end
          else
            let d := set_device_address (registry_device_address record) d in
            let s := set_pairing_device (Some d) s in
            let w := logger ExistingDevicePrepared w in
            let w := registry_set_state (registry_device_id record) STATE_PAIRING w in
            configure_device env d s w
      end
  end.

Definition discover_device (env : Env) (s : State) (w : World) : State * World :=
  discover_device_from env (found_devices s) s w.

Definition finished (c : PairingCommand) (s : State) : bool :=
  existsb (fun c' => bool_decide (c = c')) (finished_cmd s).

Definition move_to_next_cmd (s : State) : State :=
  if negb (finished WRITE_ADDRESS s) then set_pairing_cmd WRITE_ADDRESS s
  else if negb (finished PROVIDE_REGISTER_STRUCTURE s) && has_registers_to_init s then
    let '(_, s) := move_to_next_register_for_init s in
    set_pairing_cmd PROVIDE_REGISTER_STRUCTURE s
  else if negb (finished PAIRING_FINISHED s) then set_pairing_cmd PAIRING_FINISHED s
  else s.

(** [for client_id in self.__client_id: client.broadcast_packet(payload,
    waiting_time, client_id)]: the same list object goes to every call. *)
Fixpoint broadcast_to_each (env : Env) (ids : list Z) (payload : list Z)
    (waiting_time : float) (w : World) : list Z * World :=
  match ids with
  | [] => (payload, w)
  | id :: ids =>
      let '(_, payload, w) :=
        client_call env
          {| call_address := None; call_payload := payload;
             call_waiting_time := waiting_time; call_client_id := Some id |} w in
      broadcast_to_each env ids payload waiting_time w
  end.

Definition broadcast (env : Env) (s : State) (payload : list Z) (w : World)
    : list Z * World :=
  match client_id s with
  | Some ids => broadcast_to_each env ids payload BROADCAST_WAITING_DELAY w
  | None =>
      let '(_, payload, w) :=
        client_call env
          {| call_address := None; call_payload := payload;
             call_waiting_time := BROADCAST_WAITING_DELAY;
             call_client_id := None |} w in
      (payload, w)
  end.

(** The four assignments every sending handler starts with. *)
Definition mark_request_sent (env : Env) (s : State) (w : World) : State * World :=
  let s := set_waiting_for_packet (Some Packet_DISCOVER) s in
  let s := set_attempts (attempts s + 1) s in
  let s := set_total_attempts (total_attempts s + 1) s in
  let '(now, w) := time_time env w in
  (set_last_request_send_timestamp now s, w).

Definition broadcast_search_devices_handler (env : Env) (s : State) (w : World)
    : State * World :=
  let '(s, w) := mark_request_sent env s w in
  let output_content :=
    [ProtocolVersion_V1; Packet_DISCOVER; PairingCommand_value SEARCH] in
  let w := logger PreparingToBroadcastSearch w in
  let '(_, w) := broadcast env s output_content w in
  (s, w).

Definition broadcast_write_address_handler (env : Env)
    (device : PairingDeviceRecord) (s : State) (w : World) : State * World :=
  let '(s, w) := mark_request_sent env s w in
  let output_content :=
    [ProtocolVersion_V1; Packet_DISCOVER; PairingCommand_value WRITE_ADDRESS;
     device_address device; Z.of_nat (length (device_serial_number device))] in
  let output_content := output_content ++ device_serial_number device in
  let w := logger PreparingToBroadcastWriteAddress w in
  let '(_, w) := broadcast env s output_content w in
  (s, w).

(** [for client_id in self.__client_id: result = client.send_packet(address,
    data, client_id)]. *)
Fixpoint send_to_each (env : Env) (ids : list Z) (address : Z) (data : list Z)
    (result : bool) (w : World) : bool * list Z * World :=
  match ids with
  | [] => (result, data, w)
  | id :: ids =>
      let '(result, data, w) :=
        client_call env
          {| call_address := Some address; call_payload := data;
             call_waiting_time := 0; call_client_id := Some id |} w in
      send_to_each env ids address data result w
  end.

(** [__send_data_to_device] from [data.insert(0, ...)] on.  The first
    component of the result is the content of the caller's [data] list when
    the method returns. *)
Definition send_data_inserted (env : Env) (data : list Z) (address : Z)
    (s : State) (w : World) : list Z * State * World :=
  let data := ProtocolVersion_V1 :: data in
  let result := false in
  let '(result, data, w) :=
    match client_id s with
    | Some ids => send_to_each env ids address data result w
    | None =>
        client_call env
          {| call_address := Some address; call_payload := data;
             call_waiting_time := 0; call_client_id := None |} w
    end in
  if negb result then
    let s := set_waiting_for_packet None s in
    let s := set_attempts 0 s in
    let '(now, w) := time_time env w in
    (data, set_last_request_send_timestamp now s, w)
  else (data, s, w).

(** [__send_data_to_device].  The arguments of its debug message,
    [PairingCommand(data[1]).value] and
    [PairingResponse(0x50 + PairingCommand(data[1]).value).value], are
    evaluated after the four assignments and before [data.insert]: a list
    with no element at index 1 raises [IndexError] there, one whose element
    at index 1 is no command raises [ValueError], and the list is then as
    the caller gave it.  The second component of the result is the content
    of the caller's [data] list when the method ends. *)
Definition send_data_to_device (env : Env) (data : list Z) (address : Z)
    (s : State) (w : World) : Outcome unit * list Z * State * World :=
  let '(s, w) := mark_request_sent env s w in
  match py_index data 1 with
  | None => (Raised IndexError, data, s, w)
  | Some command =>
      if PairingCommand_has_value command then
        if PairingResponse_has_value (0x50 + command) then
          let w := logger PreparingToSendPairingCommand w in
          let '(data, s, w) := send_data_inserted env data address s w in
          (Returned tt, data, s, w)
        else (Raised ValueError, data, s, w)
      else (Raised ValueError, data, s, w)
  end.

(** [output_content[1]] is a pairing command in both handlers that call
    [__send_data_to_device], so the call returns. *)
Definition send_finalize_pairing_handler (env : Env)
    (device : PairingDeviceRecord) (s : State) (w : World) : State * World :=
  let output_content := [Packet_DISCOVER; PairingCommand_value PAIRING_FINISHED] in
  let '(_, _, s, w) :=
    send_data_to_device env output_content (device_address device) s w in
  (s, w).

Definition send_provide_register_structure_handler (env : Env)
    (device : PairingDeviceRecord) (s : State) (w : World) : State * World :=
  match processing_register_address s, processing_register_type s with
  | Some address, Some type =>
      let output_content :=
        [Packet_DISCOVER; PairingCommand_value PROVIDE_REGISTER_STRUCTURE;
         RegisterType_value type; Z.shiftr address 8; Z.land address 0xFF] in
      let '(_, _, s, w) :=
        send_data_to_device env output_content (device_address device) s w in
      (s, w)
  | _, _ =>
      let s := set_waiting_for_packet None s in
      let s := set_attempts 0 s in
      (s, logger RegisterAddressNotConfigured w)
  end.

(** The three [if self.__pairing_cmd == ...] statements that end [loop];
    [device] is [self.__pairing_device], which no handler assigns. *)
Definition send_pairing_cmd (env : Env) (device : PairingDeviceRecord)
    (s : State) (w : World) : State * World :=
  let '(s, w) :=
    if bool_decide (pairing_cmd s = WRITE_ADDRESS)
    then broadcast_write_address_handler env device s w
    else (s, w) in
  let '(s, w) :=
    if bool_decide (pairing_cmd s = PROVIDE_REGISTER_STRUCTURE)
    then send_provide_register_structure_handler env device s w
    else (s, w) in
  if bool_decide (pairing_cmd s = PAIRING_FINISHED)
  then send_finalize_pairing_handler env device s w
  else (s, w).

(** [ApiV1Pairing.loop]. *)
Definition loop (env : Env) (s : State) (w : World) : State * World :=
  if negb (pairing_enabled s) then (s, w)
  else
    let '(s, w) :=
      if MAX_TOTAL_TRANSMIT_ATTEMPTS <=? total_attempts s then
        let '(s, w) := disable s w in
        (s, logger MaximumTotalAttemptsReached w)
      else (s, w) in
    if negb (broadcasting_search_finished s) then
      if attempts s <? MAX_SEARCHING_ATTEMPTS then
        match waiting_for_packet s with
        | None => broadcast_search_devices_handler env s w
        | Some _ =>
            if PrimFloat.eqb (last_request_send_timestamp s) 0
            then broadcast_search_devices_handler env s w
            else
              let '(now, w) := time_time env w in
              if PrimFloat.leb SEARCHING_DELAY
                   (PrimFloat.sub now (last_request_send_timestamp s))
              then broadcast_search_devices_handler env s w
              else (s, w)
        end
      else
        let s := set_broadcasting_search_finished true s in
        discover_device env s w
    else
      match pairing_device s with
      | None => (s, w)
      | Some device =>
          let '(given_up, w) :=
            if MAX_TRANSMIT_ATTEMPTS <=? attempts s then (true, w)
            else
              let '(now, w) := time_time env w in
              (PrimFloat.leb MAX_PAIRING_DELAY
                 (PrimFloat.sub now (last_request_send_timestamp s)), w) in
          if given_up then
            let w := logger PairingCouldNotBeFinished w in
            discover_device env s w
          else
            match waiting_for_packet s with
            | Some _ => (s, w)
            | None =>
                let s := move_to_next_cmd s in
                send_pairing_cmd env device s w
            end
      end.

(** *** Runs *)

(** The calls the connector and the receiver make on the pairing handler. *)
Inductive Event : Type :=
| Loop
| Enable (arg : option (Z + list Z))
| Disable
| AppendDevice (record : PairingDeviceRecord)
| AppendInputRegister (id address : Z) (data_type : DeviceDataType) (key : option str)
| AppendOutputRegister (id address : Z) (data_type : DeviceDataType) (key : option str)
| AppendAttribute (id address : Z) (key name : option str)
    (data_type : DeviceDataType) (settable queryable : bool)
| AppendSetting (id address : Z) (name : option str) (data_type : DeviceDataType)
| AppendPairingCmd (command : PairingCommand)
| MoveToNextRegisterForInit
| DiscoverDevice.

Definition step (env : Env) (sw : State * World) (e : Event) : State * World :=
  let '(s, w) := sw in
  match e with
  | Loop => loop env s w
  | Enable arg => enable arg s w
  | Disable => disable s w
  | AppendDevice record => (snd (append_device record s), w)
  | AppendInputRegister id address data_type key =>
      (append_input_register id address data_type key s, w)
  | AppendOutputRegister id address data_type key =>
      (append_output_register id address data_type key s, w)
  | AppendAttribute id address key name data_type settable queryable =>
      (append_attribute id address key name data_type settable queryable s, w)
  | AppendSetting id address name data_type =>
      (append_setting id address name data_type s, w)
  | AppendPairingCmd command => (append_pairing_cmd command s, w)
  | MoveToNextRegisterForInit => (snd (move_to_next_register_for_init s), w)
  | DiscoverDevice => discover_device env s w
  end.

Definition run (env : Env) (sw : State * World) (events : list Event)
    : State * World :=
  fold_left (step env) events sw.

(** The attributes of the class before any method has run. *)
Definition initial_state : State :=
  mkState [] None [] 0 None 0 0 false WRITE_ADDRESS None None false [] None.

Definition fresh_world : World := mkWorld 0 0 0 [] [] [].

(** *** Notions used in the statements *)

(** The three passes of [move_to_next_register_for_init]: inputs and
    outputs together, then attributes, then settings. *)
Definition register_group (t : RegisterType) : nat :=
  match t with
  | INPUT | OUTPUT => 0
  | ATTRIBUTE => 1
  | SETTING => 2
  end.

(** The debug message each sending handler writes before it calls the
    client: one per request prepared. *)
Definition is_request (m : LogMessage) : bool :=
  match m with
  | PreparingToBroadcastSearch
  | PreparingToBroadcastWriteAddress
  | PreparingToSendPairingCommand => true
  | _ => false
  end.

Definition is_search (m : LogMessage) : bool :=
  match m with
  | PreparingToBroadcastSearch => true
  | _ => false
  end.

(** The requests, and the DISCOVER(SEARCH) broadcasts, prepared so far. *)
Definition requests (w : World) : Z := Z.of_nat (length (List.filter is_request (log w))).
Definition searches (w : World) : Z := Z.of_nat (length (List.filter is_search (log w))).

Definition forget_registers (s : State) : State :=
  set_pairing_device_registers [] s.

(** The object after [disable()]. *)
Definition disabled_state (s : State) : State :=
  reset_pointers (set_pairing_enabled false s).

(** The object after [discover_device()] has popped [d], before the
    registers of [d] are set up. *)
Definition discovered (s : State) (d : PairingDeviceRecord)
    (rest : list PairingDeviceRecord) : State :=
  set_pairing_device (Some d) (set_found_devices rest (reset_device_pointers s)).


(** What a sending handler assigns: the packet waited for, the two
    counters, the time of the request. *)
Definition touch (waiting : option Z) (att total : Z) (sent_at : float) (s : State)
    : State :=
  set_last_request_send_timestamp sent_at
    (set_total_attempts total
       (set_attempts att
          (set_waiting_for_packet waiting s))).

(** The test [self.__last_request_send_timestamp == 0]. *)
Definition nothing_sent (s : State) : bool :=
  PrimFloat.eqb (last_request_send_timestamp s) 0.

(** The test [time.time() - self.__last_request_send_timestamp >= delay]
    of a tick that reads the clock in world [w]: the difference is the
    double Python computes. *)
Definition delay_reached (env : Env) (delay : float) (s : State) (w : World)
    : bool :=
  PrimFloat.leb delay
    (PrimFloat.sub (time_at env (clock_reads w)) (last_request_send_timestamp s)).

(** The clients a request goes to: the proxy is called once per id of the
    client list, and once when there is no list. *)
Definition clients (s : State) : Z :=
  match client_id s with
  | Some ids => Z.of_nat (length ids)
  | None => 1
  end.

(** The frames handed to the client proxy so far, one per call of its
    [broadcast_packet] or [send_packet]; those handed to
    [broadcast_packet]. *)
Definition frames (w : World) : Z := Z.of_nat (length (client_calls w)).

Definition is_broadcast (c : ClientCall) : bool :=
  match call_address c with
  | None => true
  | Some _ => false
  end.

Definition broadcasts (w : World) : Z :=
  Z.of_nat (length (List.filter is_broadcast (client_calls w))).

(** One tick of the state machine: what a call of [loop] in state [s] and
    world [w] can lead to, with the requests it prepares and the frames it
    hands to the client. *)
Inductive tick (env : Env) (s : State) (w : World) : State -> World -> Prop :=
| tick_disabled :
    pairing_enabled s = false ->
    tick env s w s w
| tick_capped (k : nat) (w' : World) :
    pairing_enabled s = true ->
    MAX_TOTAL_TRANSMIT_ATTEMPTS <= total_attempts s ->
    requests w' = requests w + 1 ->
    searches w' = searches w + 1 ->
    frames w' = frames w + clients s ->
    broadcasts w' = broadcasts w + clients s ->
    tick env s w (touch (Some Packet_DISCOVER) 1 1 (time_at env k) (disabled_state s)) w'
| tick_search (k : nat) (w' : World) :
    pairing_enabled s = true ->
    total_attempts s < MAX_TOTAL_TRANSMIT_ATTEMPTS ->
    broadcasting_search_finished s = false ->
    attempts s < MAX_SEARCHING_ATTEMPTS ->
    (waiting_for_packet s = None
     \/ nothing_sent s = true
     \/ delay_reached env SEARCHING_DELAY s w = true) ->
    requests w' = requests w + 1 ->
    searches w' = searches w + 1 ->
    frames w' = frames w + clients s ->
    broadcasts w' = broadcasts w + clients s ->
    tick env s w
      (touch (Some Packet_DISCOVER) (attempts s + 1) (total_attempts s + 1)
         (time_at env k) s) w'
| tick_search_wait (w' : World) :
    pairing_enabled s = true ->
    total_attempts s < MAX_TOTAL_TRANSMIT_ATTEMPTS ->
    broadcasting_search_finished s = false ->
    attempts s < MAX_SEARCHING_ATTEMPTS ->
    waiting_for_packet s <> None ->
    nothing_sent s = false ->
    delay_reached env SEARCHING_DELAY s w = false ->
    requests w' = requests w ->
    searches w' = searches w ->
    client_calls w' = client_calls w ->
    tick env s w s w'
| tick_search_end :
    pairing_enabled s = true ->
    total_attempts s < MAX_TOTAL_TRANSMIT_ATTEMPTS ->
    broadcasting_search_finished s = false ->
    MAX_SEARCHING_ATTEMPTS <= attempts s ->
    tick env s w
      (fst (discover_device env (set_broadcasting_search_finished true s) w))
      (snd (discover_device env (set_broadcasting_search_finished true s) w))
| tick_no_device :
    pairing_enabled s = true ->
    total_attempts s < MAX_TOTAL_TRANSMIT_ATTEMPTS ->
    broadcasting_search_finished s = true ->
    pairing_device s = None ->
    tick env s w s w
| tick_give_up (d : PairingDeviceRecord) (w1 : World) :
    pairing_enabled s = true ->
    total_attempts s < MAX_TOTAL_TRANSMIT_ATTEMPTS ->
    broadcasting_search_finished s = true ->
    pairing_device s = Some d ->
    (MAX_TRANSMIT_ATTEMPTS <= attempts s
     \/ delay_reached env MAX_PAIRING_DELAY s w = true) ->
    requests w1 = requests w ->
    searches w1 = searches w ->
    client_calls w1 = client_calls w ->
    tick env s w (fst (discover_device env s w1)) (snd (discover_device env s w1))
| tick_waiting (d : PairingDeviceRecord) (w' : World) :
    pairing_enabled s = true ->
    total_attempts s < MAX_TOTAL_TRANSMIT_ATTEMPTS ->
    broadcasting_search_finished s = true ->
    pairing_device s = Some d ->
    attempts s < MAX_TRANSMIT_ATTEMPTS ->
    delay_reached env MAX_PAIRING_DELAY s w = false ->
    waiting_for_packet s <> None ->
    requests w' = requests w ->
    searches w' = searches w ->
    client_calls w' = client_calls w ->
    tick env s w s w'
| tick_request (d : PairingDeviceRecord) (w' : World)
    (waiting : option Z) (att total : Z) (sent_at : float) :
    pairing_enabled s = true ->
    total_attempts s < MAX_TOTAL_TRANSMIT_ATTEMPTS ->
    broadcasting_search_finished s = true ->
    pairing_device s = Some d ->
    attempts s < MAX_TRANSMIT_ATTEMPTS ->
    delay_reached env MAX_PAIRING_DELAY s w = false ->
    waiting_for_packet s = None ->
    (* the request went out and the client took it *)
    (waiting = Some Packet_DISCOVER
     /\ att = attempts (move_to_next_cmd s) + 1
     /\ total = total_attempts s + 1
     /\ requests w' = requests w + 1
     (* the client refused it, or there was no register to ask for *)
     \/ pairing_cmd (move_to_next_cmd s) <> WRITE_ADDRESS
        /\ waiting = None /\ att = 0
        /\ (total = total_attempts s + 1 /\ requests w' = requests w + 1
            \/ total = total_attempts s /\ requests w' = requests w)
     (* no handler for the command *)
     \/ pairing_cmd (move_to_next_cmd s) = SEARCH
        /\ waiting = None /\ att = attempts (move_to_next_cmd s)
        /\ total = total_attempts s /\ requests w' = requests w) ->
    searches w' = searches w ->
    frames w' = frames w + clients s * (requests w' - requests w) ->
    tick env s w (touch waiting att total sent_at (move_to_next_cmd s)) w'.


(** Along the run of [events] from [sw] no call lowers the total-attempts
    counter. *)
Fixpoint never_reset (env : Env) (sw : State * World) (events : list Event)
    : bool :=
  match events with
  | [] => true
  | e :: events =>
      (total_attempts (fst sw) <=? total_attempts (fst (step env sw e)))
      && never_reset env (step env sw e) events
  end.

(** A step of the world that prepares no request. *)
Definition silent (w w' : World) : Prop :=
  requests w' = requests w /\ searches w' = searches w.

(** What setting up registers leaves alone: every attribute of the object
    but the register set, and the requests prepared. *)
Definition registers_only (s : State) (w : World) (sw : State * World) : Prop :=
  forget_registers (fst sw) = forget_registers s /\ silent w (snd sw).

(** A client that only ever appends to the list it is given. *)
Definition appending_client (env : Env) : Prop :=
  forall n c, exists suffix, snd (client_at env n c) = call_payload c ++ suffix.

(** *** Surroundings for examples *)

(** The clock shows one second at its first reading and advances by one
    second at every reading; ids are drawn from 1000 on; the client accepts every packet and leaves the payload list as
    it got it; the registries are empty and address 1 is free. *)
Definition example_env : Env := {|
  time_at := fun n => seconds (S n);
  uuid4_at := fun n => 1000 + Z.of_nat n;
  client_at := fun _ c => (true, call_payload c);
  devices_get_by_id := fun _ _ => None;
  devices_find_free_address := fun _ _ => Some 1;
  registers_get_by_address := fun _ _ _ _ => None
|}.


(** The same surroundings with a clock that reads 5.1 (the double nearest
    to it) at every reading. *)
Definition late_env : Env := {|
  time_at := fun _ => 0x1.4666666666666p+2%float;
  uuid4_at := uuid4_at example_env;
  client_at := client_at example_env;
  devices_get_by_id := devices_get_by_id example_env;
  devices_find_free_address := devices_find_free_address example_env;
  registers_get_by_address := registers_get_by_address example_env
|}.

(** The same surroundings with a PJON client behind the proxy: a call
    hands the payload list to [PjonClient.send_packet] on a silent link. *)
Definition pjon_client_env : Env := {|
  time_at := time_at example_env;
  uuid4_at := uuid4_at example_env;
  client_at := fun _ c =>
    let '(r, payload, _) :=
      Pjon.send_packet spec_enums Pjon.quiet_env 0
        (match call_address c with Some a => a | None => PJON_BROADCAST end)
        (call_payload c) (call_waiting_time c) Pjon.fresh_world in
    (match r with Returned b => b | _ => false end, payload);
  devices_get_by_id := devices_get_by_id example_env;
  devices_find_free_address := devices_find_free_address example_env;
  registers_get_by_address := registers_get_by_address example_env
|}.

(** A device with serial number "AB" and [inputs] input registers. *)
Definition example_device (id inputs : Z) : PairingDeviceRecord :=
  mkDevice 1 id 255 80 [65; 66] [] [] [] [] [] inputs 0 0 0 false false 0 0 0.

(** A search phase in which one device answers the first broadcast: pairing
    is enabled, five broadcasts go out, and the tick after the fifth one
    takes the device up for enrollment. *)
Definition example_search (inputs : Z) : list Event :=
  [Enable None; Loop; AppendDevice (example_device 7 inputs)]
  ++ repeat Loop 9.

(** The device answers WRITE_ADDRESS, then the request for register [i]
    (whose id is [1000 + i]) for every [i] below [answered]. *)
Definition example_enrollment (answered : nat) : list Event :=
  [Loop; AppendPairingCmd WRITE_ADDRESS]
  ++ flat_map
       (fun i =>
          [Loop;
           AppendInputRegister (1000 + Z.of_nat i) (Z.of_nat i) U8 None;
           MoveToNextRegisterForInit])
       (seq 0 answered).

(** *** Notions used in the further properties *)

(** What identifies a found device for [append_device]: the client it
    answered on and its serial number. *)
Definition device_key (d : PairingDeviceRecord) : Z * str :=
  (device_client_id d, device_serial_number d).

Definition is_enable (e : Event) : bool :=
  match e with
  | Enable _ => true
  | _ => false
  end.

(** A payload that opens with the protocol version and the DISCOVER packet
    kind. *)
Definition discover_headed (payload : list Z) : Prop :=
  exists rest, payload = ProtocolVersion_V1 :: Packet_DISCOVER :: rest.

(** From world [w] to world [w'] the client was only called with calls
    that satisfy [P]. *)
Definition calls_since (P : ClientCall -> Prop) (w w' : World) : Prop :=
  exists new, client_calls w' = client_calls w ++ new /\ List.Forall P new.

(** At most one found device per client and serial number, at most one
    register per id. *)
Definition unique_records (s : State) : Prop :=
  List.NoDup (map device_key (found_devices s)) /\
  List.NoDup (map register_id (pairing_device_registers s)).

End Pairing.

(** ** The connector *)

Module Connector.

Import Pairing.

(** Modelled from the spec: [DevicesRegistry] of [registry/model.py] is not
    part of the sources at hand.  Of a device only the connection state
    matters here, so the registry is the map from device ids to states;
    iterating over it gives its devices, and [set_state(device, state)]
    stores the state under the device's id. *)
Definition set_state (device : Z) (state : ConnectionState)
    (registry : gmap Z ConnectionState) : gmap Z ConnectionState :=
  alter (fun _ => state) device registry.

Definition devices (registry : gmap Z ConnectionState) : list Z :=
  (map_to_list registry).*1.

(** What a component's [loop()] can reach: the devices registry, which the
    connector and its components hold as one object (the pairing handler
    calls [set_state] on it), and the state [C] the components have
    besides. *)
Definition Shared (C : Type) : Type := (gmap Z ConnectionState * C)%type.

(** The components the connector drives: the effect of each [loop()] and
    the answers to the three questions the connector asks.  [client_loop]
    also gives the number the client returns. *)
Record Components (C : Type) : Type := {
  receiver_loop : Shared C -> Shared C;
  consumer_loop : Shared C -> Shared C;
  pairing_loop : Shared C -> Shared C;
  publisher_loop : Shared C -> Shared C;
  client_loop : Shared C -> Z * Shared C;
  receiver_is_empty : C -> bool;
  consumer_is_empty : C -> bool;
  pairing_is_enabled : C -> bool
}.
Arguments receiver_loop {C}.
Arguments consumer_loop {C}.
Arguments pairing_loop {C}.
Arguments publisher_loop {C}.
Arguments client_loop {C}.
Arguments receiver_is_empty {C}.
Arguments consumer_is_empty {C}.
Arguments pairing_is_enabled {C}.

(** The component loops the connector has called, in order. *)
Inductive Call : Type :=
| ReceiverLoop
| ConsumerLoop
| PairingLoop
| PublisherLoop
| ClientLoop.

Inductive ConnectorLog : Type :=
| ConnectorStarted
| ConnectorStopped
| ConnectorIsStopped.

(** An [FbBusConnector] object with what it holds on to. *)
Record Connector (C : Type) : Type := mkConnector {
  stopped : bool;
  packets_to_be_sent : Z;
  devices_registry : gmap Z ConnectionState;
  components : C;
  calls : list Call;
  connector_log : list ConnectorLog
}.
Arguments mkConnector {C}.
Arguments stopped {C}.
Arguments packets_to_be_sent {C}.
Arguments devices_registry {C}.
Arguments components {C}.
Arguments calls {C}.
Arguments connector_log {C}.

Section Methods.
Context {C : Type} (parts : Components C).

(** The loop [for device in registry: registry.set_state(device, UNKNOWN)]
    of [start] and [stop]. *)
Definition reset_states (registry : gmap Z ConnectionState)
    : gmap Z ConnectionState :=
  fold_left (fun r device => set_state device STATE_UNKNOWN r)
    (devices registry) registry.

Definition start (c : Connector C) : Connector C :=
  mkConnector false (packets_to_be_sent c)
    (reset_states (devices_registry c)) (components c) (calls c)
    (connector_log c ++ [ConnectorStarted]).

Definition stop (c : Connector C) : Connector C :=
  mkConnector true (packets_to_be_sent c)
    (reset_states (devices_registry c)) (components c) (calls c)
    (connector_log c ++ [ConnectorStopped]).

Definition has_unfinished_tasks (c : Connector C) : bool :=
  negb (receiver_is_empty parts (components c))
  || negb (consumer_is_empty parts (components c)).

(** One component loop: its effect on the registry and on the components,
    and the call recorded. *)
Definition call (what : Call) (f : Shared C -> Shared C) (c : Connector C)
    : Connector C :=
  let '(registry, parts') := f (devices_registry c, components c) in
  mkConnector (stopped c) (packets_to_be_sent c) registry parts'
    (calls c ++ [what]) (connector_log c).

Definition loop (c : Connector C) : Connector C :=
  if stopped c && negb (has_unfinished_tasks c) then
    mkConnector (stopped c) (packets_to_be_sent c) (devices_registry c)
      (components c) (calls c) (connector_log c ++ [ConnectorIsStopped])
  else
    let c := call ReceiverLoop (receiver_loop parts) c in
    let c := call ConsumerLoop (consumer_loop parts) c in
    if stopped c then c
    else
      let c :=
        if pairing_is_enabled parts (components c)
        then call PairingLoop (pairing_loop parts) c
        else if packets_to_be_sent c =? 0
             then call PublisherLoop (publisher_loop parts) c
             else c in
      let '(pending, (registry, after)) :=
        client_loop parts (devices_registry c, components c) in
      mkConnector (stopped c) pending registry after
        (calls c ++ [ClientLoop]) (connector_log c).

End Methods.

(** Components for examples: their state is the number of queued inbound
    items; the receiver's loop takes one off, and no loop touches the
    registry. *)
Definition draining_parts : Components nat := {|
  receiver_loop := fun '(registry, n) => (registry, Nat.pred n);
  consumer_loop := fun shared => shared;
  pairing_loop := fun shared => shared;
  publisher_loop := fun shared => shared;
  client_loop := fun shared => (0, shared);
  receiver_is_empty := fun n => (n =? 0)%nat;
  consumer_is_empty := fun _ => true;
  pairing_is_enabled := fun _ => false
|}.

Definition example_connector : Connector nat :=
  mkConnector false 0 (<[1 := STATE_READY]> (<[2 := STATE_LOST]> ∅)) 2%nat [] [].

End Connector.

(** ** The logger *)

Module Logger.

(** The four methods of [logger.py] that add the connector's entry. *)
Inductive Level : Type := DEBUG | INFO | WARNING | ERROR.

Section Logger.

(** The values of positional arguments, of keyword arguments and of the
    entries of an [extra] dictionary; what a call of the wrapped logger
    ends in. *)
Context {V R : Type}.

(** A keyword argument: a dictionary, or any other value. *)
Inductive KwValue : Type :=
| KwDict (d : gmap string V)
| KwOther (v : V).

(** A call of the wrapped [logging.Logger]. *)
Record Emitted : Type := {
  emitted_level : Level;
  emitted_msg : string;
  emitted_args : list V;
  emitted_extra : gmap string V;
  emitted_kwargs : gmap string KwValue
}.

(** The dictionary [{"type": CONNECTOR_NAME, "id": str(connector_id)}]. *)
Variable connector_entry : V.

(** The wrapped logger, the one given to [__init__] or [set_logger]: what
    its method of the level makes of a call, be it a return or an exception
    of its own.  (Python's [logging.Logger] raises [TypeError] for a keyword
    argument it does not know and [KeyError] for an [extra] key that is an
    attribute of its log record.) *)
Variable wrapped : Emitted -> R.

Definition get_connector_extra : gmap string V :=
  {[ "connector" := connector_entry ]}.

(** [{**a, **b}]: the entries of [b], and those of [a] under other keys. *)
Definition py_merge (a b : gmap string V) : gmap string V := b ∪ a.

(** How a call of the wrapper ends: in the [TypeError] of [{**extra, **x}]
    for an [x] that is not a mapping, before the wrapped logger is called;
    or in what the wrapped logger makes of the call it is handed. *)
Inductive Ended : Type :=
| MergeTypeError
| Handed (call : Emitted) (result : R).

(** The body [debug], [info], [warning] and [error] share. *)
Definition log_at (level : Level) (msg : string) (args : list V)
    (kwargs : gmap string KwValue) : Ended :=
  let extra := get_connector_extra in
  match kwargs !! "extra" with
  | Some (KwDict given) =>
      let extra := py_merge extra given in
      let kwargs := delete "extra" kwargs in
      let call := {| emitted_level := level; emitted_msg := msg;
                     emitted_args := args; emitted_extra := extra;
                     emitted_kwargs := kwargs |} in
      Handed call (wrapped call)
  | Some (KwOther _) => MergeTypeError
  | None =>
      let call := {| emitted_level := level; emitted_msg := msg;
                     emitted_args := args; emitted_extra := extra;
                     emitted_kwargs := kwargs |} in
      Handed call (wrapped call)
  end.

Definition debug := log_at DEBUG.
Definition info := log_at INFO.
Definition warning := log_at WARNING.
Definition error := log_at ERROR.

End Logger.

End Logger.

(** * Properties of the frame codec *)

Module PjonFacts.
Import Pjon.

(** ** Bit-level facts *)

Lemma land_1_odd (a : Z) : Z.land a 1 = Z.b2z (Z.odd a).
Proof.
  change 1 with (Z.ones 1). rewrite Z.land_ones by lia.
  rewrite <- Z.bit0_odd. symmetry. apply Z.bit0_mod.
Qed.

Lemma shiftr_1_div (a : Z) : Z.shiftr a 1 = a / 2.
Proof. rewrite Z.shiftr_div_pow2 by lia. reflexivity. Qed.

Lemma crc16_bit_feed (crc cur_byte : Z) :
  crc16_bit 0x8408 (crc, cur_byte)
  = (crc_feed_bit crc (Z.odd cur_byte), Z.shiftr cur_byte 1).
Proof.
  unfold crc16_bit, crc_feed_bit.
  rewrite !land_1_odd, shiftr_1_div.
  destruct (Z.odd crc), (Z.odd cur_byte); reflexivity.
Qed.

Lemma crc16_iter_bits (n : nat) (crc cur_byte : Z) :
  Nat.iter n (crc16_bit 0x8408) (crc, cur_byte)
  = (fold_left crc_feed_bit
       (map (Z.testbit cur_byte) (map Z.of_nat (seq 0 n))) crc,
     Z.shiftr cur_byte (Z.of_nat n)).
Proof.
  induction n as [|n IH].
  - reflexivity.
  - rewrite seq_S, !map_app, fold_left_app.
    change (Nat.iter (S n) (crc16_bit 0x8408) (crc, cur_byte))
      with (crc16_bit 0x8408 (Nat.iter n (crc16_bit 0x8408) (crc, cur_byte))).
    rewrite IH, crc16_bit_feed. cbn [map fold_left Nat.add].
    rewrite Z.shiftr_shiftr by lia.
    rewrite <- Z.testbit_odd.
    f_equal. f_equal. lia.
Qed.

Lemma low_bits_of_masked (byte : Z) :
  bits_lsb_first (Z.land 0xFF byte) = bits_lsb_first byte.
Proof.
  unfold bits_lsb_first. cbn [map].
  rewrite !Z.land_spec. reflexivity.
Qed.

Lemma crc16_byte_bits (crc byte : Z) :
  crc16_byte 0x8408 crc byte = fold_left crc_feed_bit (bits_lsb_first byte) crc.
Proof.
  unfold crc16_byte. rewrite crc16_iter_bits. cbn [fst].
  rewrite <- (low_bits_of_masked byte). reflexivity.
Qed.

Lemma crc16_bytes_bits (data : list Z) (crc : Z) :
  fold_left (crc16_byte 0x8408) data crc
  = fold_left crc_feed_bit (flat_map bits_lsb_first data) crc.
Proof.
  revert crc. induction data as [|b data IH]; intros crc.
  - reflexivity.
  - cbn [fold_left flat_map]. rewrite fold_left_app, IH, crc16_byte_bits.
    reflexivity.
Qed.

(** ** The register stays within sixteen bits *)

Lemma lxor_word16 (a b : Z) : word16 a -> word16 b -> word16 (Z.lxor a b).
Proof.
  unfold word16. intros Ha Hb.
  assert (Hnn : 0 <= Z.lxor a b) by (apply Z.lxor_nonneg; lia).
  split; [exact Hnn|].
  destruct (Z.eq_dec (Z.lxor a b) 0) as [->|Hnz]; [lia|].
  change 65536 with (2 ^ 16).
  apply Z.log2_lt_pow2; [lia|].
  pose proof (Z.log2_lxor a b ltac:(lia) ltac:(lia)) as Hlog.
  assert (Z.log2 a < 16).
  { destruct (Z.eq_dec a 0) as [->|]; [reflexivity|].
    apply Z.log2_lt_pow2; lia. }
  assert (Z.log2 b < 16).
  { destruct (Z.eq_dec b 0) as [->|]; [reflexivity|].
    apply Z.log2_lt_pow2; lia. }
  lia.
Qed.

Lemma crc_feed_bit_word16 (reg : Z) (b : bool) :
  word16 reg -> word16 (crc_feed_bit reg b).
Proof.
  intros H. unfold crc_feed_bit.
  assert (Hhalf : word16 (reg / 2)).
  { unfold word16 in *. split.
    - apply Z.div_pos; lia.
    - apply Z.div_lt_upper_bound; lia. }
  destruct (xorb (Z.odd reg) b); [|exact Hhalf].
  apply lxor_word16; [exact Hhalf|]. unfold word16. lia.
Qed.

Lemma crc_feed_bits_word16 (bits : list bool) (reg : Z) :
  word16 reg -> word16 (fold_left crc_feed_bit bits reg).
Proof.
  revert reg. induction bits as [|b bits IH]; intros reg H.
  - exact H.
  - cbn [fold_left]. apply IH, crc_feed_bit_word16, H.
Qed.

(** ** Complement and byte swap, arithmetically *)

Lemma complement_word16 (c : Z) :
  word16 c -> Z.land (Z.lnot c) 0xFFFF = 0xFFFF - c.
Proof.
  unfold word16. intros H.
  change 0xFFFF with (Z.ones 16) at 1. rewrite Z.land_ones by lia.
  unfold Z.lnot. symmetry.
  apply (Z.mod_unique _ _ (-1)); lia.
Qed.

Lemma land_shiftl_low (a b : Z) :
  0 <= b < 256 -> Z.land (Z.shiftl a 8) b = 0.
Proof.
  intros Hb. apply Z.bits_inj'. intros n Hn.
  rewrite Z.land_spec, Z.bits_0.
  destruct (Z.lt_ge_cases n 8) as [Hlt|Hge].
  - rewrite Z.shiftl_spec_low by lia. reflexivity.
  - rewrite (Z.bits_above_log2 b n); [apply andb_false_r|lia|].
    destruct (Z.eq_dec b 0) as [->|]; [simpl; lia|].
    assert (Z.log2 b < 8) by (apply Z.log2_lt_pow2; lia). lia.
Qed.

Lemma swap_word16 (c : Z) :
  word16 c ->
  Z.land (Z.lor (Z.shiftl c 8) (Z.land (Z.shiftr c 8) 0xFF)) 0xFFFF
  = (c mod 256) * 256 + c / 256.
Proof.
  unfold word16. intros H.
  assert (Hq : 0 <= c / 256 < 256).
  { split; [apply Z.div_pos; lia | apply Z.div_lt_upper_bound; lia]. }
  pose proof (Z.mod_pos_bound c 256 ltac:(lia)) as Hr.
  pose proof (Z.div_mod c 256 ltac:(lia)) as Hdm.
  rewrite (Z.shiftr_div_pow2 c 8) by lia. change (2 ^ 8) with 256.
  change 0xFF with (Z.ones 8). rewrite (Z.land_ones (c / 256) 8) by lia.
  change (2 ^ 8) with 256. rewrite (Z.mod_small (c / 256) 256) by lia.
  rewrite <- Z.lxor_lor by (apply land_shiftl_low; lia).
  rewrite <- Z.add_nocarry_lxor by (apply land_shiftl_low; lia).
  rewrite Z.shiftl_mul_pow2 by lia. change (2 ^ 8) with 256.
  change 0xFFFF with (Z.ones 16). rewrite Z.land_ones by lia.
  change (2 ^ 16) with 65536.
  symmetry. apply (Z.mod_unique _ _ (c / 256)); lia.
Qed.

Lemma crc16_word16 (data : list Z) : word16 (crc16 data).
Proof.
  unfold crc16, crc16_poly, word16. cbv zeta.
  match goal with
  | |- 0 <= Z.land ?x _ < _ =>
      change (0 <= Z.land x (Z.ones 16) < 2 ^ 16); rewrite (Z.land_ones x 16) by lia
  end.
  apply Z.mod_pos_bound. lia.
Qed.

(** The two bytes [send_packet] appends are bytes, and [receive] puts
    them back together into the same CRC. *)
Lemma crc_split_join (c : Z) :
  word16 c ->
  is_byte (Z.shiftr c 8) = true /\ is_byte (Z.land c 0xFF) = true /\
  Z.lor (Z.shiftl (Z.shiftr c 8) 8) (Z.land c 0xFF) = c.
Proof.
  unfold word16, is_byte. intros H.
  rewrite (Z.shiftr_div_pow2 c 8) by lia. change (2 ^ 8) with 256.
  change 0xFF with (Z.ones 8). rewrite Z.land_ones by lia.
  change (2 ^ 8) with 256.
  assert (Hq : 0 <= c / 256 < 256).
  { split; [apply Z.div_pos; lia | apply Z.div_lt_upper_bound; lia]. }
  pose proof (Z.mod_pos_bound c 256 ltac:(lia)) as Hr.
  pose proof (Z.div_mod c 256 ltac:(lia)) as Hdm.
  repeat split.
  - apply andb_true_intro; split; [apply Z.leb_le | apply Z.ltb_lt]; lia.
  - apply andb_true_intro; split; [apply Z.leb_le | apply Z.ltb_lt]; lia.
  - rewrite <- Z.lxor_lor by (apply land_shiftl_low; lia).
    rewrite <- Z.add_nocarry_lxor by (apply land_shiftl_low; lia).
    rewrite Z.shiftl_mul_pow2 by lia. change (2 ^ 8) with 256. lia.
Qed.

(** ** Indexing and slicing a frame *)

Lemma py_index_nonneg (l : list Z) (i : Z) :
  0 <= i < Z.of_nat (length l) -> py_index l i = nth_error l (Z.to_nat i).
Proof.
  intros H. unfold py_index.
  replace (0 <=? i) with true by (symmetry; apply Z.leb_le; lia).
  replace (i <? Z.of_nat (length l)) with true by (symmetry; apply Z.ltb_lt; lia).
  reflexivity.
Qed.

Lemma py_index_neg (l : list Z) (i : Z) :
  - Z.of_nat (length l) <= i < 0 ->
  py_index l i = nth_error l (Z.to_nat (Z.of_nat (length l) + i)).
Proof.
  intros H. unfold py_index.
  replace (0 <=? i) with false by (symmetry; apply Z.leb_gt; lia).
  replace (- Z.of_nat (length l) <=? i) with true by (symmetry; apply Z.leb_le; lia).
  replace (i <? 0) with true by (symmetry; apply Z.ltb_lt; lia).
  reflexivity.
Qed.

Lemma py_index_last (l : list Z) :
  (1 <= length l)%nat ->
  py_index l (-1) = py_index l (Z.of_nat (length l) - 1).
Proof.
  intros H. rewrite py_index_neg by lia. rewrite py_index_nonneg by lia.
  f_equal.
Qed.

Lemma py_index_defined (l : list Z) (i : Z) :
  - Z.of_nat (length l) <= i < Z.of_nat (length l) ->
  exists v, py_index l i = Some v.
Proof.
  intros H.
  assert (Hnth : forall n, (n < length l)%nat -> exists v, nth_error l n = Some v).
  { intros n Hn. destruct (nth_error l n) eqn:E; [eauto|].
    apply nth_error_None in E. lia. }
  destruct (Z.lt_ge_cases i 0).
  - rewrite py_index_neg by lia. apply Hnth. lia.
  - rewrite py_index_nonneg by lia. apply Hnth. lia.
Qed.

Lemma py_index_app_l (l s : list Z) (i : Z) :
  0 <= i < Z.of_nat (length l) -> py_index (l ++ s) i = py_index l i.
Proof.
  intros H. rewrite !py_index_nonneg by (rewrite ?length_app; lia).
  apply nth_error_app1. lia.
Qed.

Lemma py_index_app_r (l s : list Z) (k : nat) :
  (k < length s)%nat ->
  py_index (l ++ s) (Z.of_nat (length l) + Z.of_nat k) = nth_error s k.
Proof.
  intros H. rewrite py_index_nonneg by (rewrite length_app; lia).
  rewrite nth_error_app2 by lia. f_equal. lia.
Qed.

Lemma py_slice_to_nonneg (l : list Z) (stop : Z) :
  0 <= stop <= Z.of_nat (length l) ->
  py_slice_to l stop = firstn (Z.to_nat stop) l.
Proof.
  intros H. unfold py_slice_to.
  replace (stop <? 0) with false by (symmetry; apply Z.ltb_ge; lia).
  rewrite Z.min_l by lia. reflexivity.
Qed.

Lemma py_slice_to_app (l s : list Z) :
  py_slice_to (l ++ s) (Z.of_nat (length l)) = l.
Proof.
  rewrite py_slice_to_nonneg by (rewrite length_app; lia).
  rewrite Nat2Z.id, firstn_app, Nat.sub_diag, firstn_all. cbn [firstn].
  apply app_nil_r.
Qed.

Lemma py_index_some_length (l : list Z) (i : Z) (v : Z) :
  0 <= i -> py_index l i = Some v -> i < Z.of_nat (length l).
Proof.
  intros Hi H. unfold py_index in H.
  destruct (Z.ltb_spec i (Z.of_nat (length l))) as [Hlt|Hge]; [exact Hlt|].
  rewrite andb_false_r in H.
  replace (i <? 0) with false in H by (symmetry; apply Z.ltb_ge; lia).
  rewrite andb_false_r in H. discriminate.
Qed.

(** ** The frame built by [send_packet] *)

Lemma py_bytes_Some (l : list Z) : forallb is_byte l = true -> py_bytes l = Some l.
Proof. intros H. unfold py_bytes. rewrite H. reflexivity. Qed.

Lemma encode_bytes (B : list Z) :
  forallb is_byte B = true -> forallb is_byte (encode B) = true.
Proof.
  intros H. unfold encode. rewrite forallb_app, H. cbn [forallb andb].
  destruct (crc_split_join (crc16 B) (crc16_word16 B)) as (-> & -> & _).
  reflexivity.
Qed.

Lemma ack_wait_link_sent (env : Env) (fuel : nat) (t0 wt : float) (w : World) :
  link_sent (snd (ack_wait env fuel t0 wt w)) = link_sent w.
Proof.
  revert w. induction fuel as [|fuel IH]; intros w; [reflexivity|].
  cbn [ack_wait]. unfold time_time, driver_loop.
  destruct (PrimFloat.leb _ _); [|reflexivity].
  destruct (loop_at env _) as [e|[recv st]]; [reflexivity|].
  destruct (st =? PJON_ACK); [reflexivity|].
  rewrite IH. reflexivity.
Qed.

(** What [send_packet] leaves in the caller's list and hands to the link,
    for a payload of byte values. *)
Lemma send_packet_frame (enums : Enums) (env : Env) (fuel : nat)
    (address : Z) (payload : list Z) (wt : float) (w : World) :
  forallb is_byte payload = true ->
  snd (fst (send_packet enums env fuel address payload wt w)) = encode payload /\
  link_sent (snd (send_packet enums env fuel address payload wt w))
  = link_sent w ++ [(address, encode payload)].
Proof.
  intros Hb. unfold send_packet.
  rewrite (py_bytes_Some _ Hb).
  assert (Henc : ((payload ++ [Z.shiftr (crc16 payload) 8])
                    ++ [Z.land (crc16 payload) 0xFF]) ++ [TERMINATOR]
                 = encode payload).
  { unfold encode. rewrite <- !app_assoc. reflexivity. }
  cbv zeta. rewrite Henc.
  rewrite (py_bytes_Some _ (encode_bytes _ Hb)).
  unfold driver_send.
  destruct (py_index (encode payload) 1) as [kind|]; [|split; reflexivity].
  destruct (Packet_has_value enums kind); [|split; reflexivity].
  destruct (PrimFloat.ltb 0 wt); [|split; reflexivity].
  unfold time_time.
  match goal with
  | |- context [ack_wait ?e ?f ?t ?x ?y] =>
      pose proof (ack_wait_link_sent e f t x y) as Hl;
      destruct (ack_wait e f t x y) as [r w']
  end.
  cbn [fst snd] in *. split; [reflexivity|]. rewrite Hl. reflexivity.
Qed.

(** C6: [__crc16] computes the reference CRC-16 of the specification
    (seed [0xFFFF], bits fed least significant first through the reflected
    polynomial [0x8408], complement, byte swap) on every byte sequence, and
    the CRC that [send_packet] appends is the one of the payload bytes
    alone: the frame handed to the link is the payload followed by the two
    bytes of that CRC and the terminator. *)
Theorem crc16_is_reference_crc (enums : Enums) (env : Env) (fuel : nat)
    (address : Z) (payload : list Z) (wt : float) (w : World) :
  forallb is_byte payload = true ->
  crc16 payload = crc16_reference payload /\
  link_sent (snd (send_packet enums env fuel address payload wt w))
  = link_sent w
      ++ [(address,
           payload ++ [Z.shiftr (crc16_reference payload) 8;
                       Z.land (crc16_reference payload) 0xFF;
                       TERMINATOR])].
Proof.
  intros Hb.
  assert (Href : crc16 payload = crc16_reference payload).
  { unfold crc16, crc16_poly, crc16_reference. cbv zeta.
    rewrite crc16_bytes_bits.
    set (reg := fold_left crc_feed_bit (flat_map bits_lsb_first payload) 65535).
    assert (Hreg : word16 reg)
      by (apply crc_feed_bits_word16; unfold word16; lia).
    rewrite (complement_word16 reg Hreg).
    apply swap_word16. unfold word16 in *. lia. }
  split; [exact Href|].
  rewrite <- Href.
  apply (send_packet_frame enums env fuel address payload wt w Hb).
Qed.

Lemma crc16_is_reference_crc_witness :
  forallb is_byte [0x01; 0x04; 0x01] = true /\
  crc16 [0x01; 0x04; 0x01] = crc16_reference [0x01; 0x04; 0x01].
Proof.
  split; [reflexivity|].
  apply (crc16_is_reference_crc spec_enums quiet_env 0 0 [0x01; 0x04; 0x01] 0
           fresh_world).
  reflexivity.
Defined.

(** ** Validation of inbound frames *)

Lemma version_ok_inv (enums : Enums) (raw : list Z) :
  version_ok enums raw = true ->
  exists v, py_index raw 0 = Some v /\ ProtocolVersion_has_value enums v = true.
Proof.
  unfold version_ok. destruct (py_index raw 0) as [v|]; [eauto|discriminate].
Qed.

Lemma kind_ok_inv (enums : Enums) (raw : list Z) :
  kind_ok enums raw = true ->
  exists k, py_index raw 1 = Some k /\ Packet_has_value enums k = true.
Proof.
  unfold kind_ok. destruct (py_index raw 1) as [k|]; [eauto|discriminate].
Qed.

(** [receive] on a frame of at least two bytes that comes with a sender
    id: the four checks in their order, then the hand-over. *)
Lemma receive_by_checks (enums : Enums) (raw : list Z) (sender : Z) :
  (2 <= length raw)%nat ->
  receive enums raw (Z.of_nat (length raw)) {| sender_id := Some sender |}
  = if negb (version_ok enums raw) then Returned (Dropped UnknownProtocolVersion)
    else if negb (kind_ok enums raw) then Returned (Dropped UnknownPacket)
    else if negb (crc_ok raw) then Returned (Dropped InvalidCrc)
    else if negb (terminator_ok raw) then Returned (Dropped MissingTerminator)
    else
      let payload := py_slice_to raw (Z.of_nat (length raw) - 3) in
      match py_index payload 1 with
      | None => Raised IndexError
      | Some packet_id =>
          if Packet_has_value enums packet_id
          then Returned (Forwarded payload (Z.of_nat (length payload)) (Some sender))
          else Raised ValueError
      end.
Proof.
  intros Hlen. unfold receive, version_ok, kind_ok, crc_ok, terminator_ok.
  cbn [sender_id].
  destruct (py_index_defined raw 0 ltac:(lia)) as [v ->].
  destruct (ProtocolVersion_has_value enums v); cbn [negb]; [|reflexivity].
  destruct (py_index_defined raw 1 ltac:(lia)) as [k ->].
  destruct (Packet_has_value enums k); cbn [negb]; [|reflexivity].
  destruct (py_index_defined raw (Z.of_nat (length raw) - 3) ltac:(lia)) as [hi ->].
  destruct (py_index_defined raw (Z.of_nat (length raw) - 2) ltac:(lia)) as [lo ->].
  destruct (crc16 _ =? _); cbn [negb]; [|reflexivity].
  rewrite (py_index_last raw) by lia.
  destruct (py_index_defined raw (Z.of_nat (length raw) - 1) ltac:(lia)) as [t ->].
  reflexivity.
Qed.

(** C1: for every payload [B] of byte values whose byte 0 is a recognised
    protocol version and whose byte 1 is a recognised packet kind, the
    frame that [send_packet] builds and hands to the link ([B], the CRC high
    byte, the CRC low byte, the terminator 0x24) passes the four checks of
    [receive], and [receive] forwards exactly [B] to the receiver. *)
Theorem frame_round_trip (enums : Enums) (env : Env) (fuel : nat)
    (address : Z) (B : list Z) (wt : float) (w : World) (sender : Z) :
  forallb is_byte B = true ->
  version_ok enums B = true ->
  kind_ok enums B = true ->
  let frame := snd (fst (send_packet enums env fuel address B wt w)) in
  frame = B ++ [Z.shiftr (crc16 B) 8; Z.land (crc16 B) 0xFF; 0x24] /\
  link_sent (snd (send_packet enums env fuel address B wt w))
  = link_sent w ++ [(address, frame)] /\
  version_ok enums frame = true /\ kind_ok enums frame = true /\
  crc_ok frame = true /\ terminator_ok frame = true /\
  receive enums frame (Z.of_nat (length frame)) {| sender_id := Some sender |}
  = Returned (Forwarded B (Z.of_nat (length B)) (Some sender)).
Proof.
  intros Hb Hv Hk frame.
  destruct (send_packet_frame enums env fuel address B wt w Hb) as [Hframe Hsent].
  fold frame in Hframe. subst frame. rewrite Hframe, Hsent. clear Hframe Hsent.
  destruct (version_ok_inv _ _ Hv) as (v & Hv0 & Hvok).
  destruct (kind_ok_inv _ _ Hk) as (k & Hk1 & Hkok).
  pose proof (py_index_some_length B 1 k ltac:(lia) Hk1) as HlenB.
  assert (Hlen : Z.of_nat (length (encode B)) = Z.of_nat (length B) + 3).
  { unfold encode. rewrite length_app. cbn [length]. lia. }
  assert (Hv' : version_ok enums (encode B) = true).
  { unfold version_ok, encode. rewrite py_index_app_l by lia. exact Hv. }
  assert (Hk' : kind_ok enums (encode B) = true).
  { unfold kind_ok, encode. rewrite py_index_app_l by lia. exact Hk. }
  assert (Hc' : crc_ok (encode B) = true).
  { unfold crc_ok. rewrite Hlen.
    replace (Z.of_nat (length B) + 3 - 3) with (Z.of_nat (length B) + Z.of_nat 0) by lia.
    replace (Z.of_nat (length B) + 3 - 2) with (Z.of_nat (length B) + Z.of_nat 1) by lia.
    unfold encode at 1 2. rewrite !py_index_app_r by (cbn; lia). cbn [nth_error].
    rewrite Z.add_0_r. unfold encode. rewrite py_slice_to_app.
    destruct (crc_split_join (crc16 B) (crc16_word16 B)) as (_ & _ & ->).
    apply Z.eqb_refl. }
  assert (Ht' : terminator_ok (encode B) = true).
  { unfold terminator_ok. rewrite Hlen.
    replace (Z.of_nat (length B) + 3 - 1) with (Z.of_nat (length B) + Z.of_nat 2) by lia.
    unfold encode. rewrite py_index_app_r by (cbn; lia). reflexivity. }
  split; [reflexivity|]. split; [reflexivity|].
  repeat (split; [assumption|]).
  rewrite receive_by_checks by lia.
  rewrite Hv', Hk', Hc', Ht'. cbn [negb]. cbv zeta.
  rewrite Hlen. replace (Z.of_nat (length B) + 3 - 3) with (Z.of_nat (length B)) by lia.
  unfold encode. rewrite py_slice_to_app, Hk1, Hkok. reflexivity.
Qed.

Lemma frame_round_trip_witness :
  let B := [0x01; 0x04; 0x01] in
  receive spec_enums
    (snd (fst (send_packet spec_enums quiet_env 0 0 B 0 fresh_world)))
    (Z.of_nat (length (snd (fst (send_packet spec_enums quiet_env 0 0 B 0 fresh_world)))))
    {| sender_id := Some 7 |}
  = Returned (Forwarded B 3 (Some 7)).
Proof.
  intros B.
  apply (frame_round_trip spec_enums quiet_env 0 0 B 0 fresh_world 7);
    reflexivity.
Defined.

(** For every inbound byte sequence of at least two bytes, delivered with
    its length and with a sender id in the header, a frame that fails one of the four checks (unrecognised
    protocol version, unrecognised packet kind, CRC different from
    [(payload[L-3] << 8) | payload[L-2]], last byte not the terminator) is
    dropped with a warning: [receive] returns without raising and without
    calling the receiver.  A frame of at least five bytes that passes the
    four checks is forwarded as [payload[0..L-3]], and nothing is forwarded
    that does not pass the four checks. *)
Theorem receive_drops_or_forwards (enums : Enums) (raw : list Z) (sender : Z) :
  (2 <= length raw)%nat ->
  let L := Z.of_nat (length raw) in
  let checks :=
    version_ok enums raw && kind_ok enums raw && crc_ok raw && terminator_ok raw in
  let r := receive enums raw L {| sender_id := Some sender |} in
  (checks = false -> exists why, r = Returned (Dropped why)) /\
  (checks = true -> (5 <= length raw)%nat ->
   r = Returned (Forwarded (firstn (length raw - 3) raw) (L - 3) (Some sender))) /\
  (forall p n a, r = Returned (Forwarded p n a) -> checks = true).
Proof.
  intros Hlen L checks r. subst r L.
  rewrite (receive_by_checks enums raw sender Hlen). subst checks.
  destruct (version_ok enums raw) eqn:Hv; cbn [negb andb].
  2:{ split; [eauto|]. split; discriminate. }
  destruct (kind_ok enums raw) eqn:Hk; cbn [negb andb].
  2:{ split; [eauto|]. split; discriminate. }
  destruct (crc_ok raw) eqn:Hc; cbn [negb andb].
  2:{ split; [eauto|]. split; discriminate. }
  destruct (terminator_ok raw) eqn:Ht; cbn [negb andb].
  2:{ split; [eauto|]. split; discriminate. }
  split; [discriminate|]. split; [|reflexivity].
  intros _ Hfive. cbv zeta.
  rewrite py_slice_to_nonneg by lia.
  replace (Z.to_nat (Z.of_nat (length raw) - 3)) with (length raw - 3)%nat by lia.
  destruct (kind_ok_inv _ _ Hk) as (k & Hk1 & Hkok).
  assert (Hidx : py_index (firstn (length raw - 3) raw) 1 = Some k).
  { rewrite py_index_nonneg by (rewrite length_firstn; lia).
    rewrite py_index_nonneg in Hk1 by lia.
    rewrite nth_error_firstn.
    replace (Z.to_nat 1 <? length raw - 3)%nat with true
      by (symmetry; apply Nat.ltb_lt; lia).
    exact Hk1. }
  rewrite Hidx, Hkok. rewrite length_firstn.
  do 3 f_equal. lia.
Qed.

Lemma receive_drops_or_forwards_witness :
  let raw := [0x01; 0x04; 0x01; 249; 234; 0x24] in
  (2 <= length raw)%nat /\
  receive spec_enums raw 6 {| sender_id := Some 7 |}
  = Returned (Forwarded [0x01; 0x04; 0x01] 3 (Some 7)).
Proof.
  intros raw. split; [cbn; lia|].
  apply (receive_drops_or_forwards spec_enums raw 7); [cbn; lia | reflexivity | cbn; lia].
Defined.

(** C3: [receive] does not return on every inbound byte sequence.  It
    tests [raw_payload[1]] without a look at the length: a frame that
    consists of a recognised version byte alone makes it raise [IndexError]
    there, while a one-byte frame with an unrecognised version byte is
    logged and dropped by the check before it. *)
Lemma receive_short_frame_raises :
  receive spec_enums [0x01] 1 {| sender_id := Some 7 |} = Raised IndexError /\
  receive spec_enums [0x07] 1 {| sender_id := Some 7 |}
  = Returned (Dropped UnknownProtocolVersion).
Proof. split; reflexivity. Qed.

(** ** The acknowledgement wait *)

Lemma ack_wait_true_iff (env : Env) (t0 wt : float) (fuel : nat) (w : World) :
  fst (ack_wait env fuel t0 wt w) = Returned true <->
  exists k, (k < fuel)%nat /\
    (forall j, (j <= k)%nat ->
       PrimFloat.leb (PrimFloat.sub (time_at env (clock_reads w + j)) t0) wt = true) /\
    (forall j, (j < k)%nat ->
       exists r s, loop_at env (loop_calls w + j) = inr (r, s) /\ s <> PJON_ACK) /\
    (exists r, loop_at env (loop_calls w + k) = inr (r, PJON_ACK)).
Proof.
  revert w. induction fuel as [|fuel IH]; intros w.
  - cbn. split; [discriminate|]. intros (k & Hk & _). lia.
  - cbn [ack_wait time_time driver_loop clock_reads loop_calls link_sent].
    destruct (PrimFloat.leb (PrimFloat.sub (time_at env (clock_reads w)) t0) wt)
      eqn:Hbudget.
    + destruct (loop_at env (loop_calls w)) as [e|[recv st]] eqn:Hloop.
      * cbn [fst]. split; [discriminate|].
        intros (k & _ & _ & Hbefore & (r & Hack)).
        destruct k as [|k].
        -- rewrite Nat.add_0_r in Hack. congruence.
        -- destruct (Hbefore 0%nat ltac:(lia)) as (r' & s' & Hl & _).
           rewrite Nat.add_0_r in Hl. congruence.
      * destruct (st =? PJON_ACK) eqn:Hst.
        -- apply Z.eqb_eq in Hst. subst st. cbn [fst]. split; [|reflexivity].
           intros _. exists 0%nat. split; [lia|]. split; [|split].
           ++ intros j Hj. replace j with 0%nat by lia.
              rewrite Nat.add_0_r. exact Hbudget.
           ++ intros j Hj. lia.
           ++ exists recv. rewrite Nat.add_0_r. exact Hloop.
        -- apply Z.eqb_neq in Hst. rewrite IH. cbn [clock_reads loop_calls].
           split.
           ++ intros (k & Hk & Htime & Hbefore & (r & Hack)).
              exists (S k). split; [lia|]. split; [|split].
              ** intros [|j] Hj; [rewrite Nat.add_0_r; exact Hbudget|].
                 replace (clock_reads w + S j)%nat with (S (clock_reads w) + j)%nat by lia.
                 apply Htime. lia.
              ** intros [|j] Hj.
                 --- exists recv, st. rewrite Nat.add_0_r. split; assumption.
                 --- replace (loop_calls w + S j)%nat with (S (loop_calls w) + j)%nat by lia.
                     apply Hbefore. lia.
              ** exists r.
                 replace (loop_calls w + S k)%nat with (S (loop_calls w) + k)%nat by lia.
                 exact Hack.
           ++ intros (k & Hk & Htime & Hbefore & (r & Hack)).
              destruct k as [|k].
              { rewrite Nat.add_0_r in Hack. congruence. }
              exists k. split; [lia|]. split; [|split].
              ** intros j Hj.
                 replace (S (clock_reads w) + j)%nat with (clock_reads w + S j)%nat by lia.
                 apply Htime. lia.
              ** intros j Hj.
                 replace (S (loop_calls w) + j)%nat with (loop_calls w + S j)%nat by lia.
                 apply Hbefore. lia.
              ** exists r.
                 replace (S (loop_calls w) + k)%nat with (loop_calls w + S k)%nat by lia.
                 exact Hack.
    + cbn [fst]. split; [discriminate|].
      intros (k & _ & Htime & _).
      specialize (Htime 0%nat ltac:(lia)). rewrite Nat.add_0_r in Htime.
      congruence.
Qed.

(** The result of [send_packet] on a payload of byte values whose frame
    carries a recognised packet kind at index 1. *)
Lemma send_packet_result (enums : Enums) (env : Env) (fuel : nat)
    (address : Z) (payload : list Z) (wt : float) (w : World) :
  forallb is_byte payload = true ->
  kind_ok enums (encode payload) = true ->
  fst (fst (send_packet enums env fuel address payload wt w))
  = if PrimFloat.ltb 0 wt
    then fst (ack_wait env fuel (time_at env (clock_reads w)) wt
                {| clock_reads := S (clock_reads w);
                   loop_calls := loop_calls w;
                   link_sent := link_sent w ++ [(address, encode payload)] |})
    else Returned true.
Proof.
  intros Hb Hk. unfold send_packet.
  rewrite (py_bytes_Some _ Hb).
  assert (Henc : ((payload ++ [Z.shiftr (crc16 payload) 8])
                    ++ [Z.land (crc16 payload) 0xFF]) ++ [TERMINATOR]
                 = encode payload).
  { unfold encode. rewrite <- !app_assoc. reflexivity. }
  cbv zeta. rewrite Henc.
  rewrite (py_bytes_Some _ (encode_bytes _ Hb)).
  unfold driver_send.
  destruct (kind_ok_inv _ _ Hk) as (k & -> & ->).
  destruct (PrimFloat.ltb 0 wt); [|reflexivity].
  unfold time_time. cbn [clock_reads loop_calls link_sent].
  destruct (ack_wait _ _ _ _ _) as [r w']. reflexivity.
Qed.

(** For a payload of byte values whose frame carries a recognised packet
    kind at index 1: [send_packet] called with [waiting_time > 0] returns
    [True] if and only if a poll of the driver reports [PJON_ACK] while the
    difference of the clock reading and the start of the wait, computed in
    double precision as the code computes it, is still [<= waiting_time];
    called with a [waiting_time] for which [waiting_time > 0] is false it
    returns [True] whatever [send()] returned. *)
Theorem send_packet_ack_wait (enums : Enums) (env : Env)
    (address : Z) (payload : list Z) (wt : float) (w : World) :
  forallb is_byte payload = true ->
  kind_ok enums (encode payload) = true ->
  (PrimFloat.ltb 0 wt = true ->
   ((exists fuel,
       fst (fst (send_packet enums env fuel address payload wt w)) = Returned true)
    <-> exists k, acked_at env w wt k)) /\
  (PrimFloat.ltb 0 wt = false ->
   forall fuel,
     fst (fst (send_packet enums env fuel address payload wt w)) = Returned true).
Proof.
  intros Hb Hk. split.
  - intros Hwait. split.
    + intros (fuel & Hres).
      rewrite (send_packet_result _ _ _ _ _ _ _ Hb Hk), Hwait in Hres.
      apply ack_wait_true_iff in Hres.
      destruct Hres as (k & _ & Hrest). exists k. exact Hrest.
    + intros (k & Hacked). exists (S k).
      rewrite (send_packet_result _ _ _ _ _ _ _ Hb Hk), Hwait.
      apply ack_wait_true_iff. exists k. split; [lia|]. exact Hacked.
  - intros Hzero fuel.
    rewrite (send_packet_result _ _ _ _ _ _ _ Hb Hk), Hzero.
    reflexivity.
Qed.

Lemma send_packet_ack_wait_witness :
  forallb is_byte [0x01; 0x04; 0x01] = true /\
  kind_ok spec_enums (encode [0x01; 0x04; 0x01]) = true /\
  PrimFloat.ltb 0 0 = false /\
  fst (fst (send_packet spec_enums quiet_env 7 9 [0x01; 0x04; 0x01] 0 fresh_world))
  = Returned true.
Proof.
  split; [reflexivity|]. split; [reflexivity|]. split; [reflexivity|].
  apply (send_packet_ack_wait spec_enums quiet_env 9 [0x01; 0x04; 0x01] 0 fresh_world);
    reflexivity.
Defined.

(** A broadcast that is acknowledged at the third poll returns [True]. *)
Example send_packet_acked :
  fst (fst (send_packet spec_enums acking_env 3 PJON_BROADCAST [0x01; 0x04; 0x01] 5
              fresh_world)) = Returned true.
Proof. vm_compute. reflexivity. Qed.

(** The same broadcast on a silent link gives up once the budget is spent. *)
Example send_packet_not_acked :
  fst (fst (send_packet spec_enums quiet_env 10 PJON_BROADCAST [0x01; 0x04; 0x01] 2
              fresh_world)) = Returned false.
Proof. vm_compute. reflexivity. Qed.


(** ** What [send_packet] does to the caller's list *)

Lemma send_packet_list (enums : Enums) (env : Env) (fuel : nat)
    (address : Z) (payload : list Z) (wt : float) (w : World) :
  snd (fst (send_packet enums env fuel address payload wt w))
  = if forallb is_byte payload then encode payload else payload.
Proof.
  destruct (forallb is_byte payload) eqn:Hb.
  - apply (send_packet_frame enums env fuel address payload wt w Hb).
  - unfold send_packet, py_bytes. rewrite Hb. reflexivity.
Qed.


Lemma send_packet_appends_always (enums : Enums) (env : Env) (fuel : nat)
    (address : Z) (payload : list Z) (wt : float) (w : World) :
  exists suffix,
    snd (fst (send_packet enums env fuel address payload wt w)) = payload ++ suffix.
Proof.
  rewrite send_packet_list. destruct (forallb is_byte payload).
  - eexists. reflexivity.
  - exists []. symmetry. apply app_nil_r.
Qed.

End PjonFacts.

(** * Properties of the connector *)

Module ConnectorFacts.
Import Pairing Connector.

Lemma set_states_lookup (l : list Z) (registry : gmap Z ConnectionState) (k : Z) :
  fold_left (fun r device => set_state device STATE_UNKNOWN r) l registry !! k
  = if decide (k ∈ l) then (fun _ => STATE_UNKNOWN) <$> registry !! k
    else registry !! k.
Proof.
  revert registry. induction l as [|d l IH]; intros registry.
  - cbn. destruct (decide (k ∈ [])) as [Hin|_]; [|reflexivity].
    apply elem_of_nil in Hin. contradiction.
  - cbn [fold_left]. rewrite IH. unfold set_state.
    destruct (decide (k = d)) as [->|Hne].
    + rewrite lookup_alter_eq.
      destruct (decide (d ∈ d :: l)) as [_|Hnot];
        [|exfalso; apply Hnot; left].
      destruct (decide (d ∈ l)); destruct (registry !! d); reflexivity.
    + rewrite lookup_alter_ne by congruence.
      destruct (decide (k ∈ l)) as [Hin|Hnin];
        destruct (decide (k ∈ d :: l)) as [Hin'|Hnin']; try reflexivity.
      * exfalso. apply Hnin'. right. exact Hin.
      * exfalso. apply elem_of_cons in Hin'. destruct Hin'; contradiction.
Qed.

Lemma reset_states_lookup (registry : gmap Z ConnectionState) (k : Z) :
  reset_states registry !! k = (fun _ => STATE_UNKNOWN) <$> registry !! k.
Proof.
  unfold reset_states. rewrite set_states_lookup.
  destruct (decide (k ∈ devices registry)) as [_|Hnot]; [reflexivity|].
  destruct (registry !! k) as [st|] eqn:Hk; [|reflexivity].
  exfalso. apply Hnot. unfold devices.
  apply list_elem_of_fmap. exists (k, st). split; [reflexivity|].
  apply elem_of_map_to_list. exact Hk.
Qed.

Section Loop.
Context {C : Type} (parts : Components C).

Lemma loop_drained (c : Connector C) :
  stopped c = true -> has_unfinished_tasks parts c = false ->
  loop parts c
  = mkConnector (stopped c) (packets_to_be_sent c) (devices_registry c)
      (components c) (calls c) (connector_log c ++ [ConnectorIsStopped]).
Proof. intros Hs Hu. unfold loop. rewrite Hs, Hu. reflexivity. Qed.

Lemma call_stopped (what : Call) (f : Shared C -> Shared C) (c : Connector C) :
  stopped (call what f c) = stopped c.
Proof.
  unfold call. destruct (f (devices_registry c, components c)). reflexivity.
Qed.

Lemma call_calls (what : Call) (f : Shared C -> Shared C) (c : Connector C) :
  calls (call what f c) = calls c ++ [what].
Proof.
  unfold call. destruct (f (devices_registry c, components c)). reflexivity.
Qed.

Lemma call_packets_to_be_sent (what : Call) (f : Shared C -> Shared C)
    (c : Connector C) :
  packets_to_be_sent (call what f c) = packets_to_be_sent c.
Proof.
  unfold call. destruct (f (devices_registry c, components c)). reflexivity.
Qed.

Lemma call_connector_log (what : Call) (f : Shared C -> Shared C)
    (c : Connector C) :
  connector_log (call what f c) = connector_log c.
Proof.
  unfold call. destruct (f (devices_registry c, components c)). reflexivity.
Qed.

Lemma call_shared (what : Call) (f : Shared C -> Shared C) (c : Connector C) :
  (devices_registry (call what f c), components (call what f c))
  = f (devices_registry c, components c).
Proof.
  unfold call. destruct (f (devices_registry c, components c)). reflexivity.
Qed.

Lemma loop_draining (c : Connector C) :
  stopped c = true -> has_unfinished_tasks parts c = true ->
  loop parts c
  = call ConsumerLoop (consumer_loop parts)
      (call ReceiverLoop (receiver_loop parts) c).
Proof.
  intros Hs Hu. unfold loop. rewrite Hs, Hu. cbn [negb andb].
  rewrite !call_stopped, Hs. reflexivity.
Qed.

Lemma loops_drained (n : nat) (c : Connector C) :
  stopped c = true -> has_unfinished_tasks parts c = false ->
  stopped (Nat.iter n (loop parts) c) = true /\
  has_unfinished_tasks parts (Nat.iter n (loop parts) c) = false /\
  calls (Nat.iter n (loop parts) c) = calls c /\
  components (Nat.iter n (loop parts) c) = components c /\
  devices_registry (Nat.iter n (loop parts) c) = devices_registry c /\
  packets_to_be_sent (Nat.iter n (loop parts) c) = packets_to_be_sent c.
Proof.
  intros Hs Hu. induction n as [|n (IHs & IHu & IHc & IHp & IHr & IHq)].
  - cbn. repeat split; assumption.
  - rewrite Nat.iter_succ, (loop_drained _ IHs IHu).
    unfold has_unfinished_tasks in *. cbn.
    repeat split; assumption.
Qed.

End Loop.

(** C9: [stop()] sets the state of every device in the registry to UNKNOWN
    and marks the connector stopped.  From then on (in any later state [c]
    in which the connector is still stopped) a [loop()] call that finds
    unfinished tasks runs [Receiver.loop()] and [Consumer.loop()] and no
    other component, and leaves the connector stopped; a [loop()] call that
    finds none invokes no component, and neither does any of the [loop()]
    calls that follow it. *)
Theorem stop_then_drain {C : Type} (parts : Components C)
    (c0 c : Connector C) (n : nat) :
  stopped c = true ->
  (stopped (stop c0) = true /\
   (forall device, devices_registry (stop c0) !! device
                   = (fun _ => STATE_UNKNOWN) <$> devices_registry c0 !! device) /\
   (forall device state, devices_registry (stop c0) !! device = Some state ->
                         state = STATE_UNKNOWN)) /\
  stopped (loop parts c) = true /\
  (has_unfinished_tasks parts c = true ->
   calls (loop parts c) = calls c ++ [ReceiverLoop; ConsumerLoop]) /\
  (has_unfinished_tasks parts c = false ->
   calls (Nat.iter n (loop parts) c) = calls c /\
   components (Nat.iter n (loop parts) c) = components c /\
   devices_registry (Nat.iter n (loop parts) c) = devices_registry c /\
   stopped (Nat.iter n (loop parts) c) = true).
Proof.
  intros Hs. split; [|split; [|split]].
  - split; [reflexivity|]. split.
    + intros device. cbn. apply reset_states_lookup.
    + intros device state H. cbn in H. rewrite reset_states_lookup in H.
      destruct (devices_registry c0 !! device); cbn in H; congruence.
  - destruct (has_unfinished_tasks parts c) eqn:Hu.
    + rewrite (loop_draining parts c Hs Hu), !call_stopped. exact Hs.
    + rewrite (loop_drained parts c Hs Hu). exact Hs.
  - intros Hu. rewrite (loop_draining parts c Hs Hu), !call_calls.
    rewrite <- app_assoc. reflexivity.
  - intros Hu.
    destruct (loops_drained parts n c Hs Hu) as (H1 & _ & H3 & H4 & H5 & _).
    repeat split; assumption.
Qed.

Lemma stop_then_drain_witness :
  stopped (stop example_connector) = true /\
  calls (Nat.iter 5 (loop draining_parts) (stop example_connector))
  = [ReceiverLoop; ConsumerLoop; ReceiverLoop; ConsumerLoop].
Proof.
  split; [reflexivity|].
  pose proof (stop_then_drain draining_parts example_connector
                (Nat.iter 2 (loop draining_parts) (stop example_connector)) 3
                eq_refl) as (_ & _ & _ & Hidle).
  destruct (Hidle eq_refl) as (Hcalls & _).
  exact Hcalls.
Defined.

End ConnectorFacts.

(** * Properties of the pairing handler *)

Module PairingFacts.
Import Pairing.

(** ** Which register is asked for next *)

Lemma find_first {A : Type} (f : A -> bool) (l : list A) (x : A) :
  find f l = Some x ->
  exists before after,
    l = before ++ x :: after /\ f x = true /\
    List.Forall (fun y => f y = false) before.
Proof.
  induction l as [|a l IH]; intros H; [discriminate|].
  cbn in H. destruct (f a) eqn:Ha.
  - injection H as ->. exists [], l. repeat split; [exact Ha | constructor].
  - destruct (IH H) as (before & after & -> & Hx & Hbefore).
    exists (a :: before), after. repeat split; [exact Hx|].
    constructor; assumption.
Qed.

Lemma find_none_Forall {A : Type} (f : A -> bool) (l : list A) :
  find f l = None -> List.Forall (fun y => f y = false) l.
Proof.
  intros H. apply List.Forall_forall. intros y Hy.
  exact (find_none f l H y Hy).
Qed.

(** C4, as the code has it: [move_to_next_register_for_init] returns
    [False] and selects nothing when no register has data type UNKNOWN;
    otherwise it selects a register with data type UNKNOWN that is the
    first, in the iteration order of the register set, of the lowest group
    present among the UNKNOWN registers: inputs and outputs together, then
    attributes, then settings.  Inputs are not taken before outputs, and
    addresses play no role. *)
Theorem next_register_by_group (s : State) :
  let registers := pairing_device_registers s in
  let r := move_to_next_register_for_init s in
  (fst r = false ->
   processing_register_type (snd r) = None /\
   processing_register_address (snd r) = None /\
   List.Forall (fun x => is_unknown x = false) registers) /\
  (fst r = true ->
   exists before x after,
     registers = before ++ x :: after /\ is_unknown x = true /\
     processing_register_type (snd r) = Some (register_type x) /\
     processing_register_address (snd r) = Some (register_address x) /\
     List.Forall
       (fun y => is_unknown y = true ->
                 register_group (register_type y) <> register_group (register_type x))
       before /\
     List.Forall
       (fun y => is_unknown y = true ->
                 (register_group (register_type x) <= register_group (register_type y))%nat)
       registers).
Proof.
  intros registers r. subst r registers.
  unfold move_to_next_register_for_init, has_registers_to_init.
  destruct s as [fd pd regs ts wp att tot en cmd pa pt bsf fin cid].
  cbn [pairing_device_registers set_processing_register_type
       set_processing_register_address].
  destruct (existsb is_unknown regs) eqn:Hany.
  2:{ cbn. split; [|discriminate]. intros _. repeat split.
      apply List.Forall_forall. intros x Hx.
      destruct (is_unknown x) eqn:E; [|reflexivity].
      assert (existsb is_unknown regs = true)
        by (apply existsb_exists; exists x; split; assumption).
      congruence. }
  destruct (find (fun r => is_unknown r && (bool_decide (register_type r = INPUT) || bool_decide (register_type r = OUTPUT))) regs) as [x|] eqn:F1.
  { cbn. split; [discriminate|]. intros _.
    destruct (find_first _ _ _ F1) as (before & after & Hsplit & Hx & Hbefore).
    apply andb_true_iff in Hx. destruct Hx as [Hu Hio].
    assert (Hg : register_group (register_type x) = 0%nat).
    { destruct (register_type x); cbn in Hio; try discriminate; reflexivity. }
    exists before, x, after. repeat split; try assumption.
    - eapply List.Forall_impl; [|exact Hbefore]. cbn. intros y Hy Huy.
      rewrite Huy in Hy. rewrite Hg.
      destruct (register_type y); cbn in Hy; try discriminate; cbn; lia.
    - rewrite Hg. apply List.Forall_forall. intros; lia. }
  pose proof (find_none_Forall _ _ F1) as N1.
  destruct (find (fun r => is_unknown r && bool_decide (register_type r = ATTRIBUTE)) regs) as [x|] eqn:F2.
  { cbn. split; [discriminate|]. intros _.
    destruct (find_first _ _ _ F2) as (before & after & Hsplit & Hx & Hbefore).
    apply andb_true_iff in Hx. destruct Hx as [Hu Hat].
    apply bool_decide_eq_true in Hat.
    exists before, x, after. rewrite Hat. repeat split; try assumption.
    - eapply List.Forall_impl; [|exact Hbefore]. cbn. intros y Hy Huy.
      rewrite Huy in Hy.
      destruct (register_type y); cbn in Hy; try discriminate; cbn; lia.
    - eapply List.Forall_impl; [|exact N1]. cbn. intros y Hy Huy.
      rewrite Huy in Hy.
      destruct (register_type y); cbn in Hy; try discriminate; cbn; lia. }
  pose proof (find_none_Forall _ _ F2) as N2.
  destruct (find (fun r => is_unknown r && bool_decide (register_type r = SETTING)) regs) as [x|] eqn:F3.
  { cbn. split; [discriminate|]. intros _.
    destruct (find_first _ _ _ F3) as (before & after & Hsplit & Hx & Hbefore).
    apply andb_true_iff in Hx. destruct Hx as [Hu Hse].
    apply bool_decide_eq_true in Hse.
    exists before, x, after. rewrite Hse. repeat split; try assumption.
    - eapply List.Forall_impl; [|exact Hbefore]. cbn. intros y Hy Huy.
      rewrite Huy in Hy.
      destruct (register_type y); cbn in Hy; try discriminate; cbn; lia.
    - apply List.Forall_forall. intros y Hy Huy.
      pose proof (proj1 (List.Forall_forall _ _) N1 y Hy) as H1.
      pose proof (proj1 (List.Forall_forall _ _) N2 y Hy) as H2.
      cbn in H1, H2. rewrite Huy in H1, H2.
      destruct (register_type y); cbn in H1, H2; try discriminate; cbn; lia. }
  pose proof (find_none_Forall _ _ F3) as N3.
  cbn. split; [|discriminate]. intros _. repeat split.
  apply List.Forall_forall. intros y Hy.
  pose proof (proj1 (List.Forall_forall _ _) N1 y Hy) as H1.
  pose proof (proj1 (List.Forall_forall _ _) N2 y Hy) as H2.
  pose proof (proj1 (List.Forall_forall _ _) N3 y Hy) as H3.
  cbn in H1, H2, H3.
  destruct (is_unknown y); [|reflexivity].
  destruct (register_type y); cbn in H1, H2, H3; discriminate.
Qed.

Lemma next_register_by_group_witness :
  let s := set_pairing_device_registers
             [PairingSettingRegisterRecord 3 0 None UNKNOWN;
              PairingInputRegisterRecord 1 0 U8 None;
              PairingAttributeRegisterRecord 2 5 None None UNKNOWN true true]
             initial_state in
  fst (move_to_next_register_for_init s) = true /\
  processing_register_type (snd (move_to_next_register_for_init s)) = Some ATTRIBUTE /\
  exists before x after,
    pairing_device_registers s = before ++ x :: after /\
    processing_register_address (snd (move_to_next_register_for_init s))
    = Some (register_address x).
Proof.
  intros s. split; [reflexivity|]. split; [reflexivity|].
  destruct (next_register_by_group s) as [_ H].
  destruct (H eq_refl) as (before & x & after & H1 & _ & _ & H4 & _).
  exists before, x, after. split; assumption.
Defined.

(** C4 fails as stated.  Each list below is a register set in the order
    in which the [for] loops of the method visit it.  When the set iterates
    an UNKNOWN output before an UNKNOWN input, the output is asked for
    first; when it iterates the input at address 1 before the input at
    address 0, address 1 is asked for first. *)
Lemma next_register_not_by_kind_or_address :
  processing_register_type
    (snd (move_to_next_register_for_init
            (set_pairing_device_registers
               [PairingOutputRegisterRecord 1 0 UNKNOWN None;
                PairingInputRegisterRecord 2 0 UNKNOWN None]
               initial_state)))
  = Some OUTPUT /\
  processing_register_address
    (snd (move_to_next_register_for_init
            (set_pairing_device_registers
               [PairingInputRegisterRecord 1 1 UNKNOWN None;
                PairingInputRegisterRecord 2 0 UNKNOWN None]
               initial_state)))
  = Some 1.
Proof. split; reflexivity. Qed.

(** ** Effects on the log *)

Lemma requests_logger (m : LogMessage) (w : World) :
  requests (logger m w) = requests w + (if is_request m then 1 else 0).
Proof.
  destruct w. unfold requests, logger. cbn [log].
  rewrite List.filter_app, length_app. cbn [List.filter].
  destruct (is_request m); cbn [length]; lia.
Qed.

Lemma searches_logger (m : LogMessage) (w : World) :
  searches (logger m w) = searches w + (if is_search m then 1 else 0).
Proof.
  destruct w. unfold searches, logger. cbn [log].
  rewrite List.filter_app, length_app. cbn [List.filter].
  destruct (is_search m); cbn [length]; lia.
Qed.

Lemma silent_refl w : silent w w.
Proof. split; reflexivity. Qed.

Lemma silent_trans w1 w2 w3 : silent w1 w2 -> silent w2 w3 -> silent w1 w3.
Proof. intros [A B] [C D]. split; congruence. Qed.

Lemma silent_same_log w w' : log w' = log w -> silent w w'.
Proof. intros H. unfold silent, requests, searches. rewrite H. split; reflexivity. Qed.

Lemma silent_logger m w : is_request m = false -> silent w (logger m w).
Proof.
  intros H. split.
  - rewrite requests_logger, H. lia.
  - rewrite searches_logger. destruct m; cbn in *; try discriminate; lia.
Qed.


Lemma log_client_call env c w : log (snd (client_call env c w)) = log w.
Proof. destruct w. reflexivity. Qed.

Lemma log_time_time env w : log (snd (time_time env w)) = log w.
Proof. destruct w. reflexivity. Qed.

Lemma time_time_reading env w : fst (time_time env w) = time_at env (clock_reads w).
Proof. destruct w. reflexivity. Qed.

Lemma silent_client_call env c w : silent w (snd (client_call env c w)).
Proof. apply silent_same_log, log_client_call. Qed.

Lemma silent_time_time env w : silent w (snd (time_time env w)).
Proof. apply silent_same_log, log_time_time. Qed.

Lemma broadcast_to_each_silent env ids payload wt w :
  silent w (snd (broadcast_to_each env ids payload wt w)).
Proof.
  revert payload w. induction ids as [|id ids IH]; intros payload w.
  - apply silent_refl.
  - cbn [broadcast_to_each].
    match goal with
    | |- context [client_call ?e ?c ?w0] =>
        pose proof (silent_client_call e c w0) as Hc;
        destruct (client_call e c w0) as [[r payload'] w']
    end.
    eapply silent_trans; [exact Hc | apply IH].
Qed.

Lemma broadcast_silent env s payload w :
  silent w (snd (broadcast env s payload w)).
Proof.
  unfold broadcast. destruct (client_id s) as [ids|].
  - apply broadcast_to_each_silent.
  - match goal with
    | |- context [client_call ?e ?c ?w0] =>
        pose proof (silent_client_call e c w0) as Hc;
        destruct (client_call e c w0) as [[r payload'] w']
    end.
    exact Hc.
Qed.

Lemma send_to_each_silent env ids address data result w :
  silent w (snd (send_to_each env ids address data result w)).
Proof.
  revert data result w. induction ids as [|id ids IH]; intros data result w.
  - apply silent_refl.
  - cbn [send_to_each].
    match goal with
    | |- context [client_call ?e ?c ?w0] =>
        pose proof (silent_client_call e c w0) as Hc;
        destruct (client_call e c w0) as [[r data'] w']
    end.
    eapply silent_trans; [exact Hc | apply IH].
Qed.

(** ** Effects on the calls of the client *)

Lemma client_calls_client_call env c w :
  client_calls (snd (client_call env c w)) = client_calls w ++ [c] /\
  fst (client_call env c w) = client_at env (length (client_calls w)) c.
Proof. destruct w. split; reflexivity. Qed.

Lemma client_calls_mark_request_sent env s w :
  client_calls (snd (mark_request_sent env s w)) = client_calls w.
Proof. destruct s, w. reflexivity. Qed.

Lemma client_calls_logger m w : client_calls (logger m w) = client_calls w.
Proof. destruct w. reflexivity. Qed.

Lemma client_calls_time_time env w :
  client_calls (snd (time_time env w)) = client_calls w.
Proof. destruct w. reflexivity. Qed.

Lemma client_id_mark_request_sent env s w :
  client_id (fst (mark_request_sent env s w)) = client_id s.
Proof. destruct s, w. reflexivity. Qed.

Lemma frames_same w w' :
  client_calls w' = client_calls w ->
  frames w' = frames w /\ broadcasts w' = broadcasts w.
Proof. intros H. unfold frames, broadcasts. rewrite H. split; reflexivity. Qed.

Lemma frames_client_call env c w :
  frames (snd (client_call env c w)) = frames w + 1 /\
  broadcasts (snd (client_call env c w))
  = broadcasts w + (if is_broadcast c then 1 else 0).
Proof.
  destruct (client_calls_client_call env c w) as [H _].
  unfold frames, broadcasts. rewrite H.
  rewrite List.filter_app, !length_app. cbn [List.filter].
  destruct (is_broadcast c); cbn [length]; lia.
Qed.

Lemma broadcast_to_each_frames env ids payload wt w :
  frames (snd (broadcast_to_each env ids payload wt w))
  = frames w + Z.of_nat (length ids) /\
  broadcasts (snd (broadcast_to_each env ids payload wt w))
  = broadcasts w + Z.of_nat (length ids).
Proof.
  revert payload w. induction ids as [|id ids IH]; intros payload w.
  - cbn. lia.
  - cbn [broadcast_to_each].
    match goal with
    | |- context [client_call ?e ?c ?w0] =>
        destruct (frames_client_call e c w0) as [Hf Hb];
        destruct (client_call e c w0) as [[r payload'] w']
    end.
    cbn [snd is_broadcast call_address] in Hf, Hb.
    destruct (IH payload' w') as [-> ->]. cbn [length]. lia.
Qed.

Lemma broadcast_frames env s payload w :
  frames (snd (broadcast env s payload w)) = frames w + clients s /\
  broadcasts (snd (broadcast env s payload w)) = broadcasts w + clients s.
Proof.
  unfold broadcast, clients. destruct (client_id s) as [ids|].
  - apply broadcast_to_each_frames.
  - match goal with
    | |- context [client_call ?e ?c ?w0] =>
        destruct (frames_client_call e c w0) as [Hf Hb];
        destruct (client_call e c w0) as [[r payload'] w']
    end.
    cbn [snd is_broadcast call_address] in *. split; assumption.
Qed.

Lemma send_to_each_frames env ids address data result w :
  frames (snd (send_to_each env ids address data result w))
  = frames w + Z.of_nat (length ids).
Proof.
  revert data result w. induction ids as [|id ids IH]; intros data result w.
  - cbn. lia.
  - cbn [send_to_each].
    match goal with
    | |- context [client_call ?e ?c ?w0] =>
        destruct (frames_client_call e c w0) as [Hf _];
        destruct (client_call e c w0) as [[r data'] w']
    end.
    cbn [snd] in Hf. rewrite IH. cbn [length]. lia.
Qed.

Lemma clients_touch wp att tot t s : clients (touch wp att tot t s) = clients s.
Proof. destruct s. reflexivity. Qed.

(** ** What the sending handlers assign *)

Lemma mark_request_sent_spec env s w :
  fst (mark_request_sent env s w)
  = touch (Some Packet_DISCOVER) (attempts s + 1) (total_attempts s + 1)
      (time_at env (clock_reads w)) s /\
  log (snd (mark_request_sent env s w)) = log w.
Proof. destruct s, w. split; reflexivity. Qed.

Lemma client_id_touch wp att tot t s : client_id (touch wp att tot t s) = client_id s.
Proof. destruct s. reflexivity. Qed.

Lemma broadcast_search_devices_handler_spec env s w :
  fst (broadcast_search_devices_handler env s w)
  = touch (Some Packet_DISCOVER) (attempts s + 1) (total_attempts s + 1)
      (time_at env (clock_reads w)) s /\
  requests (snd (broadcast_search_devices_handler env s w)) = requests w + 1 /\
  searches (snd (broadcast_search_devices_handler env s w)) = searches w + 1.
Proof.
  unfold broadcast_search_devices_handler.
  destruct (mark_request_sent_spec env s w) as [Hs Hl].
  destruct (mark_request_sent env s w) as [s1 w1]. cbn [fst snd] in *.
  match goal with
  | |- context [broadcast ?e ?s' ?p ?w'] =>
      destruct (broadcast_silent e s' p w') as [Hr Hsr];
      destruct (broadcast e s' p w') as [p' w'']
  end.
  cbn [fst snd] in *. rewrite Hr, Hsr, requests_logger, searches_logger.
  destruct (silent_same_log _ _ Hl) as [-> ->].
  split; [exact Hs|]. cbn [is_request is_search]. split; reflexivity.
Qed.

Lemma broadcast_write_address_handler_spec env d s w :
  fst (broadcast_write_address_handler env d s w)
  = touch (Some Packet_DISCOVER) (attempts s + 1) (total_attempts s + 1)
      (time_at env (clock_reads w)) s /\
  requests (snd (broadcast_write_address_handler env d s w)) = requests w + 1 /\
  searches (snd (broadcast_write_address_handler env d s w)) = searches w.
Proof.
  unfold broadcast_write_address_handler.
  destruct (mark_request_sent_spec env s w) as [Hs Hl].
  destruct (mark_request_sent env s w) as [s1 w1]. cbn [fst snd] in *.
  match goal with
  | |- context [broadcast ?e ?s' ?p ?w'] =>
      destruct (broadcast_silent e s' p w') as [Hr Hsr];
      destruct (broadcast e s' p w') as [p' w'']
  end.
  cbn [fst snd] in *. rewrite Hr, Hsr, requests_logger, searches_logger.
  destruct (silent_same_log _ _ Hl) as [-> ->].
  split; [exact Hs|]. cbn [is_request is_search]. split; lia.
Qed.

Lemma touch_touch_refused wp att tot t t' s :
  set_last_request_send_timestamp t'
    (set_attempts 0 (set_waiting_for_packet None (touch wp att tot t s)))
  = touch None 0 tot t' s.
Proof. destruct s. reflexivity. Qed.

Lemma PairingCommand_value_ok (cmd : PairingCommand) :
  PairingCommand_has_value (PairingCommand_value cmd) = true /\
  PairingResponse_has_value (0x50 + PairingCommand_value cmd) = true.
Proof. destruct cmd; split; reflexivity. Qed.

Lemma py_index_second (k c : Z) (rest : list Z) :
  py_index (k :: c :: rest) 1 = Some c.
Proof.
  rewrite PjonFacts.py_index_nonneg by (cbn [length]; lia). reflexivity.
Qed.

(** With a pairing command at index 1 of [data] the debug message is
    built, so the call goes on to [data.insert] and returns. *)
Lemma send_data_to_device_returns env k cmd rest address s w :
  send_data_to_device env (k :: PairingCommand_value cmd :: rest) address s w
  = let '(s1, w1) := mark_request_sent env s w in
    let '(data, s2, w2) :=
      send_data_inserted env (k :: PairingCommand_value cmd :: rest) address s1
        (logger PreparingToSendPairingCommand w1) in
    (Returned tt, data, s2, w2).
Proof.
  unfold send_data_to_device.
  destruct (mark_request_sent env s w) as [s1 w1].
  rewrite py_index_second.
  destruct (PairingCommand_value_ok cmd) as [-> ->].
  reflexivity.
Qed.

Lemma send_data_to_device_spec env k cmd rest address s w :
  let data := k :: PairingCommand_value cmd :: rest in
  (exists waiting att sent_at,
     snd (fst (send_data_to_device env data address s w))
     = touch waiting att (total_attempts s + 1) sent_at s /\
     (waiting = Some Packet_DISCOVER /\ att = attempts s + 1
      \/ waiting = None /\ att = 0)) /\
  requests (snd (send_data_to_device env data address s w)) = requests w + 1 /\
  searches (snd (send_data_to_device env data address s w)) = searches w.
Proof.
  intros data. subst data. rewrite send_data_to_device_returns.
  set (data := k :: PairingCommand_value cmd :: rest).
  unfold send_data_inserted.
  destruct (mark_request_sent_spec env s w) as [Hs Hl].
  destruct (mark_request_sent env s w) as [s1 w1]. cbn [fst snd] in *.
  set (w2 := logger PreparingToSendPairingCommand w1).
  assert (Hw2 : requests w2 = requests w + 1 /\ searches w2 = searches w).
  { subst w2. rewrite requests_logger, searches_logger.
    destruct (silent_same_log _ _ Hl) as [-> ->].
    cbn [is_request is_search]. lia. }
  assert (Hcall : exists result data' w3,
            match client_id s1 with
            | Some ids => send_to_each env ids address (ProtocolVersion_V1 :: data) false w2
            | None =>
                client_call env
                  {| call_address := Some address;
                     call_payload := ProtocolVersion_V1 :: data;
                     call_waiting_time := 0; call_client_id := None |} w2
            end = (result, data', w3) /\ silent w2 w3).
  { destruct (client_id s1) as [ids|].
    - pose proof (send_to_each_silent env ids address (ProtocolVersion_V1 :: data) false w2) as H.
      destruct (send_to_each _ _ _ _ _ _) as [[r d'] w3]. eauto.
    - match goal with
      | |- context [client_call ?e ?c ?w0] =>
          pose proof (silent_client_call e c w0) as Hc;
          destruct (client_call e c w0) as [[r d'] w3]
      end.
      eauto. }
  destruct Hcall as (result & data' & w3 & -> & [Hr Hsr]).
  destruct Hw2 as [Hr2 Hs2].
  destruct result; cbn [negb fst snd].
  - split; [|split; congruence].
    exists (Some Packet_DISCOVER), (attempts s + 1), (time_at env (clock_reads w)).
    split; [exact Hs | left; split; reflexivity].
  - destruct (silent_time_time env w3) as [Hr4 Hs4].
    pose proof (time_time_reading env w3) as Ht.
    destruct (time_time env w3) as [now w4]. cbn [fst snd] in *.
    split; [|split; congruence].
    exists None, 0, now.
    split; [subst s1; apply touch_touch_refused | right; split; reflexivity].
Qed.

Lemma send_finalize_pairing_handler_spec env d s w :
  (exists waiting att sent_at,
     fst (send_finalize_pairing_handler env d s w)
     = touch waiting att (total_attempts s + 1) sent_at s /\
     (waiting = Some Packet_DISCOVER /\ att = attempts s + 1
      \/ waiting = None /\ att = 0)) /\
  requests (snd (send_finalize_pairing_handler env d s w)) = requests w + 1 /\
  searches (snd (send_finalize_pairing_handler env d s w)) = searches w.
Proof.
  unfold send_finalize_pairing_handler.
  pose proof (send_data_to_device_spec env Packet_DISCOVER PAIRING_FINISHED []
                (device_address d) s w) as H.
  cbv zeta in H. change (PairingCommand_value PAIRING_FINISHED) with 4 in *.
  destruct (send_data_to_device env [Packet_DISCOVER; 4] (device_address d) s w)
    as [[[o p'] s'] w'].
  exact H.
Qed.

Lemma send_provide_register_structure_handler_spec env d s w :
  (exists waiting att total sent_at,
     fst (send_provide_register_structure_handler env d s w)
     = touch waiting att total sent_at s /\
     (waiting = Some Packet_DISCOVER /\ att = attempts s + 1
      /\ total = total_attempts s + 1
      /\ requests (snd (send_provide_register_structure_handler env d s w))
         = requests w + 1
      \/ waiting = None /\ att = 0
         /\ (total = total_attempts s + 1
             /\ requests (snd (send_provide_register_structure_handler env d s w))
                = requests w + 1
             \/ total = total_attempts s
                /\ requests (snd (send_provide_register_structure_handler env d s w))
                   = requests w))) /\
  searches (snd (send_provide_register_structure_handler env d s w)) = searches w.
Proof.
  unfold send_provide_register_structure_handler.
  destruct (processing_register_address s) as [address|] eqn:Ha;
    [destruct (processing_register_type s) as [type|] eqn:Ht|].
  - match goal with
    | |- context [send_data_to_device ?e (?k :: _ :: ?r) ?a ?s ?w] =>
        destruct (send_data_to_device_spec e k PROVIDE_REGISTER_STRUCTURE r a s w)
          as ((wp & att & t & Hs & Hcase) & Hr & Hsr);
        destruct (send_data_to_device e
                    (k :: PairingCommand_value PROVIDE_REGISTER_STRUCTURE :: r) a s w)
          as [[[o p'] s'] w']
    end.
    cbn [fst snd] in *. split; [|exact Hsr].
    exists wp, att, (total_attempts s + 1), t. split; [exact Hs|].
    destruct Hcase as [[-> ->]|[-> ->]]; [left|right]; repeat split; auto.
  - cbn [fst snd]. split.
    + exists None, 0, (total_attempts s), (last_request_send_timestamp s).
      split; [destruct s; reflexivity|]. right. repeat split. right.
      split; [reflexivity|]. rewrite requests_logger. cbn [is_request]. lia.
    + rewrite searches_logger. cbn [is_search]. lia.
  - cbn [fst snd]. split.
    + exists None, 0, (total_attempts s), (last_request_send_timestamp s).
      split; [destruct s; reflexivity|]. right. repeat split. right.
      split; [reflexivity|]. rewrite requests_logger. cbn [is_request]. lia.
    + rewrite searches_logger. cbn [is_search]. lia.
Qed.

(** ** Setting up the registers of a device *)

Lemma fold_left_preserves {A B : Type} (P : A -> Prop) (f : A -> B -> A)
    (l : list B) (a : A) :
  P a -> (forall a b, P a -> P (f a b)) -> P (fold_left f l a).
Proof.
  intros Ha Hstep. revert a Ha.
  induction l as [|b l IH]; intros a Ha; [exact Ha|].
  cbn [fold_left]. apply IH, Hstep, Ha.
Qed.

Lemma forget_append_register r s :
  forget_registers (append_register r s) = forget_registers s.
Proof. destruct s. reflexivity. Qed.

Lemma registers_only_refl s w : registers_only s w (s, w).
Proof. split; [reflexivity | apply silent_refl]. Qed.

Lemma registers_only_trans s w s1 w1 sw :
  registers_only s w (s1, w1) -> registers_only s1 w1 sw -> registers_only s w sw.
Proof.
  intros [A B] [C D]. cbn [fst snd] in *. split; [congruence|].
  eapply silent_trans; eassumption.
Qed.

Lemma configure_registers_only env device size type s w :
  registers_only s w (configure_registers env device size type s w).
Proof.
  unfold configure_registers. apply fold_left_preserves.
  - apply registers_only_refl.
  - intros [s1 w1] i [Hs Hw]. cbn [fst snd] in *.
    unfold get_by_address, append_input_register, append_output_register.
    destruct (registers_get_by_address env _ _ _ _) as [record|];
      destruct type; destruct w1; split; cbn [fst snd uuid4 registry_read];
      rewrite ?forget_append_register; try exact Hs;
      (eapply silent_trans; [exact Hw|]; apply silent_same_log; reflexivity).
Qed.

Lemma configure_attributes_only env device size s w :
  registers_only s w (configure_attributes env device size s w).
Proof.
  unfold configure_attributes. apply fold_left_preserves.
  - apply registers_only_refl.
  - intros [s1 w1] i [Hs Hw]. cbn [fst snd] in *.
    unfold get_by_address, append_attribute.
    destruct (registers_get_by_address env _ _ _ _) as [[| | |]|];
      destruct w1; split; cbn [fst snd uuid4 registry_read];
      rewrite ?forget_append_register; try exact Hs;
      (eapply silent_trans; [exact Hw|]; apply silent_same_log; reflexivity).
Qed.

Lemma configure_settings_only env device size s w :
  registers_only s w (configure_settings env device size s w).
Proof.
  unfold configure_settings. apply fold_left_preserves.
  - apply registers_only_refl.
  - intros [s1 w1] i [Hs Hw]. cbn [fst snd] in *.
    unfold get_by_address, append_setting.
    destruct (registers_get_by_address env _ _ _ _) as [[| | |]|];
      destruct w1; split; cbn [fst snd uuid4 registry_read];
      rewrite ?forget_append_register; try exact Hs;
      (eapply silent_trans; [exact Hw|]; apply silent_same_log; reflexivity).
Qed.

Lemma registers_only_logger m s w sw :
  is_request m = false ->
  registers_only s w sw -> registers_only s w (fst sw, logger m (snd sw)).
Proof.
  intros Hm [A B]. split; [exact A|]. cbn [snd].
  eapply silent_trans; [exact B|]. apply silent_logger, Hm.
Qed.

Lemma configure_device_only env d s w :
  registers_only s w (configure_device env d s w).
Proof.
  unfold configure_device.
  pose proof (configure_registers_only env (device_id d) (input_registers_size d) INPUT s w) as H1.
  destruct (configure_registers env _ _ INPUT s w) as [s1 w1].
  pose proof (configure_registers_only env (device_id d) (output_registers_size d) OUTPUT s1 w1) as H2.
  destruct (configure_registers env _ _ OUTPUT s1 w1) as [s2 w2].
  pose proof (registers_only_logger ConfiguredRegisters _ _ _ eq_refl
                (registers_only_trans _ _ _ _ _ H1 H2)) as H3.
  cbn [fst snd] in H3.
  pose proof (configure_attributes_only env (device_id d) (attributes_registers_size d)
                s2 (logger ConfiguredRegisters w2)) as H4.
  destruct (configure_attributes env _ _ s2 _) as [s3 w3].
  pose proof (registers_only_logger ConfiguredAttributes _ _ _ eq_refl
                (registers_only_trans _ _ _ _ _ H3 H4)) as H5.
  cbn [fst snd] in H5.
  pose proof (configure_settings_only env (device_id d) (settings_registers_size d)
                s3 (logger ConfiguredAttributes w3)) as H6.
  destruct (configure_settings env _ _ s3 _) as [s4 w4].
  exact (registers_only_logger ConfiguredSettings _ _ _ eq_refl
           (registers_only_trans _ _ _ _ _ H5 H6)).
Qed.

Lemma registers_only_state s w sw :
  registers_only s w sw ->
  fst sw = set_pairing_device_registers (pairing_device_registers (fst sw)) s.
Proof.
  intros [H _]. destruct sw as [s' w']. cbn [fst] in *.
  destruct s, s'. unfold forget_registers in H. cbn in *.
  injection H as -> -> -> -> -> -> -> -> -> -> -> -> ->. reflexivity.
Qed.

(** ** Taking up the next device *)

Lemma silent_logger_after m w w' :
  is_request m = false -> silent w w' -> silent w (logger m w').
Proof.
  intros Hm H. eapply silent_trans; [exact H|]. apply silent_logger, Hm.
Qed.

Lemma silent_registry_read w w' : silent w w' -> silent w (registry_read w').
Proof.
  intros H. eapply silent_trans; [exact H|]. apply silent_same_log.
  destruct w'. reflexivity.
Qed.

Lemma silent_registry_set_state device state w w' :
  silent w w' -> silent w (registry_set_state device state w').
Proof.
  intros H. eapply silent_trans; [exact H|]. apply silent_same_log.
  destruct w'. reflexivity.
Qed.

Ltac silent_steps :=
  repeat lazymatch goal with
    | |- silent ?w ?w => apply silent_refl
    | |- silent _ (registry_set_state _ _ _) => apply silent_registry_set_state
    | |- silent _ (registry_read _) => apply silent_registry_read
    | |- silent _ (logger _ _) => apply silent_logger_after; [reflexivity|]
    | |- silent _ _ => assumption
    end.

Lemma discover_device_from_spec env found s w :
  silent w (snd (discover_device_from env found s w)) /\
  (fst (discover_device_from env found s w) = disabled_state s
   \/ exists before d rest a regs,
        found = before ++ d :: rest /\
        fst (discover_device_from env found s w)
        = set_pairing_device_registers regs
            (discovered s (set_device_address a d) rest)).
Proof.
  revert s w. induction found as [|d rest IH]; intros s w.
  - cbn [discover_device_from disable fst snd]. split.
    + silent_steps.
    + left. destruct s. reflexivity.
  - cbn [discover_device_from].
    set (s1 := set_total_attempts 0 _).
    assert (Hdis : disabled_state s1 = disabled_state s)
      by (subst s1; destruct s; lazy; reflexivity).
    assert (Hdisc : forall d' rest', discovered s1 d' rest' = discovered s d' rest')
      by (intros; subst s1; destruct s; lazy; reflexivity).
    assert (Hrec : forall w',
              silent w w' ->
              silent w (snd (discover_device_from env rest s1 w')) /\
              (fst (discover_device_from env rest s1 w') = disabled_state s
               \/ exists before d0 rest0 a regs,
                    d :: rest = before ++ d0 :: rest0 /\
                    fst (discover_device_from env rest s1 w')
                    = set_pairing_device_registers regs
                        (discovered s (set_device_address a d0) rest0))).
    { intros w' Hw'. destruct (IH s1 w') as [Hsil Hst]. split.
      - eapply silent_trans; eassumption.
      - destruct Hst as [->|(before & d0 & rest0 & a & regs & -> & ->)].
        + left. exact Hdis.
        + right. exists (d :: before), d0, rest0, a, regs.
          rewrite Hdisc. split; reflexivity. }
    assert (Hconf : forall a w',
              silent w w' ->
              let r := configure_device env (set_device_address a d)
                         (set_pairing_device (Some (set_device_address a d)) s1) w' in
              silent w (snd r) /\
              (fst r = disabled_state s
               \/ exists before d0 rest0 a0 regs,
                    d :: rest = before ++ d0 :: rest0 /\
                    fst r = set_pairing_device_registers regs
                              (discovered s (set_device_address a0 d0) rest0))).
    { intros a w' Hw' r.
      pose proof (configure_device_only env (set_device_address a d)
                    (set_pairing_device (Some (set_device_address a d)) s1) w') as Honly.
      fold r in Honly. split.
      - eapply silent_trans; [exact Hw'|]. apply Honly.
      - right. exists [], d, rest, a, (pairing_device_registers (fst r)).
        split; [reflexivity|].
        rewrite (registers_only_state _ _ _ Honly) at 1.
        subst s1. destruct s. reflexivity. }
    destruct (devices_get_by_id env (registry_reads w) (device_id d)) as [record|].
    + destruct (registry_device_address record =? ADDRESS_NOT_ASSIGNED).
      * destruct (devices_find_free_address env _ _) as [a|].
        -- apply Hconf. silent_steps.
        -- apply Hrec. silent_steps.
      * apply Hconf. silent_steps.
    + destruct (devices_find_free_address env _ _) as [a|].
      * apply Hconf. silent_steps.
      * apply Hrec. silent_steps.
Qed.

(** ** What the set-up of a device leaves alone in the world *)

Section WorldKeeps.
Context {X : Type} (proj : World -> X) (env : Env).
Hypothesis proj_registry_read : forall w, proj (registry_read w) = proj w.
Hypothesis proj_uuid4 : forall w, proj (snd (uuid4 env w)) = proj w.
Hypothesis proj_logger : forall m w, proj (logger m w) = proj w.

Lemma configure_registers_keeps device size type s w :
  proj (snd (configure_registers env device size type s w)) = proj w.
Proof.
  unfold configure_registers.
  apply (fold_left_preserves (fun sw => proj (snd sw) = proj w)); [reflexivity|].
  intros [s1 w1] i H1. cbn [snd] in H1. unfold get_by_address.
  destruct (registers_get_by_address env _ device type i) as [record|];
    destruct type; cbn [fst snd];
    try (pose proof (proj_uuid4 (registry_read w1)) as Hu;
         destruct (uuid4 env (registry_read w1)) as [id w2];
         cbn [snd] in *; rewrite Hu);
    rewrite proj_registry_read; exact H1.
Qed.

Lemma configure_attributes_keeps device size s w :
  proj (snd (configure_attributes env device size s w)) = proj w.
Proof.
  unfold configure_attributes.
  apply (fold_left_preserves (fun sw => proj (snd sw) = proj w)); [reflexivity|].
  intros [s1 w1] i H1. cbn [snd] in H1. unfold get_by_address.
  destruct (registers_get_by_address env _ device ATTRIBUTE i) as [[]|];
    cbn [fst snd];
    try (pose proof (proj_uuid4 (registry_read w1)) as Hu;
         destruct (uuid4 env (registry_read w1)) as [id' w2];
         cbn [snd] in *; rewrite Hu);
    rewrite proj_registry_read; exact H1.
Qed.

Lemma configure_settings_keeps device size s w :
  proj (snd (configure_settings env device size s w)) = proj w.
Proof.
  unfold configure_settings.
  apply (fold_left_preserves (fun sw => proj (snd sw) = proj w)); [reflexivity|].
  intros [s1 w1] i H1. cbn [snd] in H1. unfold get_by_address.
  destruct (registers_get_by_address env _ device SETTING i) as [[]|];
    cbn [fst snd];
    try (pose proof (proj_uuid4 (registry_read w1)) as Hu;
         destruct (uuid4 env (registry_read w1)) as [id' w2];
         cbn [snd] in *; rewrite Hu);
    rewrite proj_registry_read; exact H1.
Qed.

Lemma configure_device_keeps d s w :
  proj (snd (configure_device env d s w)) = proj w.
Proof.
  unfold configure_device.
  pose proof (configure_registers_keeps (device_id d) (input_registers_size d) INPUT s w) as H1.
  destruct (configure_registers env (device_id d) (input_registers_size d) INPUT s w) as [s1 w1].
  pose proof (configure_registers_keeps (device_id d) (output_registers_size d) OUTPUT s1 w1) as H2.
  destruct (configure_registers env (device_id d) (output_registers_size d) OUTPUT s1 w1) as [s2 w2].
  pose proof (configure_attributes_keeps (device_id d) (attributes_registers_size d) s2
                (logger ConfiguredRegisters w2)) as H3.
  destruct (configure_attributes env (device_id d) (attributes_registers_size d) s2
              (logger ConfiguredRegisters w2)) as [s3 w3].
  pose proof (configure_settings_keeps (device_id d) (settings_registers_size d) s3
                (logger ConfiguredAttributes w3)) as H4.
  destruct (configure_settings env (device_id d) (settings_registers_size d) s3
              (logger ConfiguredAttributes w3)) as [s4 w4].
  cbn [snd] in *. rewrite proj_logger, H4, proj_logger, H3, proj_logger, H2, H1.
  reflexivity.
Qed.

Hypothesis proj_set_state :
  forall device state w, proj (registry_set_state device state w) = proj w.

Lemma discover_device_from_keeps found s w :
  proj (snd (discover_device_from env found s w)) = proj w.
Proof.
  revert s w. induction found as [|d rest IH]; intros s w.
  - cbn [discover_device_from disable snd]. rewrite !proj_logger. reflexivity.
  - cbn [discover_device_from].
    destruct (devices_get_by_id env (registry_reads w) (device_id d)) as [record|].
    + destruct (registry_device_address record =? ADDRESS_NOT_ASSIGNED).
      * destruct (devices_find_free_address env _ (device_client_id d)) as [a|].
        -- rewrite configure_device_keeps, proj_set_state, proj_logger,
             !proj_registry_read. reflexivity.
        -- rewrite IH, proj_logger, !proj_registry_read. reflexivity.
      * rewrite configure_device_keeps, proj_set_state, proj_logger,
          !proj_registry_read. reflexivity.
    + destruct (devices_find_free_address env _ (device_client_id d)) as [a|].
      * rewrite configure_device_keeps, proj_logger, !proj_registry_read. reflexivity.
      * rewrite IH, proj_logger, !proj_registry_read. reflexivity.
Qed.

End WorldKeeps.

Lemma client_calls_registry_read w :
  client_calls (registry_read w) = client_calls w.
Proof. destruct w. reflexivity. Qed.

Lemma client_calls_uuid4 env w : client_calls (snd (uuid4 env w)) = client_calls w.
Proof. destruct w. reflexivity. Qed.

Lemma client_calls_set_state device state w :
  client_calls (registry_set_state device state w) = client_calls w.
Proof. destruct w. reflexivity. Qed.

Lemma client_calls_discover_device env s w :
  client_calls (snd (discover_device env s w)) = client_calls w.
Proof.
  exact (discover_device_from_keeps client_calls env client_calls_registry_read
           (client_calls_uuid4 env) client_calls_logger client_calls_set_state
           (found_devices s) s w).
Qed.

(** ** One tick *)

Lemma pairing_cmd_touch wp att tot t s :
  pairing_cmd (touch wp att tot t s) = pairing_cmd s.
Proof. destruct s. reflexivity. Qed.

Lemma touch_same s :
  touch (waiting_for_packet s) (attempts s) (total_attempts s)
    (last_request_send_timestamp s) s = s.
Proof. destruct s. reflexivity. Qed.

Ltac settle_cmd Hcmd :=
  repeat first
    [ rewrite Hcmd
    | rewrite pairing_cmd_touch
    | rewrite bool_decide_eq_false_2 by discriminate
    | rewrite bool_decide_eq_true_2 by reflexivity
    | progress cbn [fst snd] ].

Lemma send_pairing_cmd_spec env d s w :
  exists waiting att total sent_at,
    fst (send_pairing_cmd env d s w) = touch waiting att total sent_at s /\
    (waiting = Some Packet_DISCOVER /\ att = attempts s + 1
     /\ total = total_attempts s + 1
     /\ requests (snd (send_pairing_cmd env d s w)) = requests w + 1
     \/ pairing_cmd s <> WRITE_ADDRESS /\ waiting = None /\ att = 0
        /\ (total = total_attempts s + 1
            /\ requests (snd (send_pairing_cmd env d s w)) = requests w + 1
            \/ total = total_attempts s
               /\ requests (snd (send_pairing_cmd env d s w)) = requests w)
     \/ pairing_cmd s = SEARCH /\ waiting = waiting_for_packet s
        /\ att = attempts s /\ total = total_attempts s
        /\ requests (snd (send_pairing_cmd env d s w)) = requests w) /\
    searches (snd (send_pairing_cmd env d s w)) = searches w.
Proof.
  unfold send_pairing_cmd.
  destruct (pairing_cmd s) eqn:Hcmd.
  - (* SEARCH: no handler *)
    settle_cmd Hcmd.
    exists (waiting_for_packet s), (attempts s), (total_attempts s),
      (last_request_send_timestamp s).
    split; [symmetry; apply touch_same|]. split; [|reflexivity].
    right. right. repeat split.
  - (* WRITE_ADDRESS *)
    settle_cmd Hcmd.
    destruct (broadcast_write_address_handler_spec env d s w) as (Hs & Hr & Hsr).
    destruct (broadcast_write_address_handler env d s w) as [s' w'].
    cbn [fst snd] in *. subst s'. settle_cmd Hcmd.
    do 4 eexists. split; [reflexivity|]. split; [|exact Hsr].
    left. repeat split. exact Hr.
  - (* PROVIDE_REGISTER_STRUCTURE *)
    settle_cmd Hcmd.
    destruct (send_provide_register_structure_handler_spec env d s w)
      as ((wp & att & tot & t & Hs & Hcase) & Hsr).
    destruct (send_provide_register_structure_handler env d s w) as [s' w'].
    cbn [fst snd] in *. subst s'. settle_cmd Hcmd.
    exists wp, att, tot, t. split; [reflexivity|]. split; [|exact Hsr].
    destruct Hcase as [(-> & -> & -> & Hr)|(-> & -> & Hr)].
    + left. repeat split. exact Hr.
    + right. left. repeat split; [discriminate | exact Hr].
  - (* PAIRING_FINISHED *)
    settle_cmd Hcmd.
    destruct (send_finalize_pairing_handler_spec env d s w)
      as ((wp & att & t & Hs & Hcase) & Hr & Hsr).
    destruct (send_finalize_pairing_handler env d s w) as [s' w'].
    cbn [fst snd] in *. subst s'.
    exists wp, att, (total_attempts s + 1), t. split; [reflexivity|].
    split; [|exact Hsr].
    destruct Hcase as [[-> ->]|[-> ->]].
    + left. repeat split. exact Hr.
    + right. left. repeat split; [discriminate|]. left. split; [reflexivity|exact Hr].
Qed.

(** ** The frames a handler hands to the client *)

Lemma clients_mark_request_sent env s w :
  clients (fst (mark_request_sent env s w)) = clients s.
Proof. unfold clients. rewrite client_id_mark_request_sent. reflexivity. Qed.

Lemma frames_mark_request_sent env s w :
  frames (snd (mark_request_sent env s w)) = frames w /\
  broadcasts (snd (mark_request_sent env s w)) = broadcasts w.
Proof. apply frames_same, client_calls_mark_request_sent. Qed.

Lemma frames_logger m w :
  frames (logger m w) = frames w /\ broadcasts (logger m w) = broadcasts w.
Proof. apply frames_same, client_calls_logger. Qed.

Lemma frames_time_time env w :
  frames (snd (time_time env w)) = frames w /\
  broadcasts (snd (time_time env w)) = broadcasts w.
Proof. apply frames_same, client_calls_time_time. Qed.

Lemma broadcast_search_devices_handler_frames env s w :
  frames (snd (broadcast_search_devices_handler env s w)) = frames w + clients s /\
  broadcasts (snd (broadcast_search_devices_handler env s w))
  = broadcasts w + clients s.
Proof.
  unfold broadcast_search_devices_handler.
  destruct (frames_mark_request_sent env s w) as [Hf1 Hb1].
  pose proof (clients_mark_request_sent env s w) as Hcl.
  destruct (mark_request_sent env s w) as [s1 w1]. cbn [fst snd] in *.
  match goal with
  | |- context [broadcast ?e ?s' ?p ?w'] =>
      destruct (broadcast_frames e s' p w') as [Hf Hb];
      destruct (broadcast e s' p w') as [p' w2]
  end.
  cbn [snd] in *.
  destruct (frames_logger PreparingToBroadcastSearch w1) as [Hf2 Hb2].
  split; lia.
Qed.

Lemma broadcast_write_address_handler_frames env d s w :
  frames (snd (broadcast_write_address_handler env d s w)) = frames w + clients s.
Proof.
  unfold broadcast_write_address_handler.
  destruct (frames_mark_request_sent env s w) as [Hf1 _].
  pose proof (clients_mark_request_sent env s w) as Hcl.
  destruct (mark_request_sent env s w) as [s1 w1]. cbn [fst snd] in *.
  match goal with
  | |- context [broadcast ?e ?s' ?p ?w'] =>
      destruct (broadcast_frames e s' p w') as [Hf _];
      destruct (broadcast e s' p w') as [p' w2]
  end.
  cbn [snd] in *.
  destruct (frames_logger PreparingToBroadcastWriteAddress w1) as [Hf2 _].
  lia.
Qed.

Lemma send_data_inserted_frames env data address s w :
  frames (snd (send_data_inserted env data address s w)) = frames w + clients s.
Proof.
  unfold send_data_inserted.
  assert (H : frames
                (snd (match client_id s with
                      | Some ids =>
                          send_to_each env ids address (ProtocolVersion_V1 :: data)
                            false w
                      | None =>
                          client_call env
                            {| call_address := Some address;
                               call_payload := ProtocolVersion_V1 :: data;
                               call_waiting_time := 0; call_client_id := None |} w
                      end))
              = frames w + clients s).
  { unfold clients. destruct (client_id s) as [ids|].
    - apply send_to_each_frames.
    - apply frames_client_call. }
  destruct (match client_id s with Some _ => _ | None => _ end)
    as [[result data'] w1].
  cbn [snd] in H. destruct result; cbn [negb snd]; [exact H|].
  destruct (frames_time_time env w1) as [Ht _].
  destruct (time_time env w1) as [now w2]. cbn [snd] in *. lia.
Qed.

Lemma send_data_to_device_frames env k cmd rest address s w :
  frames (snd (send_data_to_device env (k :: PairingCommand_value cmd :: rest)
                 address s w))
  = frames w + clients s.
Proof.
  rewrite send_data_to_device_returns.
  destruct (frames_mark_request_sent env s w) as [Hf1 _].
  pose proof (clients_mark_request_sent env s w) as Hcl.
  destruct (mark_request_sent env s w) as [s1 w1]. cbn [fst snd] in *.
  match goal with
  | |- context [send_data_inserted ?e ?p ?a ?s' ?w'] =>
      pose proof (send_data_inserted_frames e p a s' w') as Hf;
      destruct (send_data_inserted e p a s' w') as [[p' s2] w2]
  end.
  cbn [snd] in *.
  destruct (frames_logger PreparingToSendPairingCommand w1) as [Hf2 _].
  lia.
Qed.

Lemma send_finalize_pairing_handler_frames env d s w :
  frames (snd (send_finalize_pairing_handler env d s w)) = frames w + clients s.
Proof.
  unfold send_finalize_pairing_handler.
  pose proof (send_data_to_device_frames env Packet_DISCOVER PAIRING_FINISHED []
                (device_address d) s w) as H.
  change (PairingCommand_value PAIRING_FINISHED) with 4 in *.
  destruct (send_data_to_device env [Packet_DISCOVER; 4] (device_address d) s w)
    as [[[o p'] s'] w'].
  exact H.
Qed.

Lemma send_provide_register_structure_handler_frames env d s w :
  frames (snd (send_provide_register_structure_handler env d s w))
  = frames w
    + clients s
      * (requests (snd (send_provide_register_structure_handler env d s w))
         - requests w).
Proof.
  unfold send_provide_register_structure_handler.
  destruct (processing_register_address s) as [address|];
    [destruct (processing_register_type s) as [type|]|].
  - match goal with
    | |- context [send_data_to_device ?e (?k :: _ :: ?r) ?a ?s ?w] =>
        destruct (send_data_to_device_spec e k PROVIDE_REGISTER_STRUCTURE r a s w)
          as (_ & Hr & _);
        pose proof (send_data_to_device_frames e k PROVIDE_REGISTER_STRUCTURE r a s w)
          as Hf;
        destruct (send_data_to_device e
                    (k :: PairingCommand_value PROVIDE_REGISTER_STRUCTURE :: r) a s w)
          as [[[o p'] s'] w']
    end.
    cbn [snd] in *. rewrite Hr, Hf. lia.
  - cbn [snd]. rewrite requests_logger. cbn [is_request].
    destruct (frames_logger RegisterAddressNotConfigured w) as [-> _]. lia.
  - cbn [snd]. rewrite requests_logger. cbn [is_request].
    destruct (frames_logger RegisterAddressNotConfigured w) as [-> _]. lia.
Qed.

Lemma send_pairing_cmd_frames env d s w :
  frames (snd (send_pairing_cmd env d s w))
  = frames w
    + clients s * (requests (snd (send_pairing_cmd env d s w)) - requests w).
Proof.
  unfold send_pairing_cmd.
  destruct (pairing_cmd s) eqn:Hcmd.
  - settle_cmd Hcmd. lia.
  - settle_cmd Hcmd.
    destruct (broadcast_write_address_handler_spec env d s w) as (Hs & Hr & _).
    pose proof (broadcast_write_address_handler_frames env d s w) as Hf.
    destruct (broadcast_write_address_handler env d s w) as [s' w'].
    cbn [fst snd] in *. subst s'. settle_cmd Hcmd. rewrite Hr, Hf. lia.
  - settle_cmd Hcmd.
    destruct (send_provide_register_structure_handler_spec env d s w)
      as ((wp & att & tot & t & Hs & _) & _).
    pose proof (send_provide_register_structure_handler_frames env d s w) as Hf.
    destruct (send_provide_register_structure_handler env d s w) as [s' w'].
    cbn [fst snd] in *. subst s'. settle_cmd Hcmd. exact Hf.
  - settle_cmd Hcmd.
    destruct (send_finalize_pairing_handler_spec env d s w) as (_ & Hr & _).
    pose proof (send_finalize_pairing_handler_frames env d s w) as Hf.
    destruct (send_finalize_pairing_handler env d s w) as [s' w'].
    cbn [fst snd] in *. rewrite Hr, Hf. lia.
Qed.

Lemma client_id_move_to_next_cmd s :
  client_id (move_to_next_cmd s) = client_id s.
Proof.
  unfold move_to_next_cmd, move_to_next_register_for_init.
  repeat match goal with
         | |- context [if ?b then _ else _] => destruct b
         | |- context [match ?x with Some _ => _ | None => _ end] => destruct x
         end; destruct s; reflexivity.
Qed.

Lemma clients_move_to_next_cmd s : clients (move_to_next_cmd s) = clients s.
Proof. unfold clients. rewrite client_id_move_to_next_cmd. reflexivity. Qed.

Lemma move_to_next_cmd_total s :
  total_attempts (move_to_next_cmd s) = total_attempts s.
Proof.
  unfold move_to_next_cmd, move_to_next_register_for_init.
  repeat match goal with
         | |- context [if ?b then _ else _] => destruct b
         | |- context [match ?x with Some _ => _ | None => _ end] => destruct x
         end; destruct s; reflexivity.
Qed.

Lemma move_to_next_cmd_waiting s :
  waiting_for_packet s = None -> waiting_for_packet (move_to_next_cmd s) = None.
Proof.
  intros H. unfold move_to_next_cmd, move_to_next_register_for_init.
  repeat match goal with
         | |- context [if ?b then _ else _] => destruct b
         | |- context [match ?x with Some _ => _ | None => _ end] => destruct x
         end; destruct s; cbn in *; congruence.
Qed.

Lemma disabled_state_fields s :
  broadcasting_search_finished (disabled_state s) = false /\
  attempts (disabled_state s) = 0 /\
  total_attempts (disabled_state s) = 0 /\
  waiting_for_packet (disabled_state s) = None /\
  pairing_enabled (disabled_state s) = false.
Proof. destruct s. repeat split. Qed.

Theorem loop_tick env s w :
  tick env s w (fst (loop env s w)) (snd (loop env s w)).
Proof.
  unfold loop.
  destruct (pairing_enabled s) eqn:Hen; cbn [negb].
  2:{ apply tick_disabled. exact Hen. }
  destruct (MAX_TOTAL_TRANSMIT_ATTEMPTS <=? total_attempts s) eqn:Hcap.
  - (* the cap: disable(), then the search branch of the object just reset *)
    apply Z.leb_le in Hcap. cbn [disable].
    fold (disabled_state s).
    destruct (disabled_state_fields s) as (Hb & Ha & Ht & Hw & _).
    rewrite Hb, Ha, Hw. cbn [negb].
    change (0 <? MAX_SEARCHING_ATTEMPTS) with true. cbv iota.
    match goal with
    | |- context [broadcast_search_devices_handler ?e ?s' ?w'] =>
        destruct (broadcast_search_devices_handler_spec e s' w') as (Hs & Hr & Hsr);
        destruct (broadcast_search_devices_handler_frames e s' w') as (Hf & Hbr);
        destruct (broadcast_search_devices_handler e s' w') as [s2 w2]
    end.
    cbn [fst snd] in *. subst s2. rewrite Ha, Ht.
    assert (Hcl : clients (disabled_state s) = clients s) by (destruct s; reflexivity).
    rewrite Hcl in *.
    apply tick_capped; try assumption.
    + rewrite Hr, !requests_logger. cbn [is_request]. lia.
    + rewrite Hsr, !searches_logger. cbn [is_search]. lia.
    + rewrite Hf. rewrite !(proj1 (frames_logger _ _)). reflexivity.
    + rewrite Hbr. rewrite !(proj2 (frames_logger _ _)). reflexivity.
  - apply Z.leb_gt in Hcap.
    pose proof (time_time_reading env w) as Hnow.
    destruct (silent_time_time env w) as [Hrt Hst].
    pose proof (client_calls_time_time env w) as Hct.
    destruct (frames_time_time env w) as [Hft Hbt].
    destruct (time_time env w) as [now wt]. cbn [fst snd] in Hnow, Hrt, Hst, Hct, Hft, Hbt.
    subst now.
    destruct (broadcasting_search_finished s) eqn:Hbsf; cbn [negb].
    + (* enrollment *)
      destruct (pairing_device s) as [d|] eqn:Hpd.
      2:{ apply tick_no_device; assumption. }
      destruct (MAX_TRANSMIT_ATTEMPTS <=? attempts s) eqn:Hatt.
      * apply Z.leb_le in Hatt.
        apply (tick_give_up env s w d (logger PairingCouldNotBeFinished w));
          try assumption.
        -- left. exact Hatt.
        -- rewrite requests_logger. cbn [is_request]. lia.
        -- rewrite searches_logger. cbn [is_search]. lia.
        -- apply client_calls_logger.
      * apply Z.leb_gt in Hatt.
        destruct (PrimFloat.leb MAX_PAIRING_DELAY _) eqn:Hlate.
        -- apply (tick_give_up env s w d (logger PairingCouldNotBeFinished wt));
             try assumption.
           ++ right. exact Hlate.
           ++ rewrite requests_logger. cbn [is_request]. lia.
           ++ rewrite searches_logger. cbn [is_search]. lia.
           ++ rewrite client_calls_logger. exact Hct.
        -- destruct (waiting_for_packet s) as [p|] eqn:Hwait.
           ++ cbn [fst snd]. apply (tick_waiting env s w d); try assumption.
              rewrite Hwait. discriminate.
           ++ match goal with
              | |- context [send_pairing_cmd ?e ?d' ?s' ?w'] =>
                  destruct (send_pairing_cmd_spec e d' s' w')
                    as (wp & att & tot & t & Hs & Hcase & Hsr);
                  pose proof (send_pairing_cmd_frames e d' s' w') as Hf;
                  destruct (send_pairing_cmd e d' s' w') as [s2 w2]
              end.
              cbn [fst snd] in *. subst s2.
              rewrite clients_move_to_next_cmd in Hf.
              apply (tick_request env s w d); try assumption;
                [|congruence|rewrite Hf, Hft, Hrt; reflexivity].
              rewrite (move_to_next_cmd_total s) in Hcase.
              rewrite (move_to_next_cmd_waiting s Hwait) in Hcase.
              rewrite Hrt in Hcase. exact Hcase.
    + (* search *)
      destruct (attempts s <? MAX_SEARCHING_ATTEMPTS) eqn:Hatt.
      * apply Z.ltb_lt in Hatt.
        assert (Hsend : forall w0,
                  requests w0 = requests w ->
                  searches w0 = searches w ->
                  client_calls w0 = client_calls w ->
                  (waiting_for_packet s = None
                   \/ nothing_sent s = true
                   \/ delay_reached env SEARCHING_DELAY s w = true) ->
                  tick env s w (fst (broadcast_search_devices_handler env s w0))
                    (snd (broadcast_search_devices_handler env s w0))).
        { intros w0 Hr0 Hs0 Hc0 Hwhy.
          destruct (broadcast_search_devices_handler_spec env s w0) as (Hs & Hr & Hsr).
          destruct (broadcast_search_devices_handler_frames env s w0) as (Hf & Hbr).
          destruct (frames_same _ _ Hc0) as [Hf0 Hb0].
          rewrite Hs. apply tick_search; try assumption; congruence. }
        destruct (waiting_for_packet s) as [p|] eqn:Hwait.
        -- destruct (PrimFloat.eqb (last_request_send_timestamp s) 0) eqn:Hzero.
           ++ apply Hsend; try reflexivity.
              right. left. exact Hzero.
           ++ destruct (PrimFloat.leb SEARCHING_DELAY _) eqn:Hdue.
              ** apply Hsend; try assumption.
                 right. right. exact Hdue.
              ** cbn [fst snd]. apply tick_search_wait; try assumption.
                 rewrite Hwait. discriminate.
        -- apply Hsend; try reflexivity. left. reflexivity.
      * apply Z.ltb_ge in Hatt. apply tick_search_end; assumption.
Qed.

(** ** Consequences of a tick *)

Lemma discover_device_spec env s w :
  silent w (snd (discover_device env s w)) /\
  (fst (discover_device env s w) = disabled_state s
   \/ exists before d rest a regs,
        found_devices s = before ++ d :: rest /\
        fst (discover_device env s w)
        = set_pairing_device_registers regs
            (discovered s (set_device_address a d) rest)).
Proof. apply discover_device_from_spec. Qed.

(** Every tick prepares at most one request, and the total-attempts
    counter counts it, unless the tick has reset the counter. *)
Ltac finish_arith :=
  unfold MAX_TOTAL_TRANSMIT_ATTEMPTS, MAX_SEARCHING_ATTEMPTS,
    MAX_TRANSMIT_ATTEMPTS in *;
  first [lia | reflexivity | congruence | exfalso; lia].

Lemma tick_total_attempts env s w s' w' :
  tick env s w s' w' ->
  (requests w' = requests w \/ requests w' = requests w + 1) /\
  (total_attempts s' = total_attempts s + (requests w' - requests w)
   \/ total_attempts s' = requests w' - requests w) /\
  (total_attempts s <= MAX_TOTAL_TRANSMIT_ATTEMPTS ->
   total_attempts s' <= MAX_TOTAL_TRANSMIT_ATTEMPTS) /\
  (pairing_enabled s = true ->
   MAX_TOTAL_TRANSMIT_ATTEMPTS <= total_attempts s ->
   pairing_enabled s' = false).
Proof.
  unfold MAX_TOTAL_TRANSMIT_ATTEMPTS.
  intros H. destruct H.
  - repeat split; intros; finish_arith.
  - destruct s; cbn in *. repeat split; intros; finish_arith.
  - destruct s; cbn in *. repeat split; intros; finish_arith.
  - repeat split; intros; finish_arith.
  - destruct (discover_device_spec env (set_broadcasting_search_finished true s) w)
      as ([Hr _] & [->|(before & d & rest & a & regs & _ & ->)]);
      rewrite Hr; destruct s; cbn in *; repeat split; intros; finish_arith.
  - repeat split; intros; finish_arith.
  - destruct (discover_device_spec env s w1)
      as ([Hr _] & [->|(before & d0 & rest & a & regs & _ & ->)]);
      rewrite Hr; destruct s; cbn in *; repeat split; intros; finish_arith.
  - repeat split; intros; finish_arith.
  - pose proof (move_to_next_cmd_total s) as Hm.
    destruct (move_to_next_cmd s); destruct s; cbn in *.
    repeat split; intros; finish_arith.
Qed.

Lemma loop_total_attempts env s w :
  total_attempts s <= MAX_TOTAL_TRANSMIT_ATTEMPTS ->
  total_attempts (fst (loop env s w)) <= MAX_TOTAL_TRANSMIT_ATTEMPTS.
Proof. apply (tick_total_attempts env s w _ _ (loop_tick env s w)). Qed.

Lemma discover_device_total_attempts env s w :
  total_attempts (fst (discover_device env s w)) = 0.
Proof.
  destruct (discover_device_spec env s w)
    as (_ & [->|(before & d & rest & a & regs & _ & ->)]);
    destruct s; reflexivity.
Qed.

Lemma step_total_attempts env sw e :
  total_attempts (fst sw) <= MAX_TOTAL_TRANSMIT_ATTEMPTS ->
  total_attempts (fst (step env sw e)) <= MAX_TOTAL_TRANSMIT_ATTEMPTS.
Proof.
  destruct sw as [s w]. cbn [fst]. intros H.
  destruct e; cbn [step fst snd].
  - apply loop_total_attempts, H.
  - destruct arg as [[one|many]|]; destruct s; cbn;
      unfold MAX_TOTAL_TRANSMIT_ATTEMPTS; lia.
  - destruct s; cbn. unfold MAX_TOTAL_TRANSMIT_ATTEMPTS. lia.
  - unfold append_device. destruct (find _ _); destruct s; exact H.
  - destruct s; exact H.
  - destruct s; exact H.
  - destruct s; exact H.
  - destruct s; exact H.
  - destruct s; exact H.
  - unfold move_to_next_register_for_init.
    repeat match goal with
           | |- context [if ?b then _ else _] => destruct b
           | |- context [match ?x with Some _ => _ | None => _ end] => destruct x
           end; destruct s; exact H.
  - rewrite discover_device_total_attempts. unfold MAX_TOTAL_TRANSMIT_ATTEMPTS. lia.
Qed.

Lemma run_total_attempts env events sw :
  total_attempts (fst sw) <= MAX_TOTAL_TRANSMIT_ATTEMPTS ->
  total_attempts (fst (run env sw events)) <= MAX_TOTAL_TRANSMIT_ATTEMPTS.
Proof.
  revert sw. induction events as [|e events IH]; intros sw H; [exact H|].
  cbn [run fold_left]. apply IH, step_total_attempts, H.
Qed.

Lemma discover_device_keeps_pairing env s w :
  client_id (fst (discover_device env s w)) = client_id s /\
  (pairing_device (fst (discover_device env s w)) <> None ->
   pairing_enabled (fst (discover_device env s w)) = pairing_enabled s).
Proof.
  destruct (discover_device_spec env s w)
    as (_ & [->|(before & d & rest & a & regs & _ & ->)]);
    destruct s; cbn; split; try reflexivity.
  intros H. exfalso. apply H. reflexivity.
Qed.

Lemma clients_discover_device env s w :
  clients (fst (discover_device env s w)) = clients s.
Proof.
  unfold clients. rewrite (proj1 (discover_device_keeps_pairing env s w)).
  reflexivity.
Qed.

(** A tick hands the client no frame, or one frame for every client; the
    total-attempts counter counts these rounds, unless the tick resets it:
    to 0 in [discover_device], to 1 in the tick that finds it at the cap. *)
Lemma tick_frames env s w s' w' :
  tick env s w s' w' ->
  clients s' = clients s /\
  exists k,
    (k = 0 \/ k = 1) /\
    requests w' = requests w + k /\
    frames w' = frames w + k * clients s /\
    (total_attempts s' = total_attempts s + k
     \/ k = 0 /\ total_attempts s' = 0
     \/ k = 1 /\ total_attempts s' = 1
        /\ MAX_TOTAL_TRANSMIT_ATTEMPTS <= total_attempts s).
Proof.
  intros H. destruct H.
  - split; [reflexivity|]. exists 0. do 3 (split; [lia|]). left. lia.
  - split; [destruct s; reflexivity|]. exists 1. do 3 (split; [lia|]).
    right. right. destruct s; cbn. repeat split; assumption.
  - split; [apply clients_touch|]. exists 1. do 3 (split; [lia|]).
    left. destruct s; reflexivity.
  - split; [reflexivity|]. exists 0.
    match goal with
    | Hc : client_calls _ = client_calls _ |- _ =>
        destruct (frames_same _ _ Hc) as [Hf _]
    end.
    do 3 (split; [lia|]). left. lia.
  - split.
    { rewrite clients_discover_device. destruct s; reflexivity. }
    exists 0.
    destruct (discover_device_spec env (set_broadcasting_search_finished true s) w)
      as ([Hr _] & _).
    destruct (frames_same _ _
                (client_calls_discover_device env
                   (set_broadcasting_search_finished true s) w)) as [Hf _].
    do 3 (split; [lia|]). right. left. split; [reflexivity|].
    apply discover_device_total_attempts.
  - split; [reflexivity|]. exists 0. do 3 (split; [lia|]). left. lia.
  - split; [apply clients_discover_device|]. exists 0.
    destruct (discover_device_spec env s w1) as ([Hr _] & _).
    destruct (frames_same _ _ (client_calls_discover_device env s w1)) as [Hf _].
    match goal with
    | Hc : client_calls w1 = client_calls w |- _ =>
        destruct (frames_same _ _ Hc) as [Hf1 _]
    end.
    do 3 (split; [lia|]). right. left. split; [reflexivity|].
    apply discover_device_total_attempts.
  - split; [reflexivity|]. exists 0.
    match goal with
    | Hc : client_calls _ = client_calls _ |- _ =>
        destruct (frames_same _ _ Hc) as [Hf _]
    end.
    do 3 (split; [lia|]). left. lia.
  - split; [rewrite clients_touch; apply clients_move_to_next_cmd|].
    assert (Htot : total_attempts (touch waiting att total sent_at (move_to_next_cmd s))
                   = total)
      by (destruct (move_to_next_cmd s); reflexivity).
    rewrite Htot.
    match goal with
    | Hcase : _ \/ _ |- _ =>
        destruct Hcase
          as [(_ & _ & -> & Hr)|[(_ & _ & _ & [[-> Hr]|[-> Hr]])|(_ & _ & _ & -> & Hr)]]
    end.
    + exists 1. do 3 (split; [lia|]). left. lia.
    + exists 1. do 3 (split; [lia|]). left. lia.
    + exists 0. do 3 (split; [lia|]). left. lia.
    + exists 0. do 3 (split; [lia|]). left. lia.
Qed.

Lemma step_total_attempts_nonneg env sw e :
  0 <= total_attempts (fst sw) ->
  0 <= total_attempts (fst (step env sw e)).
Proof.
  destruct sw as [s w]. cbn [fst]. intros H.
  destruct e; cbn [step fst snd].
  - destruct (tick_frames env s w _ _ (loop_tick env s w))
      as (_ & k & Hk & _ & _ & Ht). lia.
  - destruct arg as [[one|many]|]; destruct s; cbn; lia.
  - destruct s; cbn. lia.
  - unfold append_device. destruct (find _ _); destruct s; exact H.
  - destruct s; exact H.
  - destruct s; exact H.
  - destruct s; exact H.
  - destruct s; exact H.
  - destruct s; exact H.
  - unfold move_to_next_register_for_init.
    repeat match goal with
           | |- context [if ?b then _ else _] => destruct b
           | |- context [match ?x with Some _ => _ | None => _ end] => destruct x
           end; destruct s; exact H.
  - rewrite discover_device_total_attempts. lia.
Qed.

Lemma run_total_attempts_nonneg env events sw :
  0 <= total_attempts (fst sw) ->
  0 <= total_attempts (fst (run env sw events)).
Proof.
  revert sw. induction events as [|e events IH]; intros sw H; [exact H|].
  cbn [run fold_left]. apply IH, step_total_attempts_nonneg, H.
Qed.

(** A call other than [enable] that does not lower the counter hands the
    client as many frames as there are clients for every unit the counter
    goes up. *)
Lemma step_frames env sw e :
  is_enable e = false ->
  0 <= total_attempts (fst sw) ->
  total_attempts (fst sw) <= total_attempts (fst (step env sw e)) ->
  clients (fst (step env sw e)) = clients (fst sw) /\
  frames (snd (step env sw e))
  = frames (snd sw)
    + clients (fst sw)
      * (total_attempts (fst (step env sw e)) - total_attempts (fst sw)).
Proof.
  destruct sw as [s w]. cbn [fst snd]. intros He Hpos.
  destruct e; try discriminate; cbn [step fst snd].
  - intros Hup.
    destruct (tick_frames env s w _ _ (loop_tick env s w))
      as (Hcl & k & Hk & _ & Hf & Ht).
    split; [exact Hcl|]. rewrite Hf.
    unfold MAX_TOTAL_TRANSMIT_ATTEMPTS in Ht.
    destruct Ht as [->|[[-> Ht]|(-> & Ht & Hcap)]]; [lia| |lia].
    rewrite Ht in *. replace (total_attempts s) with 0 by lia. lia.
  - intros Hup. assert (Ht : total_attempts s = 0) by (destruct s; cbn in *; lia).
    split; [destruct s; reflexivity|]. cbn [disable fst snd].
    rewrite (proj1 (frames_logger _ _)), Ht. destruct s; cbn. lia.
  - unfold append_device. intros _.
    destruct (find _ _); destruct s; cbn; split; try reflexivity; lia.
  - intros _. destruct s; cbn; split; try reflexivity; lia.
  - intros _. destruct s; cbn; split; try reflexivity; lia.
  - intros _. destruct s; cbn; split; try reflexivity; lia.
  - intros _. destruct s; cbn; split; try reflexivity; lia.
  - intros _. destruct s; cbn; split; try reflexivity; lia.
  - intros _. unfold move_to_next_register_for_init.
    repeat match goal with
           | |- context [if ?b then _ else _] => destruct b
           | |- context [match ?x with Some _ => _ | None => _ end] => destruct x
           end; destruct s; cbn; split; try reflexivity; lia.
  - rewrite discover_device_total_attempts. intros Hup.
    split; [apply clients_discover_device|].
    rewrite (proj1 (frames_same _ _ (client_calls_discover_device env s w))).
    replace (total_attempts s) with 0 by lia. lia.
Qed.

Lemma run_frames env events sw :
  forallb (fun e => negb (is_enable e)) events = true ->
  0 <= total_attempts (fst sw) ->
  never_reset env sw events = true ->
  clients (fst (run env sw events)) = clients (fst sw) /\
  frames (snd (run env sw events))
  = frames (snd sw)
    + clients (fst sw)
      * (total_attempts (fst (run env sw events)) - total_attempts (fst sw)).
Proof.
  revert sw. induction events as [|e events IH]; intros sw Hev Hpos Hup.
  - cbn. split; [reflexivity | lia].
  - cbn [forallb] in Hev. apply andb_true_iff in Hev. destruct Hev as [He Hev].
    apply negb_true_iff in He.
    cbn [never_reset] in Hup. apply andb_true_iff in Hup.
    destruct Hup as [Hup1 Hup]. apply Z.leb_le in Hup1.
    destruct (step_frames env sw e He Hpos Hup1) as [Hcl Hf].
    destruct (IH (step env sw e) Hev (step_total_attempts_nonneg env sw e Hpos) Hup)
      as [Hcl' Hf'].
    cbn [run fold_left]. fold (run env (step env sw e) events).
    split; [congruence|]. rewrite Hf', Hf, Hcl. lia.
Qed.

Lemma clients_nonneg s : 0 <= clients s.
Proof. unfold clients. destruct (client_id s); lia. Qed.

(** C2, as the code has it.  In every state [s] the calls of the connector
    and of the receiver can lead to, the total-attempts counter is within
    [0 .. MAX_TOTAL_TRANSMIT_ATTEMPTS = 100], and a tick that finds it at
    100 while pairing is enabled disables pairing.  A tick hands the client
    no frame or one frame for every client of the client list (one when
    there is no list), and the counter goes up by one for such a round of
    frames unless the tick resets it.  [discover_device] sets the counter
    to 0 and leaves pairing enabled when it takes up a device.  So the
    counter bounds the frames between two resets, not those of a pairing
    session: through any further calls other than [enable] that never lower
    the counter, the frames handed to the client are the clients times the
    growth of the counter, at most 100 for every client. *)
Theorem total_attempts_capped (env : Env) (events more : list Event) :
  let s := fst (run env (initial_state, fresh_world) events) in
  let w := snd (run env (initial_state, fresh_world) events) in
  let s' := fst (loop env s w) in
  let w' := snd (loop env s w) in
  let s'' := fst (run env (s, w) more) in
  let w'' := snd (run env (s, w) more) in
  0 <= total_attempts s <= 100 /\
  (pairing_enabled s = true -> 100 <= total_attempts s ->
   pairing_enabled s' = false) /\
  (exists k,
     (k = 0 \/ k = 1) /\
     frames w' = frames w + k * clients s /\
     (total_attempts s' = total_attempts s + k \/ total_attempts s' = k)) /\
  (total_attempts (fst (discover_device env s w)) = 0 /\
   (pairing_device (fst (discover_device env s w)) <> None ->
    pairing_enabled (fst (discover_device env s w)) = pairing_enabled s)) /\
  (forallb (fun e => negb (is_enable e)) more = true ->
   never_reset env (s, w) more = true ->
   frames w'' = frames w + clients s * (total_attempts s'' - total_attempts s) /\
   frames w'' - frames w <= 100 * clients s).
Proof.
  intros s w s' w' s'' w''.
  assert (Hpos : 0 <= total_attempts s).
  { apply (run_total_attempts_nonneg env events (initial_state, fresh_world)).
    cbn. lia. }
  assert (Hcap : forall l, total_attempts (fst (run env (initial_state, fresh_world) l))
                           <= 100).
  { intros l. apply (run_total_attempts env l (initial_state, fresh_world)).
    unfold MAX_TOTAL_TRANSMIT_ATTEMPTS. cbn. lia. }
  split; [split; [exact Hpos | apply Hcap]|].
  split.
  { apply (tick_total_attempts env s w s' w' (loop_tick env s w)). }
  split.
  { destruct (tick_frames env s w s' w' (loop_tick env s w))
      as (_ & k & Hk & _ & Hf & Ht).
    exists k. split; [exact Hk|]. split; [exact Hf|].
    destruct Ht as [Ht|[[-> Ht]|(-> & Ht & _)]]; [left; exact Ht | right | right];
      exact Ht. }
  split.
  { split; [apply discover_device_total_attempts|].
    apply discover_device_keeps_pairing. }
  intros Hev Hup.
  destruct (run_frames env more (s, w) Hev Hpos Hup) as [_ Hf].
  cbn [fst snd] in Hf. fold s'' w'' in Hf.
  split; [exact Hf|].
  assert (Hend : total_attempts s'' <= 100).
  { subst s'' s w. unfold run. rewrite <- surjective_pairing, <- fold_left_app.
    apply Hcap. }
  pose proof (clients_nonneg s). nia.
Qed.

Lemma total_attempts_capped_witness :
  let more := [Loop; AppendDevice (example_device 7 2); Loop; Loop] in
  let sw := run example_env (initial_state, fresh_world) [Enable (Some (inr [1; 2]))] in
  forallb (fun e => negb (is_enable e)) more = true /\
  never_reset example_env sw more = true /\
  frames (snd (run example_env sw more)) = 4 /\
  total_attempts (fst (run example_env sw more)) = 2.
Proof.
  intros more sw.
  split; [reflexivity|]. split; [vm_compute; reflexivity|].
  pose proof (total_attempts_capped example_env [Enable (Some (inr [1; 2]))] more)
    as H.
  cbv zeta in H. destruct H as (_ & _ & _ & _ & H).
  destruct (H eq_refl ltac:(vm_compute; reflexivity)) as [Hf _].
  split; [|vm_compute; reflexivity].
  rewrite <- surjective_pairing in Hf. fold sw in Hf. rewrite Hf.
  vm_compute. reflexivity.
Defined.

(** C2 fails as stated.  A device with 95 input registers that answers
    every request keeps pairing enabled through 101 calls of the client
    (5 searches, the address, 95 registers), because [discover_device]
    reset the counter after the search; the counter stands at 96.  And
    with a list of 21 clients the five searches alone are 105 calls of the
    client, with pairing enabled, the counter at 5 and never reset. *)
Lemma more_than_100_frames_in_a_session :
  (let events := example_search 95 ++ example_enrollment 94 ++ [Loop] in
   let sw := run example_env (initial_state, fresh_world) events in
   forallb (fun k => pairing_enabled
                       (fst (run example_env (initial_state, fresh_world)
                               (firstn k events))))
     (seq 1 (length events)) = true /\
   frames (snd sw) = 101 /\
   requests (snd sw) = 101 /\
   total_attempts (fst sw) = 96) /\
  (let events := Enable (Some (inr (map Z.of_nat (seq 1 21)))) :: repeat Loop 9 in
   let sw := run example_env (initial_state, fresh_world) events in
   forallb (fun k => pairing_enabled
                       (fst (run example_env (initial_state, fresh_world)
                               (firstn k events))))
     (seq 1 (length events)) = true /\
   never_reset example_env (initial_state, fresh_world) events = true /\
   frames (snd sw) = 105 /\
   requests (snd sw) = 5 /\
   total_attempts (fst sw) = 5).
Proof. vm_compute. repeat split. Qed.

(** ** Giving a device up *)

Lemma move_to_next_cmd_keeps s :
  pairing_device (move_to_next_cmd s) = pairing_device s /\
  found_devices (move_to_next_cmd s) = found_devices s /\
  pairing_enabled (move_to_next_cmd s) = pairing_enabled s /\
  broadcasting_search_finished (move_to_next_cmd s) = broadcasting_search_finished s /\
  finished_cmd (move_to_next_cmd s) = finished_cmd s.
Proof.
  unfold move_to_next_cmd, move_to_next_register_for_init.
  repeat match goal with
         | |- context [if ?b then _ else _] => destruct b
         | |- context [match ?x with Some _ => _ | None => _ end] => destruct x
         end; destruct s; repeat split.
Qed.

Lemma touch_keeps wp att tot t s :
  pairing_device (touch wp att tot t s) = pairing_device s /\
  found_devices (touch wp att tot t s) = found_devices s /\
  pairing_enabled (touch wp att tot t s) = pairing_enabled s /\
  broadcasting_search_finished (touch wp att tot t s) = broadcasting_search_finished s /\
  finished_cmd (touch wp att tot t s) = finished_cmd s.
Proof. destruct s. repeat split. Qed.

Lemma tick_enrollment env s w s' w' d :
  tick env s w s' w' ->
  pairing_enabled s = true ->
  total_attempts s < 100 ->
  broadcasting_search_finished s = true ->
  pairing_device s = Some d ->
  ((5 <= attempts s \/ delay_reached env MAX_PAIRING_DELAY s w = true) ->
   exists w1, (s', w') = discover_device env s w1) /\
  (attempts s < 5 ->
   delay_reached env MAX_PAIRING_DELAY s w = false ->
   pairing_device s' = Some d /\
   found_devices s' = found_devices s /\
   pairing_enabled s' = true).
Proof.
  intros H Hen Htot Hbsf Hpd.
  destruct H;
    unfold MAX_TOTAL_TRANSMIT_ATTEMPTS, MAX_TRANSMIT_ATTEMPTS in *;
    try congruence; try (exfalso; lia).
  - (* given up *)
    split.
    + intros _. exists w1. symmetry. apply surjective_pairing.
    + intros Hatt Hfresh. exfalso.
      match goal with Hwhy : _ \/ _ |- _ => destruct Hwhy as [Hl|Hl] end;
        [lia | congruence].
  - (* waiting for the reply *)
    split.
    + intros [Hl|Hl]; exfalso; [lia | congruence].
    + intros _ _. repeat split; assumption.
  - (* the next request *)
    split.
    + intros [Hl|Hl]; exfalso; [lia | congruence].
    + intros _ _.
      destruct (touch_keeps waiting att total sent_at (move_to_next_cmd s))
        as (-> & -> & -> & _).
      destruct (move_to_next_cmd_keeps s) as (-> & -> & -> & _).
      repeat split; assumption.
Qed.

(** C7, as the code has it: during the enrollment of a device, in a tick
    that finds the total-attempts counter below its cap, the device is
    dropped when [attempts] has reached [MAX_TRANSMIT_ATTEMPTS = 5] or the
    tick finds [time.time() - last_request_send_timestamp >=
    MAX_PAIRING_DELAY = 5.0], the difference being the double the code
    computes: the tick is [discover_device()], which disables pairing when
    no found device is left and otherwise takes up one of the found
    devices; in every other case the device is kept. *)
Theorem enrollment_timeout (env : Env) (s : State) (w : World)
    (d : PairingDeviceRecord) :
  pairing_enabled s = true ->
  total_attempts s < 100 ->
  broadcasting_search_finished s = true ->
  pairing_device s = Some d ->
  let s' := fst (loop env s w) in
  ((5 <= attempts s \/ delay_reached env MAX_PAIRING_DELAY s w = true) ->
   (exists w1, loop env s w = discover_device env s w1) /\
   (found_devices s = [] ->
    pairing_enabled s' = false /\ pairing_device s' = None) /\
   (forall d', pairing_device s' = Some d' ->
      pairing_enabled s' = true /\
      exists d0 a, In d0 (found_devices s) /\ d' = set_device_address a d0) /\
   (pairing_device s' = None -> pairing_enabled s' = false)) /\
  (attempts s < 5 -> delay_reached env MAX_PAIRING_DELAY s w = false ->
   pairing_device s' = Some d /\
   found_devices s' = found_devices s /\
   pairing_enabled s' = true).
Proof.
  intros Hen Htot Hbsf Hpd s'. subst s'.
  destruct (tick_enrollment env s w _ _ d (loop_tick env s w) Hen Htot Hbsf Hpd)
    as [Hdrop Hkeep].
  split; [|exact Hkeep].
  intros Hlate. destruct (Hdrop Hlate) as [w1 Hdisc].
  rewrite <- surjective_pairing in Hdisc.
  split; [exists w1; exact Hdisc|]. rewrite Hdisc.
  destruct (discover_device_spec env s w1)
    as (_ & [->|(before & d0 & rest & a & regs & Hfound & ->)]).
  - split; [intros _; destruct s; split; reflexivity|].
    split; [intros d' Hd'; destruct s; discriminate|].
    intros _. destruct s; reflexivity.
  - split.
    { intros Hnil. rewrite Hnil in Hfound. destruct before; discriminate. }
    split.
    + intros d' Hd'. split; [destruct s; cbn in *; exact Hen|].
      exists d0, a. split.
      * rewrite Hfound. apply in_or_app. right. left. reflexivity.
      * destruct s; cbn in Hd'. congruence.
    + intros Hnone. destruct s; discriminate.
Qed.

Lemma enrollment_timeout_witness :
  let s := fst (run example_env (initial_state, fresh_world) (example_search 2)) in
  let w := snd (run example_env (initial_state, fresh_world) (example_search 2)) in
  pairing_enabled s = true /\ total_attempts s < 100 /\
  broadcasting_search_finished s = true /\
  pairing_device s = Some (set_device_address 1 (example_device 7 2)) /\
  attempts s < 5 /\
  delay_reached example_env MAX_PAIRING_DELAY s w = false /\
  pairing_device (fst (loop example_env s w))
  = Some (set_device_address 1 (example_device 7 2)).
Proof.
  intros s w.
  assert (Hen : pairing_enabled s = true) by reflexivity.
  assert (Htot : total_attempts s < 100) by (vm_compute; reflexivity).
  assert (Hbsf : broadcasting_search_finished s = true) by reflexivity.
  assert (Hpd : pairing_device s = Some (set_device_address 1 (example_device 7 2)))
    by reflexivity.
  do 4 (split; [assumption|]).
  split; [vm_compute; reflexivity|]. split; [vm_compute; reflexivity|].
  apply (enrollment_timeout example_env s w _ Hen Htot Hbsf Hpd);
    vm_compute; reflexivity.
Defined.

(** C7 fails as stated: a device with 99 input registers has answered 98
    of them; the hundredth request has just gone out, one attempt has been
    made for it and one second has passed, so neither of the two conditions
    of the claim holds.  The next tick does not keep the device: the
    total-attempts cap disables pairing. *)
Lemma device_dropped_at_the_cap :
  let events := example_search 99 ++ example_enrollment 98 ++ [Loop] in
  let s := fst (run example_env (initial_state, fresh_world) events) in
  let w := snd (run example_env (initial_state, fresh_world) events) in
  pairing_enabled s = true /\
  broadcasting_search_finished s = true /\
  pairing_device s = Some (set_device_address 1 (example_device 7 99)) /\
  attempts s = 1 /\
  PrimFloat.sub (time_at example_env (clock_reads w)) (last_request_send_timestamp s)
  = 1%float /\
  delay_reached example_env MAX_PAIRING_DELAY s w = false /\
  total_attempts s = 100 /\
  pairing_device (fst (loop example_env s w)) = None /\
  pairing_enabled (fst (loop example_env s w)) = false.
Proof. vm_compute. repeat split. Qed.

(** The delay is tested on doubles: with the last request sent at a clock
    reading of 0.1 and the clock at 5.1, [5.1 - 0.1] is [5.0] in double
    precision, the delay is reached and the device is given up. *)
Example enrollment_delay_rounds_the_difference :
  let s := set_last_request_send_timestamp 0x1.999999999999ap-4
             (set_attempts 1
                (set_waiting_for_packet (Some Packet_DISCOVER)
                   (set_pairing_device (Some (example_device 7 2))
                      (set_broadcasting_search_finished true
                         (set_pairing_enabled true initial_state))))) in
  PrimFloat.sub (time_at late_env 0) (last_request_send_timestamp s) = 5%float /\
  delay_reached late_env MAX_PAIRING_DELAY s fresh_world = true /\
  pairing_device (fst (loop late_env s fresh_world)) = None /\
  pairing_enabled (fst (loop late_env s fresh_world)) = false.
Proof. vm_compute. repeat split. Qed.

(** ** The search phase *)










(** ** The payload lists handed to the client *)






Lemma pjon_client_appends n c :
  exists suffix, snd (client_at pjon_client_env n c) = call_payload c ++ suffix.
Proof.
  cbn [client_at pjon_client_env].
  match goal with
  | |- context [Pjon.send_packet ?e ?v ?f ?a ?p ?t ?w0] =>
      destruct (PjonFacts.send_packet_appends_always e v f a p t w0) as [sfx Hs];
      destruct (Pjon.send_packet e v f a p t w0) as [[r l] w1]
  end.
  cbn [fst snd] in *. exists sfx. exact Hs.
Qed.


(** What the caller of [__send_data_to_device] is left with when the
    client is a PJON client: version, data, CRC, terminator. *)
Example finalize_payload_after_send :
  snd (fst (fst (send_data_to_device pjon_client_env [0x04; 0x04] 9 initial_state
                   fresh_world)))
  = Pjon.encode [0x01; 0x04; 0x04].
Proof. vm_compute. reflexivity. Qed.

(** A list with no element at index 1, and one whose element at index 1 is
    no pairing command: the debug message cannot be built, and the list is
    left as it was. *)
Example send_data_without_command_raises :
  fst (fst (send_data_to_device pjon_client_env [] 9 initial_state fresh_world))
  = (Raised IndexError, []) /\
  fst (fst (send_data_to_device pjon_client_env [0x04; 0x09] 9 initial_state
              fresh_world))
  = (Raised ValueError, [0x04; 0x09]).
Proof. split; vm_compute; reflexivity. Qed.

End PairingFacts.

(** * Further properties of the PJON client *)

Module PjonMore.
Import Pjon PjonFacts.

(** ** The frame is made of bytes *)

(** [__crc16] returns a 16-bit value on every input, so the two elements
    [send_packet] appends to a payload of byte values are byte values and
    the [bytes(payload)] handed to the driver cannot raise. *)
Theorem frame_is_bytes (payload : list Z) :
  forallb is_byte payload = true ->
  0 <= crc16 payload < 65536 /\
  0 <= Z.shiftr (crc16 payload) 8 < 256 /\
  0 <= Z.land (crc16 payload) 0xFF < 256 /\
  py_bytes (encode payload) = Some (encode payload).
Proof.
  intros Hb.
  pose proof (crc16_word16 payload) as Hw.
  destruct (crc_split_join _ Hw) as (Hhi & Hlo & _).
  unfold is_byte in Hhi, Hlo.
  apply andb_true_iff in Hhi, Hlo.
  split; [exact Hw|]. split; [|split].
  - destruct Hhi as [H1 H2]. apply Z.leb_le in H1. apply Z.ltb_lt in H2. lia.
  - destruct Hlo as [H1 H2]. apply Z.leb_le in H1. apply Z.ltb_lt in H2. lia.
  - apply py_bytes_Some, encode_bytes, Hb.
Qed.

Lemma frame_is_bytes_witness :
  forallb is_byte [0x01; 0x04; 0x01] = true /\
  0 <= crc16 [0x01; 0x04; 0x01] < 65536.
Proof.
  split; [reflexivity|].
  apply (frame_is_bytes [0x01; 0x04; 0x01]). reflexivity.
Defined.

(** ** Error behaviour of [send_packet] *)

(** A payload of byte values whose frame has no recognised packet kind at
    index 1 makes [send_packet] raise [ValueError] while it builds its debug
    message, that is after the caller's list has been extended and the
    frame has been handed to the driver; the clock and [loop()] are not
    consulted any more. *)
Theorem send_packet_raises_after_sending (enums : Enums) (env : Env)
    (fuel : nat) (address : Z) (payload : list Z) (wt : float) (w : World) :
  forallb is_byte payload = true ->
  kind_ok enums (encode payload) = false ->
  send_packet enums env fuel address payload wt w
  = (Raised ValueError, encode payload,
     {| clock_reads := clock_reads w;
        loop_calls := loop_calls w;
        link_sent := link_sent w ++ [(address, encode payload)] |}).
Proof.
  intros Hb Hk. unfold send_packet.
  rewrite (py_bytes_Some _ Hb).
  assert (Henc : ((payload ++ [Z.shiftr (crc16 payload) 8])
                    ++ [Z.land (crc16 payload) 0xFF]) ++ [TERMINATOR]
                 = encode payload).
  { unfold encode. rewrite <- !app_assoc. reflexivity. }
  cbv zeta. rewrite Henc.
  rewrite (py_bytes_Some _ (encode_bytes _ Hb)).
  unfold driver_send. unfold kind_ok in Hk.
  assert (Hlen : 0 <= 1 < Z.of_nat (length (encode payload))).
  { unfold encode. rewrite length_app. cbn [length]. lia. }
  destruct (py_index_defined (encode payload) 1 ltac:(lia)) as [k Hidx].
  rewrite Hidx in *. rewrite Hk. reflexivity.
Qed.

Lemma send_packet_raises_after_sending_witness :
  forallb is_byte [0x01; 0x99] = true /\
  kind_ok spec_enums (encode [0x01; 0x99]) = false /\
  link_sent (snd (send_packet spec_enums quiet_env 0 9 [0x01; 0x99] 0 fresh_world))
  = [(9, encode [0x01; 0x99])].
Proof.
  split; [reflexivity|]. split; [reflexivity|].
  rewrite (send_packet_raises_after_sending spec_enums quiet_env 0 9 [0x01; 0x99] 0
             fresh_world eq_refl eq_refl).
  reflexivity.
Defined.

(** ** The acknowledgement wait gives up *)

Lemma ack_wait_false_iff (env : Env) (t0 wt : float) (fuel : nat) (w : World) :
  fst (ack_wait env fuel t0 wt w) = Returned false <->
  exists k, (k < fuel)%nat /\
    (forall j, (j < k)%nat ->
       PrimFloat.leb (PrimFloat.sub (time_at env (clock_reads w + j)) t0) wt = true) /\
    (forall j, (j < k)%nat ->
       exists r s, loop_at env (loop_calls w + j) = inr (r, s) /\ s <> PJON_ACK) /\
    PrimFloat.leb (PrimFloat.sub (time_at env (clock_reads w + k)) t0) wt = false.
Proof.
  revert w. induction fuel as [|fuel IH]; intros w.
  - cbn. split; [discriminate|]. intros (k & Hk & _). lia.
  - cbn [ack_wait time_time driver_loop clock_reads loop_calls link_sent].
    destruct (PrimFloat.leb (PrimFloat.sub (time_at env (clock_reads w)) t0) wt)
      eqn:Hbudget.
    + destruct (loop_at env (loop_calls w)) as [e|[recv st]] eqn:Hloop.
      * cbn [fst]. split; [discriminate|].
        intros (k & _ & _ & Hbefore & Hlate).
        destruct k as [|k].
        -- rewrite Nat.add_0_r in Hlate. congruence.
        -- destruct (Hbefore 0%nat ltac:(lia)) as (r' & s' & Hl & _).
           rewrite Nat.add_0_r in Hl. congruence.
      * destruct (st =? PJON_ACK) eqn:Hst.
        -- apply Z.eqb_eq in Hst. subst st. cbn [fst]. split; [discriminate|].
           intros (k & _ & _ & Hbefore & Hlate).
           destruct k as [|k].
           ++ rewrite Nat.add_0_r in Hlate. congruence.
           ++ destruct (Hbefore 0%nat ltac:(lia)) as (r' & s' & Hl & Hne).
              rewrite Nat.add_0_r in Hl. congruence.
        -- apply Z.eqb_neq in Hst. rewrite IH. cbn [clock_reads loop_calls].
           split.
           ++ intros (k & Hk & Htime & Hbefore & Hlate).
              exists (S k). split; [lia|]. split; [|split].
              ** intros [|j] Hj; [rewrite Nat.add_0_r; exact Hbudget|].
                 replace (clock_reads w + S j)%nat with (S (clock_reads w) + j)%nat by lia.
                 apply Htime. lia.
              ** intros [|j] Hj.
                 --- exists recv, st. rewrite Nat.add_0_r. split; assumption.
                 --- replace (loop_calls w + S j)%nat with (S (loop_calls w) + j)%nat by lia.
                     apply Hbefore. lia.
              ** replace (clock_reads w + S k)%nat with (S (clock_reads w) + k)%nat by lia.
                 exact Hlate.
           ++ intros (k & Hk & Htime & Hbefore & Hlate).
              destruct k as [|k].
              { rewrite Nat.add_0_r in Hlate. congruence. }
              exists k. split; [lia|]. split; [|split].
              ** intros j Hj.
                 replace (S (clock_reads w) + j)%nat with (clock_reads w + S j)%nat by lia.
                 apply Htime. lia.
              ** intros j Hj.
                 replace (S (loop_calls w) + j)%nat with (loop_calls w + S j)%nat by lia.
                 apply Hbefore. lia.
              ** replace (S (clock_reads w) + k)%nat with (clock_reads w + S k)%nat by lia.
                 exact Hlate.
    + cbn [fst]. split; [|reflexivity].
      intros _. exists 0%nat. split; [lia|]. split; [|split].
      * intros j Hj. lia.
      * intros j Hj. lia.
      * rewrite Nat.add_0_r. exact Hbudget.
Qed.

(** With [waiting_time > 0], [send_packet] returns [False] if and only if
    at some clock reading of the wait the test
    [time.time() - current_time <= waiting_time] fails (the difference
    being the double the code computes) while it held at every earlier
    reading and every poll before it returned a send status other than
    [PJON_ACK]; [k] readings within the budget mean [k] polls. *)
Theorem send_packet_gives_up (enums : Enums) (env : Env)
    (address : Z) (payload : list Z) (wt : float) (w : World) :
  forallb is_byte payload = true ->
  kind_ok enums (encode payload) = true ->
  PrimFloat.ltb 0 wt = true ->
  (exists fuel,
     fst (fst (send_packet enums env fuel address payload wt w)) = Returned false)
  <-> exists k,
        (forall j, (j < k)%nat -> within_budget env w wt j = true) /\
        (forall j, (j < k)%nat ->
           exists r s, loop_at env (loop_calls w + j) = inr (r, s) /\ s <> PJON_ACK) /\
        within_budget env w wt k = false.
Proof.
  intros Hb Hk Hwait.
  split.
  - intros (fuel & Hres).
    rewrite (send_packet_result _ _ _ _ _ _ _ Hb Hk), Hwait in Hres.
    apply ack_wait_false_iff in Hres.
    destruct Hres as (k & _ & Hrest). exists k. exact Hrest.
  - intros (k & Hgave). exists (S k).
    rewrite (send_packet_result _ _ _ _ _ _ _ Hb Hk), Hwait.
    apply ack_wait_false_iff. exists k. split; [lia|]. exact Hgave.
Qed.

Lemma send_packet_gives_up_witness :
  forallb is_byte [0x01; 0x04; 0x01] = true /\
  kind_ok spec_enums (encode [0x01; 0x04; 0x01]) = true /\
  PrimFloat.ltb 0 2 = true /\
  exists fuel,
    fst (fst (send_packet spec_enums quiet_env fuel 0 [0x01; 0x04; 0x01] 2
                fresh_world)) = Returned false.
Proof.
  split; [reflexivity|]. split; [reflexivity|]. split; [reflexivity|].
  apply (send_packet_gives_up spec_enums quiet_env 0 [0x01; 0x04; 0x01] 2 fresh_world
           eq_refl eq_refl eq_refl).
  exists 2%nat. split; [|split].
  - intros [|[|j]] Hj; [reflexivity | reflexivity | lia].
  - intros j Hj. exists 0, 0. split; [reflexivity | discriminate].
  - reflexivity.
Defined.

(** The tests of the wait are made on doubles: with the wait started at a
    clock reading of 0.1 and a budget of one second, a reading of 1.1 is
    still within the budget, because [1.1 - 0.1] is [1.0] in double
    precision; an acknowledgement polled then makes [send_packet] return
    [True]. *)
Example ack_wait_rounds_the_difference :
  PrimFloat.sub (time_at tenths_env 1) (time_at tenths_env 0) = 1%float /\
  fst (fst (send_packet spec_enums tenths_env 3 PJON_BROADCAST [0x01; 0x04; 0x01] 1
              fresh_world)) = Returned true.
Proof. split; vm_compute; reflexivity. Qed.

(** ** The frames [receive] accepts *)

Lemma join_split (a b : Z) :
  0 <= a < 256 -> 0 <= b < 256 ->
  Z.shiftr (Z.lor (Z.shiftl a 8) b) 8 = a /\
  Z.land (Z.lor (Z.shiftl a 8) b) 0xFF = b.
Proof.
  intros Ha Hb.
  rewrite <- Z.lxor_lor by (apply land_shiftl_low; lia).
  rewrite <- Z.add_nocarry_lxor by (apply land_shiftl_low; lia).
  rewrite Z.shiftl_mul_pow2 by lia. change (2 ^ 8) with 256.
  rewrite Z.shiftr_div_pow2 by lia. change (2 ^ 8) with 256.
  change 0xFF with (Z.ones 8). rewrite Z.land_ones by lia. change (2 ^ 8) with 256.
  split.
  - symmetry. apply (Z.div_unique _ _ _ b); lia.
  - symmetry. apply (Z.mod_unique _ _ a); lia.
Qed.

Lemma is_byte_range (z : Z) : is_byte z = true <-> 0 <= z < 256.
Proof.
  unfold is_byte. rewrite andb_true_iff, Z.leb_le, Z.ltb_lt. reflexivity.
Qed.

(** A list of at least three elements, as its front and its last three. *)
Lemma split_last_three (raw : list Z) :
  (3 <= length raw)%nat ->
  exists a b c, raw = firstn (length raw - 3) raw ++ [a; b; c].
Proof.
  intros H.
  pose proof (firstn_skipn (length raw - 3) raw) as Hsplit.
  pose proof (length_skipn (length raw - 3) raw) as Hlen.
  destruct (skipn (length raw - 3) raw) as [|a [|b [|c [|d rest]]]];
    cbn [length] in Hlen; try lia.
  exists a, b, c. symmetry. exact Hsplit.
Qed.

Lemma checks_of_tail (P : list Z) (a b c : Z) :
  crc_ok (P ++ [a; b; c]) = (crc16 P =? Z.lor (Z.shiftl a 8) b) /\
  terminator_ok (P ++ [a; b; c]) = (c =? TERMINATOR).
Proof.
  unfold crc_ok, terminator_ok. rewrite length_app. cbn [length].
  replace (Z.of_nat (length P + 3) - 3) with (Z.of_nat (length P) + Z.of_nat 0) by lia.
  replace (Z.of_nat (length P) + Z.of_nat 0 + 3 - 2)
    with (Z.of_nat (length P) + Z.of_nat 1) by lia.
  replace (Z.of_nat (length P + 3) - 2) with (Z.of_nat (length P) + Z.of_nat 1) by lia.
  replace (Z.of_nat (length P + 3) - 1) with (Z.of_nat (length P) + Z.of_nat 2) by lia.
  rewrite !py_index_app_r by (cbn; lia). cbn [nth_error].
  rewrite Z.add_0_r, py_slice_to_app. split; reflexivity.
Qed.

Lemma crc_and_terminator_iff (P : list Z) (a b c : Z) :
  is_byte a = true -> is_byte b = true ->
  crc_ok (P ++ [a; b; c]) && terminator_ok (P ++ [a; b; c]) = true
  <-> P ++ [a; b; c] = encode P.
Proof.
  intros Ha Hb. apply is_byte_range in Ha, Hb.
  destruct (checks_of_tail P a b c) as [-> ->].
  rewrite andb_true_iff, !Z.eqb_eq. unfold encode. split.
  - intros [Hcrc ->].
    destruct (join_split a b Ha Hb) as [H1 H2].
    rewrite Hcrc, H1, H2. reflexivity.
  - intros Heq. apply app_inv_head in Heq.
    injection Heq as -> -> ->.
    destruct (crc_split_join (crc16 P) (crc16_word16 P)) as (_ & _ & ->).
    split; reflexivity.
Qed.

(** [receive] hands a frame to the receiver exactly when the frame is one
    that [send_packet] builds: for every sequence of at least five byte
    values that comes with a sender id, [receive] forwards it if and only
    if its first byte is a recognised version, its second a recognised
    packet kind, and the whole is [encode] of all but its last three bytes;
    what is forwarded is then those bytes and their number. *)
Theorem receive_accepts_exactly_encoded (enums : Enums) (raw : list Z)
    (sender : Z) :
  (5 <= length raw)%nat ->
  forallb is_byte raw = true ->
  let P := firstn (length raw - 3) raw in
  let r := receive enums raw (Z.of_nat (length raw)) {| sender_id := Some sender |} in
  ((exists p n a, r = Returned (Forwarded p n a))
   <-> version_ok enums raw = true /\ kind_ok enums raw = true /\ raw = encode P) /\
  (forall p n a, r = Returned (Forwarded p n a) ->
     p = P /\ n = Z.of_nat (length P) /\ a = Some sender).
Proof.
  intros Hlen Hbytes P r.
  destruct (split_last_three raw ltac:(lia)) as (a & b & c & Hsplit).
  fold P in Hsplit.
  assert (Hab : is_byte a = true /\ is_byte b = true).
  { rewrite Hsplit, forallb_app in Hbytes. cbn [forallb] in Hbytes.
    apply andb_true_iff in Hbytes. destruct Hbytes as [_ H].
    apply andb_true_iff in H. destruct H as [Hx H].
    apply andb_true_iff in H. destruct H as [Hy _]. split; assumption. }
  destruct Hab as [Ha Hb].
  pose proof (crc_and_terminator_iff P a b c Ha Hb) as Hiff.
  rewrite <- Hsplit in Hiff.
  assert (HP : py_slice_to raw (Z.of_nat (length raw) - 3) = P).
  { rewrite py_slice_to_nonneg by lia. unfold P. f_equal. lia. }
  assert (Hr : r = if negb (version_ok enums raw) then Returned (Dropped UnknownProtocolVersion)
                   else if negb (kind_ok enums raw) then Returned (Dropped UnknownPacket)
                   else if negb (crc_ok raw) then Returned (Dropped InvalidCrc)
                   else if negb (terminator_ok raw) then Returned (Dropped MissingTerminator)
                   else Returned (Forwarded P (Z.of_nat (length P)) (Some sender))).
  { subst r. rewrite (receive_by_checks enums raw sender ltac:(lia)).
    destruct (version_ok enums raw) eqn:Hv; cbn [negb]; [|reflexivity].
    destruct (kind_ok enums raw) eqn:Hk; cbn [negb]; [|reflexivity].
    destruct (crc_ok raw); cbn [negb]; [|reflexivity].
    destruct (terminator_ok raw); cbn [negb]; [|reflexivity].
    cbv zeta. rewrite HP.
    destruct (kind_ok_inv _ _ Hk) as (k & Hk1 & Hkok).
    assert (Hidx : py_index P 1 = Some k).
    { unfold P. rewrite py_index_nonneg by (rewrite length_firstn; lia).
      rewrite py_index_nonneg in Hk1 by lia.
      rewrite nth_error_firstn.
      replace (Z.to_nat 1 <? length raw - 3)%nat with true
        by (symmetry; apply Nat.ltb_lt; lia).
      exact Hk1. }
    rewrite Hidx, Hkok. reflexivity. }
  rewrite Hr. clear Hr.
  destruct (version_ok enums raw); cbn [negb].
  2:{ split; [split; [intros (p & n & x & H); discriminate | intros (H & _); discriminate]
             | intros p n x H; discriminate]. }
  destruct (kind_ok enums raw); cbn [negb].
  2:{ split; [split; [intros (p & n & x & H); discriminate | intros (_ & H & _); discriminate]
             | intros p n x H; discriminate]. }
  destruct (crc_ok raw); cbn [negb andb] in *.
  2:{ split; [split; [intros (p & n & x & H); discriminate
                     | intros (_ & _ & H); apply Hiff in H; discriminate]
             | intros p n x H; discriminate]. }
  destruct (terminator_ok raw); cbn [negb] in *.
  2:{ split; [split; [intros (p & n & x & H); discriminate
                     | intros (_ & _ & H); apply Hiff in H; discriminate]
             | intros p n x H; discriminate]. }
  split.
  - split; [intros _; repeat split; apply Hiff; reflexivity | intros _; eauto].
  - intros p n x H. injection H as <- <- <-. repeat split.
Qed.

Lemma receive_accepts_exactly_encoded_witness :
  let raw := encode [0x01; 0x04; 0x01] in
  (5 <= length raw)%nat /\ forallb is_byte raw = true /\
  exists p n a,
    receive spec_enums raw (Z.of_nat (length raw)) {| sender_id := Some 7 |}
    = Returned (Forwarded p n a).
Proof.
  intros raw. split; [vm_compute; lia|]. split; [reflexivity|].
  apply (receive_accepts_exactly_encoded spec_enums raw 7);
    [vm_compute; lia | reflexivity |].
  repeat split; vm_compute; reflexivity.
Defined.

(** The four checks are made in the order version, kind, CRC, terminator,
    and the warning names the first one that fails: an unknown version is
    reported whatever else is wrong with the frame, a CRC mismatch only for
    a frame whose version and kind are known, a missing terminator only for
    a frame whose CRC is right. *)
Theorem receive_reports_first_failure (enums : Enums) (raw : list Z)
    (sender : Z) :
  (2 <= length raw)%nat ->
  let r := receive enums raw (Z.of_nat (length raw)) {| sender_id := Some sender |} in
  (r = Returned (Dropped UnknownProtocolVersion) <-> version_ok enums raw = false) /\
  (r = Returned (Dropped UnknownPacket)
   <-> version_ok enums raw = true /\ kind_ok enums raw = false) /\
  (r = Returned (Dropped InvalidCrc)
   <-> version_ok enums raw = true /\ kind_ok enums raw = true /\ crc_ok raw = false) /\
  (r = Returned (Dropped MissingTerminator)
   <-> version_ok enums raw = true /\ kind_ok enums raw = true /\ crc_ok raw = true
       /\ terminator_ok raw = false).
Proof.
  intros Hlen r. subst r. rewrite (receive_by_checks enums raw sender Hlen).
  destruct (version_ok enums raw); cbn [negb].
  2:{ repeat split; try discriminate; try tauto; intros; intuition discriminate. }
  destruct (kind_ok enums raw); cbn [negb].
  2:{ repeat split; try discriminate; try tauto; intros; intuition discriminate. }
  destruct (crc_ok raw); cbn [negb].
  2:{ repeat split; try discriminate; try tauto; intros; intuition discriminate. }
  destruct (terminator_ok raw); cbn [negb].
  2:{ repeat split; try discriminate; try tauto; intros; intuition discriminate. }
  cbv zeta.
  destruct (py_index _ 1) as [k|]; [destruct (Packet_has_value enums k)|];
    repeat split; try discriminate; intros; intuition discriminate.
Qed.

Lemma receive_reports_first_failure_witness :
  (2 <= length [0x07; 0x99; 0; 0; 0])%nat /\
  receive spec_enums [0x07; 0x99; 0; 0; 0] 5 {| sender_id := Some 7 |}
  = Returned (Dropped UnknownProtocolVersion).
Proof.
  split; [cbn; lia|].
  apply (receive_reports_first_failure spec_enums [0x07; 0x99; 0; 0; 0] 7);
    [cbn; lia | reflexivity].
Defined.

(** ** handle *)

(** [handle] returns the receive status of [loop()]; when the driver
    raises one of its three exceptions it logs a warning and returns 0; it
    raises only what is none of the three, and then with the exception
    [loop()] raised.  Each call polls the driver exactly once. *)
Theorem handle_outcome (env : Env) (w : World) :
  let r := handle env w in
  loop_calls (snd r) = S (loop_calls w) /\
  link_sent (snd r) = link_sent w /\
  (forall recv send, loop_at env (loop_calls w) = inr (recv, send) ->
     fst r = (Returned recv, None)) /\
  (forall e, loop_at env (loop_calls w) = inl e ->
     (e = PJON_Connection_Lost \/ e = PJON_Packets_Buffer_Full
      \/ e = PJON_Content_Too_Long) ->
     fst (fst r) = Returned 0 /\ snd (fst r) <> None) /\
  (forall e, fst (fst r) = Raised e ->
     loop_at env (loop_calls w) = inl e /\
     e <> PJON_Connection_Lost /\ e <> PJON_Packets_Buffer_Full
     /\ e <> PJON_Content_Too_Long).
Proof.
  intros r. subst r. unfold handle, driver_loop.
  destruct (loop_at env (loop_calls w)) as [e|[recv send]] eqn:Hloop.
  - destruct e; cbn [fst snd loop_calls link_sent];
      (split; [reflexivity|]); (split; [reflexivity|]);
      (split; [intros recv send H; discriminate|]);
      (split; [intros e' H [He|[He|He]]; injection H as <-;
               first [discriminate | split; [reflexivity | discriminate]]|]);
      intros e' H; first [discriminate | injection H as <-];
      (split; [reflexivity|]); (split; [discriminate|]); split; discriminate.
  - cbn [fst snd loop_calls link_sent].
    split; [reflexivity|]. split; [reflexivity|].
    split; [intros r1 s1 H; injection H as <- <-; reflexivity|].
    split; [intros e' H; discriminate | intros e' H; discriminate].
Qed.


Lemma handle_outcome_witness :
  fst (fst (handle {| time_at := fun _ => 0%float;
                      loop_at := fun _ => inl PJON_Connection_Lost;
                      send_at := fun _ => 0 |} fresh_world))
  = Returned 0.
Proof.
  destruct (handle_outcome {| time_at := fun _ => 0%float;
                              loop_at := fun _ => inl PJON_Connection_Lost;
                              send_at := fun _ => 0 |} fresh_world)
    as (_ & _ & _ & Hlost & _).
  exact (proj1 (Hlost PJON_Connection_Lost eq_refl (or_introl eq_refl))).
Defined.

(** ** Single-bit errors *)

Lemma crc16_by_register (data : list Z) :
  crc16 data
  = (let c := 0xFFFF - fold_left crc_feed_bit (flat_map bits_lsb_first data) 0xFFFF in
     (c mod 256) * 256 + c / 256).
Proof.
  unfold crc16, crc16_poly. cbv zeta.
  rewrite crc16_bytes_bits.
  set (reg := fold_left crc_feed_bit (flat_map bits_lsb_first data) 65535).
  assert (Hreg : word16 reg)
    by (apply crc_feed_bits_word16; unfold word16; lia).
  rewrite (complement_word16 reg Hreg).
  apply swap_word16. unfold word16 in *. lia.
Qed.

Lemma feed_top_bit (r : Z) (b : bool) :
  word16 r -> Z.testbit (crc_feed_bit r b) 15 = xorb (Z.odd r) b.
Proof.
  unfold word16. intros H.
  assert (Hhalf : Z.testbit (r / 2) 15 = false).
  { apply Z.testbit_false; [lia|].
    rewrite Z.div_small; [reflexivity|].
    split; [apply Z.div_pos; lia | apply Z.div_lt_upper_bound; lia]. }
  unfold crc_feed_bit. destruct (xorb (Z.odd r) b).
  - rewrite Z.lxor_spec, Hhalf. reflexivity.
  - exact Hhalf.
Qed.

Lemma feed_injective (r r' : Z) (b : bool) :
  word16 r -> word16 r' ->
  crc_feed_bit r b = crc_feed_bit r' b -> r = r'.
Proof.
  intros Hr Hr' Heq.
  assert (Hodd : Z.odd r = Z.odd r').
  { pose proof (feed_top_bit r b Hr) as H1.
    pose proof (feed_top_bit r' b Hr') as H2.
    rewrite Heq, H2 in H1.
    destruct (Z.odd r), (Z.odd r'), b; cbn in H1; congruence. }
  assert (Hhalf : r / 2 = r' / 2).
  { unfold crc_feed_bit in Heq. rewrite <- Hodd in Heq.
    destruct (xorb (Z.odd r) b); [|exact Heq].
    apply (f_equal (fun x => Z.lxor x 0x8408)) in Heq.
    rewrite !Z.lxor_assoc, Z.lxor_nilpotent, !Z.lxor_0_r in Heq. exact Heq. }
  rewrite (Zdiv2_odd_eqn r), (Zdiv2_odd_eqn r'), !Z.div2_div, Hodd, Hhalf.
  reflexivity.
Qed.

Lemma feed_bit_differs (r : Z) (b : bool) :
  word16 r -> crc_feed_bit r (negb b) <> crc_feed_bit r b.
Proof.
  intros Hr Heq.
  pose proof (feed_top_bit r b Hr) as H1.
  pose proof (feed_top_bit r (negb b) Hr) as H2.
  rewrite Heq, H1 in H2.
  destruct (Z.odd r), b; cbn in H2; congruence.
Qed.

Lemma feed_bits_injective (bits : list bool) (r r' : Z) :
  word16 r -> word16 r' ->
  fold_left crc_feed_bit bits r = fold_left crc_feed_bit bits r' -> r = r'.
Proof.
  revert r r'. induction bits as [|b bits IH]; intros r r' Hr Hr' Heq.
  - exact Heq.
  - cbn [fold_left] in Heq.
    apply IH in Heq; [|apply crc_feed_bit_word16; assumption ..].
    apply (feed_injective r r' b); assumption.
Qed.

(** Inverting one bit of one byte inverts one of the bits the CRC is fed. *)
Lemma bits_of_flipped (x k : Z) :
  0 <= k < 8 ->
  exists p b s,
    bits_lsb_first x = p ++ b :: s /\
    bits_lsb_first (Z.lxor x (2 ^ k)) = p ++ negb b :: s.
Proof.
  intros Hk.
  exists (firstn (Z.to_nat k) (bits_lsb_first x)), (Z.testbit x k),
         (skipn (S (Z.to_nat k)) (bits_lsb_first x)).
  assert (Hcases : k = 0 \/ k = 1 \/ k = 2 \/ k = 3 \/ k = 4 \/ k = 5 \/ k = 6 \/ k = 7)
    by lia.
  unfold bits_lsb_first. cbn [map].
  rewrite !Z.lxor_spec, !Z.pow2_bits_eqb by lia.
  assert (Hflip : forall c : bool, xorb c true = negb c) by (intros []; reflexivity).
  assert (Hkeep : forall c : bool, xorb c false = c) by (intros []; reflexivity).
  repeat (destruct Hcases as [->|Hcases];
          [split; [reflexivity|];
           cbn -[Z.testbit]; rewrite ?Hflip, ?Hkeep; reflexivity|]).
  subst k. split; [reflexivity|].
  cbn -[Z.testbit]. rewrite ?Hflip, ?Hkeep. reflexivity.
Qed.

Lemma flipped_differs (x k : Z) : 0 <= k -> Z.lxor x (2 ^ k) <> x.
Proof.
  intros Hk Heq.
  apply (f_equal (fun y => Z.lxor x y)) in Heq.
  rewrite <- Z.lxor_assoc, !Z.lxor_nilpotent, Z.lxor_0_l in Heq.
  pose proof (Z.pow_pos_nonneg 2 k ltac:(lia) Hk). lia.
Qed.

Lemma flipped_byte (x k : Z) :
  0 <= x < 256 -> 0 <= k < 8 -> 0 <= Z.lxor x (2 ^ k) < 256.
Proof.
  intros Hx Hk.
  assert (Hp : 0 < 2 ^ k < 256).
  { split; [apply Z.pow_pos_nonneg; lia|].
    change 256 with (2 ^ 8). apply Z.pow_lt_mono_r; lia. }
  assert (Hnn : 0 <= Z.lxor x (2 ^ k)) by (apply Z.lxor_nonneg; lia).
  split; [exact Hnn|].
  destruct (Z.eq_dec (Z.lxor x (2 ^ k)) 0) as [->|Hnz]; [lia|].
  change 256 with (2 ^ 8).
  apply Z.log2_lt_pow2; [lia|].
  pose proof (Z.log2_lxor x (2 ^ k) ltac:(lia) ltac:(lia)) as Hlog.
  assert (Z.log2 x < 8).
  { destruct (Z.eq_dec x 0) as [->|]; [reflexivity|].
    apply Z.log2_lt_pow2; lia. }
  assert (Z.log2 (2 ^ k) < 8) by (rewrite Z.log2_pow2; lia).
  lia.
Qed.

Lemma crc16_flipped (before after : list Z) (x k : Z) :
  0 <= k < 8 ->
  crc16 (before ++ Z.lxor x (2 ^ k) :: after) <> crc16 (before ++ x :: after).
Proof.
  intros Hk Heq.
  rewrite !crc16_by_register in Heq. cbv zeta in Heq.
  rewrite !flat_map_app in Heq. cbn [flat_map] in Heq.
  destruct (bits_of_flipped x k Hk) as (p & b & s & Hx & Hx').
  rewrite Hx, Hx' in Heq.
  rewrite !fold_left_app in Heq. cbn [fold_left] in Heq.
  set (r := fold_left crc_feed_bit p
              (fold_left crc_feed_bit (flat_map bits_lsb_first before) 65535)) in Heq.
  assert (Hr : word16 r)
    by (do 2 apply crc_feed_bits_word16; unfold word16; lia).
  set (tl := s ++ flat_map bits_lsb_first after) in Heq.
  rewrite <- !fold_left_app in Heq. fold tl in Heq.
  assert (H1 : word16 (fold_left crc_feed_bit tl (crc_feed_bit r (negb b))))
    by (apply crc_feed_bits_word16, crc_feed_bit_word16, Hr).
  assert (H2 : word16 (fold_left crc_feed_bit tl (crc_feed_bit r b)))
    by (apply crc_feed_bits_word16, crc_feed_bit_word16, Hr).
  assert (Hregs : fold_left crc_feed_bit tl (crc_feed_bit r (negb b))
                  = fold_left crc_feed_bit tl (crc_feed_bit r b)).
  { unfold word16 in H1, H2.
    revert Heq H1 H2.
    generalize (fold_left crc_feed_bit tl (crc_feed_bit r (negb b))).
    generalize (fold_left crc_feed_bit tl (crc_feed_bit r b)).
    intros u v Heq Hv Hu. Z.div_mod_to_equations. lia. }
  apply feed_bits_injective in Hregs; [|apply crc_feed_bit_word16; exact Hr ..].
  exact (feed_bit_differs r b Hr Hregs).
Qed.

Lemma crc16_flipped_at (data : list Z) (i : nat) (k : Z) :
  (i < length data)%nat -> 0 <= k < 8 ->
  crc16 (flip_bit data i k) <> crc16 data.
Proof.
  intros Hi Hk. unfold flip_bit.
  destruct (nth_error data i) as [x|] eqn:Hx.
  - rewrite <- (firstn_skipn i data) at 3.
    assert (Hsk : skipn i data = x :: skipn (S i) data).
    { clear Hi. revert i Hx. induction data as [|y data IH]; intros [|i] Hx;
        cbn in Hx; try discriminate.
      - injection Hx as ->. reflexivity.
      - cbn [skipn]. rewrite (IH i Hx). reflexivity. }
    rewrite Hsk. apply crc16_flipped, Hk.
  - apply nth_error_None in Hx. lia.
Qed.

(** The CRC detects every single-bit error: inverting any one of the
    eight bits of any one byte of a sequence changes [__crc16] of the
    sequence, whatever the other bytes are. *)
Theorem crc16_detects_single_bit (data : list Z) (i : nat) (k : Z) :
  (i < length data)%nat -> 0 <= k < 8 ->
  crc16 (flip_bit data i k) <> crc16 data.
Proof.
  exact (crc16_flipped_at data i k).
Qed.

Lemma crc16_detects_single_bit_witness :
  Nat.lt 1 (length [0x01; 0x04; 0x01]) /\
  crc16 (flip_bit [0x01; 0x04; 0x01] 1 2) <> crc16 [0x01; 0x04; 0x01].
Proof.
  split; [cbn; lia|].
  apply (crc16_detects_single_bit [0x01; 0x04; 0x01] 1 2); [cbn; lia | lia].
Defined.

Lemma flip_bit_app (P T : list Z) (i : nat) (k : Z) :
  flip_bit (P ++ T) i k
  = if (i <? length P)%nat then flip_bit P i k ++ T
    else P ++ flip_bit T (i - length P) k.
Proof.
  unfold flip_bit.
  destruct (i <? length P)%nat eqn:Hlt.
  - apply Nat.ltb_lt in Hlt.
    rewrite nth_error_app1 by exact Hlt.
    destruct (nth_error P i) as [x|] eqn:Hx.
    + rewrite List.firstn_app, List.skipn_app.
      replace (i - length P)%nat with 0%nat by lia.
      replace (S i - length P)%nat with 0%nat by lia.
      cbn [firstn skipn]. rewrite app_nil_r, <- app_assoc. reflexivity.
    + apply nth_error_None in Hx. lia.
  - apply Nat.ltb_ge in Hlt.
    rewrite nth_error_app2 by exact Hlt.
    destruct (nth_error T (i - length P)) as [x|]; [|reflexivity].
    rewrite List.firstn_app, List.skipn_app.
    rewrite (List.firstn_all2 P) by exact Hlt.
    rewrite (List.skipn_all2 P) by lia.
    replace (S i - length P)%nat with (S (i - length P)) by lia.
    rewrite <- app_assoc. reflexivity.
Qed.

Lemma flip_bit_length (raw : list Z) (i : nat) (k : Z) :
  length (flip_bit raw i k) = length raw.
Proof.
  unfold flip_bit. destruct (nth_error raw i) as [x|] eqn:Hx; [|reflexivity].
  assert (Hi : (i < length raw)%nat) by (apply nth_error_Some; congruence).
  rewrite length_app. cbn [length]. rewrite length_firstn, length_skipn. lia.
Qed.

Lemma not_forwarded_by_checks (enums : Enums) (raw : list Z) (info : PacketInfo) :
  (2 <= length raw)%nat ->
  crc_ok raw && terminator_ok raw = false ->
  forall p n a,
    receive enums raw (Z.of_nat (length raw)) info <> Returned (Forwarded p n a).
Proof.
  intros Hlen Hchecks p n a.
  destruct info as [[sender|]]; [|discriminate].
  rewrite (receive_by_checks enums raw sender Hlen).
  destruct (version_ok enums raw); cbn [negb]; [|discriminate].
  destruct (kind_ok enums raw); cbn [negb]; [|discriminate].
  destruct (crc_ok raw); cbn [negb andb] in *; [|discriminate].
  rewrite Hchecks. discriminate.
Qed.

(** A frame built by [send_packet] in which one bit was inverted on the
    way, in the payload, in the CRC or in the terminator, is never handed
    to the receiver: whatever the payload and whichever the bit, [receive]
    does not forward it. *)
Theorem receive_rejects_single_bit_error (enums : Enums) (P : list Z)
    (i : nat) (k : Z) (info : PacketInfo) :
  (i < length (encode P))%nat -> 0 <= k < 8 ->
  let raw := flip_bit (encode P) i k in
  forall p n a,
    receive enums raw (Z.of_nat (length raw)) info <> Returned (Forwarded p n a).
Proof.
  intros Hi Hk raw.
  assert (Hlen : length raw = (length P + 3)%nat).
  { unfold raw. rewrite flip_bit_length. unfold encode.
    rewrite length_app. reflexivity. }
  apply not_forwarded_by_checks; [lia|].
  destruct (crc_split_join (crc16 P) (crc16_word16 P)) as (Hhi & Hlo & Hjoin).
  apply is_byte_range in Hhi, Hlo.
  unfold raw, encode in *. rewrite length_app in Hi. cbn [length] in Hi.
  rewrite flip_bit_app.
  destruct (i <? length P)%nat eqn:Hlt.
  - apply Nat.ltb_lt in Hlt.
    destruct (checks_of_tail (flip_bit P i k) (Z.shiftr (crc16 P) 8)
                (Z.land (crc16 P) 0xFF) TERMINATOR) as [-> _].
    rewrite Hjoin.
    pose proof (crc16_flipped_at P i k Hlt Hk) as Hne.
    apply Z.eqb_neq in Hne. rewrite Hne. reflexivity.
  - apply Nat.ltb_ge in Hlt.
    assert (Hj : (i - length P = 0 \/ i - length P = 1 \/ i - length P = 2)%nat) by lia.
    destruct Hj as [-> | [-> | ->]]; unfold flip_bit; cbn [nth_error firstn skipn app].
    + match goal with
      | |- context [?P' ++ [?a; ?b; ?c]] =>
          destruct (checks_of_tail P' a b c) as [-> _]
      end.
      pose proof (flipped_byte _ k Hhi Hk) as Hhi'.
      destruct (join_split _ _ Hhi' Hlo) as [H1 _].
      destruct (Z.eqb_spec (crc16 P)
                  (Z.lor (Z.shiftl (Z.lxor (Z.shiftr (crc16 P) 8) (2 ^ k)) 8)
                     (Z.land (crc16 P) 0xFF))) as [Heq|]; [|reflexivity].
      rewrite <- Heq in H1. symmetry in H1.
      exfalso. exact (flipped_differs _ k ltac:(lia) H1).
    + match goal with
      | |- context [?P' ++ [?a; ?b; ?c]] =>
          destruct (checks_of_tail P' a b c) as [-> _]
      end.
      pose proof (flipped_byte _ k Hlo Hk) as Hlo'.
      destruct (join_split _ _ Hhi Hlo') as [_ H2].
      destruct (Z.eqb_spec (crc16 P)
                  (Z.lor (Z.shiftl (Z.shiftr (crc16 P) 8) 8)
                     (Z.lxor (Z.land (crc16 P) 0xFF) (2 ^ k)))) as [Heq|]; [|reflexivity].
      rewrite <- Heq in H2. symmetry in H2.
      exfalso. exact (flipped_differs _ k ltac:(lia) H2).
    + match goal with
      | |- context [?P' ++ [?a; ?b; ?c]] =>
          destruct (checks_of_tail P' a b c) as [_ ->]
      end.
      pose proof (flipped_differs TERMINATOR k ltac:(lia)) as Hne.
      apply Z.eqb_neq in Hne. rewrite Hne. apply andb_false_r.
Qed.

Lemma receive_rejects_single_bit_error_witness :
  Nat.lt 2 (length (encode [0x01; 0x04; 0x01])) /\
  receive spec_enums (flip_bit (encode [0x01; 0x04; 0x01]) 2 0)
    (Z.of_nat (length (flip_bit (encode [0x01; 0x04; 0x01]) 2 0)))
    {| sender_id := Some 7 |}
  <> Returned (Forwarded [0x01; 0x04; 0x00] 3 (Some 7)).
Proof.
  split; [cbn; lia|].
  apply (receive_rejects_single_bit_error spec_enums [0x01; 0x04; 0x01] 2 0
           {| sender_id := Some 7 |} ltac:(cbn; lia) ltac:(lia)
           [0x01; 0x04; 0x00] 3 (Some 7)).
Defined.

End PjonMore.

(** * Further properties of the pairing handler *)

Module PairingMore.
Import Pairing PairingFacts.

(** ** enable and disable *)

(** [enable] leaves nothing of an earlier session: the object it leaves
    is the same whatever the object was before, pairing switched on, every
    pointer and counter reset, the client list as given.  [disable] resets
    the same attributes and keeps only the client list. *)
Theorem enable_and_disable_reset (arg : option (Z + list Z)) (s : State)
    (w : World) :
  fst (enable arg s w)
  = mkState [] None [] 0 None 0 0 true WRITE_ADDRESS None None false []
      (match arg with
       | Some (inl one) => Some [one]
       | Some (inr many) => Some many
       | None => None
       end) /\
  fst (disable s w)
  = mkState [] None [] 0 None 0 0 false WRITE_ADDRESS None None false []
      (client_id s) /\
  log (snd (enable arg s w)) = log w ++ [PairingModeActivated] /\
  log (snd (disable s w)) = log w ++ [PairingModeDeactivated].
Proof.
  destruct s, w. destruct arg as [[one|many]|]; repeat split.
Qed.

(** ** The set of found devices *)

Lemma find_key_none (record : PairingDeviceRecord) (l : list PairingDeviceRecord) :
  find (fun r => bool_decide (device_client_id record = device_client_id r)
                 && bool_decide (device_serial_number record = device_serial_number r))
       l = None ->
  ~ In (device_key record) (map device_key l).
Proof.
  intros Hnone Hin. apply in_map_iff in Hin. destruct Hin as (r & Hkey & Hr).
  pose proof (find_none _ _ Hnone r Hr) as Hf. cbn beta in Hf.
  unfold device_key in Hkey. injection Hkey as H1 H2.
  rewrite (bool_decide_eq_true_2 _ (eq_sym H1)) in Hf.
  rewrite (bool_decide_eq_true_2 _ (eq_sym H2)) in Hf. discriminate.
Qed.

Lemma find_key_some (record r : PairingDeviceRecord) (l : list PairingDeviceRecord) :
  find (fun r => bool_decide (device_client_id record = device_client_id r)
                 && bool_decide (device_serial_number record = device_serial_number r))
       l = Some r ->
  In r l /\ device_key r = device_key record.
Proof.
  intros Hsome. apply find_some in Hsome. destruct Hsome as [Hin Hf].
  split; [exact Hin|]. cbn beta in Hf.
  apply andb_true_iff in Hf. destruct Hf as [H1 H2].
  apply bool_decide_eq_true_1 in H1, H2. unfold device_key. congruence.
Qed.

Lemma found_devices_append_device (record : PairingDeviceRecord) (s : State) :
  found_devices (snd (append_device record s)) = found_devices s
  /\ In (device_key record) (map device_key (found_devices s))
  \/ found_devices (snd (append_device record s)) = found_devices s ++ [record]
     /\ ~ In (device_key record) (map device_key (found_devices s)).
Proof.
  unfold append_device.
  assert (Hfd : found_devices (set_waiting_for_packet None s) = found_devices s)
    by (destruct s; reflexivity).
  rewrite Hfd.
  destruct (find _ (found_devices s)) as [r|] eqn:Hfind; cbn [snd].
  - left. split; [exact Hfd|].
    destruct (find_key_some _ _ _ Hfind) as [Hin <-].
    apply in_map, Hin.
  - right. split; [destruct s; reflexivity|].
    apply find_key_none, Hfind.
Qed.

Lemma find_same {A : Type} (f g : A -> bool) (l : list A) :
  (forall x, f x = g x) -> find f l = find g l.
Proof.
  intros H. induction l as [|x l IH]; [reflexivity|].
  cbn [find]. rewrite H, IH. reflexivity.
Qed.

Lemma find_snoc {A : Type} (f : A -> bool) (l : list A) (x : A) :
  find f (l ++ [x])
  = match find f l with Some y => Some y | None => if f x then Some x else None end.
Proof.
  induction l as [|y l IH]; [reflexivity|].
  cbn [app find]. destruct (f y); [reflexivity | exact IH].
Qed.

Lemma NoDup_snoc {A : Type} (x : A) (l : list A) :
  List.NoDup l -> ~ In x l -> List.NoDup (l ++ [x]).
Proof.
  intros Hnd Hnot. apply List.NoDup_app; [exact Hnd | |].
  - constructor; [intros [] | constructor].
  - intros a Ha [<-|[]]. exact (Hnot Ha).
Qed.

Lemma NoDup_sublist_tail {A : Type} (before : list A) (x : A) (rest : list A) :
  List.NoDup (before ++ x :: rest) -> List.NoDup rest.
Proof.
  intros H. apply NoDup_app_remove_l in H. inversion H. assumption.
Qed.

(** [append_device] is idempotent per device: it clears the wait for a
    packet; the record it returns carries the client and the serial number
    it was called with; the records found so far are kept, and at most the
    new one is added; and a device that answers again, with whatever other
    data, gets the record of its first answer back and changes nothing. *)
Theorem append_device_once_per_device (record again : PairingDeviceRecord)
    (s : State) :
  let r := append_device record s in
  waiting_for_packet (snd r) = None /\
  device_key (fst r) = device_key record /\
  (found_devices (snd r) = found_devices s
   \/ found_devices (snd r) = found_devices s ++ [record]) /\
  (device_key again = device_key record ->
   append_device again (snd r) = r).
Proof.
  intros r. subst r. unfold append_device.
  destruct s as [fd pd regs ts wp att tot en cmd pa pt bsf fin cid].
  cbn [set_waiting_for_packet found_devices].
  destruct (find _ fd) as [r|] eqn:Hfind; cbn [fst snd set_found_devices
    set_waiting_for_packet found_devices waiting_for_packet].
  - destruct (find_key_some _ _ _ Hfind) as [Hin Hkey].
    split; [reflexivity|]. split; [exact Hkey|]. split; [left; reflexivity|].
    intros Hagain.
    assert (Hsame : find (fun r0 => bool_decide (device_client_id again = device_client_id r0)
                       && bool_decide (device_serial_number again = device_serial_number r0)) fd
                    = Some r).
    { rewrite <- Hfind. apply find_same. intros x.
      unfold device_key in Hagain. injection Hagain as -> ->. reflexivity. }
    rewrite Hsame. reflexivity.
  - split; [reflexivity|]. split; [reflexivity|]. split; [right; reflexivity|].
    intros Hagain.
    assert (Hsame : find (fun r0 => bool_decide (device_client_id again = device_client_id r0)
                       && bool_decide (device_serial_number again = device_serial_number r0))
                      (fd ++ [record])
                    = Some record).
    { rewrite find_snoc.
      assert (Hnone : find (fun r0 => bool_decide (device_client_id again = device_client_id r0)
                       && bool_decide (device_serial_number again = device_serial_number r0)) fd
                      = None).
      { rewrite <- Hfind. apply find_same. intros x.
        unfold device_key in Hagain. injection Hagain as -> ->. reflexivity. }
      rewrite Hnone. cbn [find].
      unfold device_key in Hagain. injection Hagain as -> ->.
      rewrite !bool_decide_eq_true_2 by reflexivity. reflexivity. }
    rewrite Hsame. reflexivity.
Qed.

Lemma append_device_once_per_device_witness :
  append_device (example_device 8 3)
    (snd (append_device (example_device 7 2) initial_state))
  = append_device (example_device 7 2) initial_state.
Proof.
  apply (append_device_once_per_device (example_device 7 2) (example_device 8 3)
           initial_state); reflexivity.
Defined.


(** ** The register set *)

Lemma remove_first_with_id_In (id : Z) (r : PairingRegisterRecord)
    (l : list PairingRegisterRecord) :
  In r (remove_first_with_id id l) -> In r l.
Proof.
  induction l as [|x l IH]; [intros []|].
  cbn [remove_first_with_id]. destruct (register_id x =? id).
  - intros H. right. exact H.
  - intros [<-|H]; [left; reflexivity | right; apply IH, H].
Qed.

Lemma remove_first_with_id_other (id : Z) (r : PairingRegisterRecord)
    (l : list PairingRegisterRecord) :
  register_id r <> id -> In r l -> In r (remove_first_with_id id l).
Proof.
  intros Hne. induction l as [|x l IH]; [intros []|].
  cbn [remove_first_with_id]. destruct (Z.eqb_spec (register_id x) id) as [Heq|_].
  - intros [<-|H]; [contradiction | exact H].
  - intros [<-|H]; [left; reflexivity | right; apply IH, H].
Qed.

Lemma remove_first_with_id_NoDup (id : Z) (l : list PairingRegisterRecord) :
  List.NoDup (map register_id l) ->
  List.NoDup (map register_id (remove_first_with_id id l)) /\
  ~ In id (map register_id (remove_first_with_id id l)).
Proof.
  induction l as [|x l IH]; [intros _; split; [constructor | intros []]|].
  cbn [map remove_first_with_id]. intros Hnd. inversion Hnd as [|? ? Hx Hl]. subst.
  destruct (Z.eqb_spec (register_id x) id) as [Heq|Hne].
  - subst id. split; assumption.
  - destruct (IH Hl) as [IH1 IH2]. cbn [map]. split.
    + constructor; [|exact IH1].
      intros Hin. apply Hx. apply in_map_iff in Hin.
      destruct Hin as (y & Hy & Hin). apply in_map_iff.
      exists y. split; [exact Hy|]. apply (remove_first_with_id_In id), Hin.
    + intros [Heq|Hin]; [contradiction | exact (IH2 Hin)].
Qed.

Lemma remove_first_with_id_length (id : Z) (l : list PairingRegisterRecord) :
  (length (remove_first_with_id id l) <= length l)%nat.
Proof.
  induction l as [|x l IH]; [reflexivity|].
  cbn [remove_first_with_id]. destruct (register_id x =? id); cbn [length]; lia.
Qed.

Lemma registers_append_register (r : PairingRegisterRecord) (s : State) :
  pairing_device_registers (append_register r s)
  = remove_first_with_id (register_id r) (pairing_device_registers s) ++ [r].
Proof. destruct s. reflexivity. Qed.

(** [append_input_register] and the three methods like it replace by id:
    the new record is in the set afterwards; every record with another id
    is kept and none is invented; and when the ids in the set were
    distinct, they still are, so that the record of that id is the new
    one. *)
Theorem append_register_replaces_by_id (r : PairingRegisterRecord) (s : State) :
  let before := pairing_device_registers s in
  let after := pairing_device_registers (append_register r s) in
  In r after /\
  (forall x, register_id x <> register_id r -> (In x after <-> In x before)) /\
  (forall x, In x after -> x = r \/ In x before) /\
  (length after <= S (length before))%nat /\
  (List.NoDup (map register_id before) ->
   List.NoDup (map register_id after) /\
   forall x, In x after -> register_id x = register_id r -> x = r).
Proof.
  intros before after. subst before after. rewrite registers_append_register.
  set (regs := pairing_device_registers s).
  split; [apply in_or_app; right; left; reflexivity|].
  split.
  { intros x Hne. rewrite in_app_iff. split.
    - intros [Hin|[Heq|[]]]; [apply (remove_first_with_id_In _ _ _ Hin)|].
      subst x. contradiction.
    - intros Hin. left. apply remove_first_with_id_other; assumption. }
  split.
  { intros x Hin. apply in_app_iff in Hin.
    destruct Hin as [Hin|[Heq|[]]]; [right | left; symmetry; exact Heq].
    apply (remove_first_with_id_In _ _ _ Hin). }
  split.
  { rewrite length_app. cbn [length].
    pose proof (remove_first_with_id_length (register_id r) regs). lia. }
  intros Hnd.
  destruct (remove_first_with_id_NoDup (register_id r) regs Hnd) as [H1 H2].
  split.
  - rewrite map_app. cbn [map]. apply NoDup_snoc; assumption.
  - intros x Hin Hid. apply in_app_iff in Hin.
    destruct Hin as [Hin|[Heq|[]]]; [|symmetry; exact Heq].
    exfalso. apply H2. apply in_map_iff. exists x. split; assumption.
Qed.

Lemma append_register_replaces_by_id_witness :
  List.NoDup
    (map register_id
       (pairing_device_registers
          (append_register (PairingInputRegisterRecord 1000 0 U8 None)
             (append_input_register 1000 0 UNKNOWN None initial_state)))).
Proof.
  destruct (append_register_replaces_by_id
              (PairingInputRegisterRecord 1000 0 U8 None)
              (append_input_register 1000 0 UNKNOWN None initial_state))
    as (_ & _ & _ & _ & Hunique).
  apply Hunique. cbn. constructor; [intros [] | constructor].
Defined.

(** What every registers set-up of [discover_device] maintains: a property
    of the register set that holds of the empty set and survives the
    replacement by id of a record whose data type is UNKNOWN. *)
Section RegistersSetUp.
Variable Q : list PairingRegisterRecord -> Prop.
Hypothesis Q_nil : Q [].
Hypothesis Q_append :
  forall r regs, is_unknown r = true -> Q regs ->
                 Q (remove_first_with_id (register_id r) regs ++ [r]).

Let QS (sw : State * World) : Prop := Q (pairing_device_registers (fst sw)).

Lemma Q_append_register (r : PairingRegisterRecord) (s : State) (w : World) :
  is_unknown r = true -> QS (s, w) -> forall w', QS (append_register r s, w').
Proof.
  unfold QS. cbn [fst]. intros Hr H w'.
  rewrite registers_append_register. apply Q_append; assumption.
Qed.

Lemma configure_registers_Q env device size type s w :
  QS (s, w) -> QS (configure_registers env device size type s w).
Proof.
  intros H. unfold configure_registers.
  apply fold_left_preserves; [exact H|].
  intros [s1 w1] i H1. unfold get_by_address.
  destruct (registers_get_by_address env _ device type i) as [record|];
    destruct type; cbn [fst snd]; try exact H1;
    try (destruct (uuid4 env (registry_read w1)) as [id w2]);
    apply (Q_append_register _ s1 w1); try exact H1; reflexivity.
Qed.

Lemma configure_attributes_Q env device size s w :
  QS (s, w) -> QS (configure_attributes env device size s w).
Proof.
  intros H. unfold configure_attributes.
  apply fold_left_preserves; [exact H|].
  intros [s1 w1] i H1. unfold get_by_address.
  destruct (registers_get_by_address env _ device ATTRIBUTE i) as [[]|];
    cbn [fst snd]; try exact H1;
    try (destruct (uuid4 env (registry_read w1)) as [id' w2]);
    apply (Q_append_register _ s1 w1); try exact H1; reflexivity.
Qed.

Lemma configure_settings_Q env device size s w :
  QS (s, w) -> QS (configure_settings env device size s w).
Proof.
  intros H. unfold configure_settings.
  apply fold_left_preserves; [exact H|].
  intros [s1 w1] i H1. unfold get_by_address.
  destruct (registers_get_by_address env _ device SETTING i) as [[]|];
    cbn [fst snd]; try exact H1;
    try (destruct (uuid4 env (registry_read w1)) as [id' w2]);
    apply (Q_append_register _ s1 w1); try exact H1; reflexivity.
Qed.

Lemma configure_device_Q env d s w :
  QS (s, w) -> QS (configure_device env d s w).
Proof.
  intros H. unfold configure_device.
  pose proof (configure_registers_Q env (device_id d) (input_registers_size d) INPUT s w H) as H1.
  destruct (configure_registers env (device_id d) (input_registers_size d) INPUT s w) as [s1 w1].
  pose proof (configure_registers_Q env (device_id d) (output_registers_size d) OUTPUT s1 w1 H1) as H2.
  destruct (configure_registers env (device_id d) (output_registers_size d) OUTPUT s1 w1) as [s2 w2].
  pose proof (configure_attributes_Q env (device_id d) (attributes_registers_size d) s2
                (logger ConfiguredRegisters w2) H2) as H3.
  destruct (configure_attributes env (device_id d) (attributes_registers_size d) s2
              (logger ConfiguredRegisters w2)) as [s3 w3].
  pose proof (configure_settings_Q env (device_id d) (settings_registers_size d) s3
                (logger ConfiguredAttributes w3) H3) as H4.
  destruct (configure_settings env (device_id d) (settings_registers_size d) s3
              (logger ConfiguredAttributes w3)) as [s4 w4].
  exact H4.
Qed.

Lemma discover_device_from_Q env found s w :
  QS (discover_device_from env found s w).
Proof.
  revert s w. induction found as [|d rest IH]; intros s w.
  - destruct s, w. exact Q_nil.
  - cbn [discover_device_from].
    assert (Hempty : forall d' w', QS (set_pairing_device d'
              (set_total_attempts 0 (set_attempts 0 (set_pairing_device (Some d)
                 (set_found_devices rest (reset_device_pointers s))))), w'))
      by (intros d' w'; destruct s; exact Q_nil).
    destruct (devices_get_by_id env (registry_reads w) (device_id d)) as [record|].
    + destruct (registry_device_address record =? ADDRESS_NOT_ASSIGNED).
      * destruct (devices_find_free_address env _ (device_client_id d)) as [a|].
        -- apply configure_device_Q, Hempty.
        -- apply IH.
      * apply configure_device_Q, Hempty.
    + destruct (devices_find_free_address env _ (device_client_id d)) as [a|].
      * apply configure_device_Q, Hempty.
      * apply IH.
Qed.

End RegistersSetUp.


(** ** Uniqueness of the records, at all times *)

Lemma records_touch wp att tot t s :
  found_devices (touch wp att tot t s) = found_devices s /\
  pairing_device_registers (touch wp att tot t s) = pairing_device_registers s.
Proof. destruct s. split; reflexivity. Qed.

Lemma records_move_to_next_cmd s :
  found_devices (move_to_next_cmd s) = found_devices s /\
  pairing_device_registers (move_to_next_cmd s) = pairing_device_registers s.
Proof.
  unfold move_to_next_cmd, move_to_next_register_for_init.
  repeat match goal with
         | |- context [if ?b then _ else _] => destruct b
         | |- context [match ?x with Some _ => _ | None => _ end] => destruct x
         end; destruct s; split; reflexivity.
Qed.

Lemma unique_records_same s s' :
  found_devices s' = found_devices s ->
  pairing_device_registers s' = pairing_device_registers s ->
  unique_records s -> unique_records s'.
Proof. unfold unique_records. intros -> ->. exact id. Qed.

Lemma unique_records_disabled s : unique_records (disabled_state s).
Proof. destruct s. split; constructor. Qed.

Lemma NoDup_ids_append (r : PairingRegisterRecord) (regs : list PairingRegisterRecord) :
  List.NoDup (map register_id regs) ->
  List.NoDup (map register_id (remove_first_with_id (register_id r) regs ++ [r])).
Proof.
  intros Hnd.
  destruct (remove_first_with_id_NoDup (register_id r) regs Hnd) as [H1 H2].
  rewrite map_app. cbn [map]. apply NoDup_snoc; assumption.
Qed.

Lemma unique_records_discover_device env s w :
  unique_records s -> unique_records (fst (discover_device env s w)).
Proof.
  intros [Hfd _]. split.
  - destruct (discover_device_spec env s w) as [_ [->|Hsome]].
    + destruct s. constructor.
    + destruct Hsome as (before & d & rest & a & regs & Hsplit & ->).
      rewrite Hsplit, map_app in Hfd. cbn [map] in Hfd.
      apply NoDup_sublist_tail in Hfd.
      destruct s. exact Hfd.
  - apply (discover_device_from_Q (fun regs => List.NoDup (map register_id regs))).
    + constructor.
    + intros r regs _. apply NoDup_ids_append.
Qed.

Lemma tick_unique_records env s w s' w' :
  tick env s w s' w' -> unique_records s -> unique_records s'.
Proof.
  intros H Hs. destruct H; try exact Hs.
  - eapply unique_records_same; [apply records_touch .. |].
    apply unique_records_disabled.
  - eapply unique_records_same; [apply records_touch .. | exact Hs].
  - apply unique_records_discover_device.
    eapply unique_records_same; [| | exact Hs]; destruct s; reflexivity.
  - apply unique_records_discover_device, Hs.
  - eapply unique_records_same; [apply records_touch .. |].
    eapply unique_records_same; [apply records_move_to_next_cmd .. | exact Hs].
Qed.

Lemma unique_records_append_register r s :
  unique_records s -> unique_records (append_register r s).
Proof.
  intros [Hfd Hregs]. split.
  - destruct s. exact Hfd.
  - rewrite registers_append_register. apply NoDup_ids_append, Hregs.
Qed.

Lemma step_unique_records env sw e :
  unique_records (fst sw) -> unique_records (fst (step env sw e)).
Proof.
  destruct sw as [s w]. cbn [fst]. intros Hs.
  destruct e; cbn [step fst].
  - apply (tick_unique_records env s w _ _ (loop_tick env s w) Hs).
  - destruct s, w. destruct arg as [[one|many]|]; split; constructor.
  - destruct s, w. split; constructor.
  - destruct Hs as [Hfd Hregs]. split.
    + destruct (found_devices_append_device record s) as [[-> _]|[-> Hnew]];
        [exact Hfd|].
      rewrite map_app. cbn [map]. apply NoDup_snoc; assumption.
    + unfold append_device. destruct (find _ _); destruct s; exact Hregs.
  - apply unique_records_append_register, Hs.
  - apply unique_records_append_register, Hs.
  - apply unique_records_append_register, Hs.
  - apply unique_records_append_register, Hs.
  - destruct s. exact Hs.
  - unfold move_to_next_register_for_init.
    repeat match goal with
           | |- context [if ?b then _ else _] => destruct b
           | |- context [match ?x with Some _ => _ | None => _ end] => destruct x
           end; destruct s; exact Hs.
  - apply unique_records_discover_device, Hs.
Qed.

(** Whatever is called on the handler, in whatever order, with whatever
    clock, client and registries: a set of found devices that holds one
    record per client and serial number and a register set that holds one
    record per id stay that way.  They are so from [enable] on. *)
Theorem records_stay_unique (env : Env) (events : list Event) (s : State)
    (w : World) :
  unique_records s ->
  unique_records (fst (run env (s, w) events)) /\
  forall arg,
    unique_records (fst (run env (enable arg s w) events)).
Proof.
  assert (Hrun : forall sw, unique_records (fst sw) ->
                            unique_records (fst (run env sw events))).
  { induction events as [|e events IH]; intros sw H; [exact H|].
    cbn [run fold_left]. apply IH, step_unique_records, H. }
  intros Hs. split; [apply (Hrun (s, w)), Hs|].
  intros arg. apply Hrun.
  destruct s, w. destruct arg as [[one|many]|]; split; constructor.
Qed.

Lemma records_stay_unique_witness :
  unique_records
    (fst (run example_env (initial_state, fresh_world)
            (example_search 2 ++ example_enrollment 1))).
Proof.
  refine (proj1 (records_stay_unique example_env
                   (example_search 2 ++ example_enrollment 1) initial_state
                   fresh_world _)).
  split; constructor.
Defined.

(** ** The registers [discover_device] sets up *)

(** Every register [discover_device] sets up for the device it takes up
    has data type UNKNOWN, whatever the registries answer: each of them
    will be asked for. *)
Theorem discover_device_registers_unknown (env : Env) (s : State) (w : World) :
  List.Forall (fun r => is_unknown r = true)
    (pairing_device_registers (fst (discover_device env s w))) /\
  (has_registers_to_init (fst (discover_device env s w)) = true
   <-> pairing_device_registers (fst (discover_device env s w)) <> []).
Proof.
  assert (Hall : List.Forall (fun r => is_unknown r = true)
                   (pairing_device_registers (fst (discover_device env s w)))).
  { apply (discover_device_from_Q (List.Forall (fun r => is_unknown r = true))).
    - constructor.
    - intros r regs Hr Hregs. apply Forall_app. split.
      + apply List.Forall_forall. intros x Hx.
        apply (proj1 (List.Forall_forall _ _) Hregs).
        apply (remove_first_with_id_In _ _ _ Hx).
      + constructor; [exact Hr | constructor]. }
  split; [exact Hall|].
  unfold has_registers_to_init.
  destruct (pairing_device_registers (fst (discover_device env s w))) as [|r regs].
  - cbn. split; [discriminate | intros H; contradiction].
  - inversion Hall as [|? ? Hr _]. subst. cbn [existsb]. rewrite Hr.
    split; [discriminate | reflexivity].
Qed.


Lemma client_id_discover_device env s w :
  client_id (fst (discover_device env s w)) = client_id s /\
  (pairing_enabled s = false ->
   pairing_enabled (fst (discover_device env s w)) = false).
Proof.
  destruct (discover_device_spec env s w) as [_ [->|Hsome]].
  - destruct s. split; reflexivity.
  - destruct Hsome as (before & d & rest & a & regs & _ & ->).
    destruct s. split; [reflexivity | exact id].
Qed.

(** ** The calls of the client *)

Lemma calls_since_refl P w : calls_since P w w.
Proof. exists []. split; [symmetry; apply app_nil_r | constructor]. Qed.

Lemma calls_since_same P w w' :
  client_calls w' = client_calls w -> calls_since P w w'.
Proof. intros H. exists []. split; [rewrite H, app_nil_r; reflexivity | constructor]. Qed.

Lemma calls_since_trans P w1 w2 w3 :
  calls_since P w1 w2 -> calls_since P w2 w3 -> calls_since P w1 w3.
Proof.
  intros (n1 & H1 & F1) (n2 & H2 & F2). exists (n1 ++ n2).
  split; [rewrite H2, H1, app_assoc; reflexivity | apply Forall_app; split; assumption].
Qed.

Lemma calls_since_client_call (P : ClientCall -> Prop) env c w :
  P c -> calls_since P w (snd (client_call env c w)).
Proof.
  intros Hc. exists [c]. split; [apply client_calls_client_call|].
  constructor; [exact Hc | constructor].
Qed.

Lemma client_id_send_pairing_cmd env d s w :
  client_id (fst (send_pairing_cmd env d s w)) = client_id s.
Proof.
  destruct (send_pairing_cmd_spec env d s w) as (wp & att & tot & t & -> & _).
  apply client_id_touch.
Qed.

(** The calls a handler with client list [cid] makes, given what its two
    ways of reaching the client do with a payload that opens with the
    version and the DISCOVER kind. *)
Section ClientCalls.
Variable env : Env.
Variable P : ClientCall -> Prop.
Variable cid : option (list Z).
Hypothesis broadcast_ok :
  forall s payload w,
    client_id s = cid -> discover_headed payload ->
    calls_since P w (snd (broadcast env s payload w)).
Hypothesis send_ok :
  forall address data w,
    discover_headed data ->
    calls_since P w
      (snd (match cid with
            | Some ids => send_to_each env ids address data false w
            | None =>
                client_call env
                  {| call_address := Some address; call_payload := data;
                     call_waiting_time := 0; call_client_id := None |} w
            end)).

Lemma headed (rest : list Z) :
  discover_headed (ProtocolVersion_V1 :: Packet_DISCOVER :: rest).
Proof. exists rest. reflexivity. Qed.

Lemma calls_broadcast_search_devices_handler s w :
  client_id s = cid ->
  calls_since P w (snd (broadcast_search_devices_handler env s w)).
Proof.
  intros Hcid. unfold broadcast_search_devices_handler.
  pose proof (client_calls_mark_request_sent env s w) as Hc.
  pose proof (client_id_mark_request_sent env s w) as Hi.
  destruct (mark_request_sent env s w) as [s1 w1]. cbn [fst snd] in Hc, Hi.
  match goal with
  | |- context [broadcast ?e ?s' ?p ?w'] =>
      pose proof (broadcast_ok s' p w' ltac:(congruence) (headed _)) as Hb;
      destruct (broadcast e s' p w') as [p' w2]
  end.
  cbn [snd] in *. eapply calls_since_trans; [|exact Hb].
  apply calls_since_same. rewrite client_calls_logger. exact Hc.
Qed.

Lemma calls_broadcast_write_address_handler d s w :
  client_id s = cid ->
  calls_since P w (snd (broadcast_write_address_handler env d s w)).
Proof.
  intros Hcid. unfold broadcast_write_address_handler.
  pose proof (client_calls_mark_request_sent env s w) as Hc.
  pose proof (client_id_mark_request_sent env s w) as Hi.
  destruct (mark_request_sent env s w) as [s1 w1]. cbn [fst snd] in Hc, Hi.
  match goal with
  | |- context [broadcast ?e ?s' ?p ?w'] =>
      pose proof (broadcast_ok s' p w' ltac:(congruence) (headed _)) as Hb;
      destruct (broadcast e s' p w') as [p' w2]
  end.
  cbn [snd] in *. eapply calls_since_trans; [|exact Hb].
  apply calls_since_same. rewrite client_calls_logger. exact Hc.
Qed.

Lemma calls_send_data_to_device cmd rest address s w :
  client_id s = cid ->
  calls_since P w
    (snd (send_data_to_device env
            (Packet_DISCOVER :: PairingCommand_value cmd :: rest) address s w)).
Proof.
  intros Hcid. rewrite send_data_to_device_returns. unfold send_data_inserted.
  pose proof (client_calls_mark_request_sent env s w) as Hc.
  pose proof (client_id_mark_request_sent env s w) as Hi.
  destruct (mark_request_sent env s w) as [s1 w1]. cbn [fst snd] in Hc, Hi.
  rewrite Hi, Hcid.
  pose proof (send_ok address
                (ProtocolVersion_V1 :: Packet_DISCOVER
                 :: PairingCommand_value cmd :: rest)
                (logger PreparingToSendPairingCommand w1) (headed _)) as Hs.
  destruct (match cid with Some _ => _ | None => _ end) as [[r data'] w2].
  cbn [snd] in Hs.
  assert (Hw : calls_since P w w2).
  { eapply calls_since_trans; [|exact Hs].
    apply calls_since_same. rewrite client_calls_logger. exact Hc. }
  destruct r; cbn [negb]; [exact Hw|].
  pose proof (client_calls_time_time env w2) as Ht.
  destruct (time_time env w2) as [now w3]. cbn [snd] in *.
  eapply calls_since_trans; [exact Hw|]. apply calls_since_same, Ht.
Qed.

Lemma calls_send_pairing_cmd d s w :
  client_id s = cid ->
  calls_since P w (snd (send_pairing_cmd env d s w)).
Proof.
  intros Hcid. unfold send_pairing_cmd.
  assert (H1 : exists s1 w1,
            (if bool_decide (pairing_cmd s = WRITE_ADDRESS)
             then broadcast_write_address_handler env d s w else (s, w)) = (s1, w1)
            /\ client_id s1 = cid /\ calls_since P w w1).
  { destruct (bool_decide (pairing_cmd s = WRITE_ADDRESS)).
    - pose proof (calls_broadcast_write_address_handler d s w Hcid) as Hc.
      destruct (broadcast_write_address_handler_spec env d s w) as (Hs & _).
      destruct (broadcast_write_address_handler env d s w) as [s1 w1].
      cbn [fst snd] in *. exists s1, w1. split; [reflexivity|].
      split; [rewrite Hs, client_id_touch; exact Hcid | exact Hc].
    - exists s, w. split; [reflexivity|]. split; [exact Hcid | apply calls_since_refl]. }
  destruct H1 as (s1 & w1 & -> & Hcid1 & Hw1).
  assert (H2 : exists s2 w2,
            (if bool_decide (pairing_cmd s1 = PROVIDE_REGISTER_STRUCTURE)
             then send_provide_register_structure_handler env d s1 w1 else (s1, w1))
            = (s2, w2)
            /\ client_id s2 = cid /\ calls_since P w w2).
  { destruct (bool_decide (pairing_cmd s1 = PROVIDE_REGISTER_STRUCTURE)).
    - destruct (send_provide_register_structure_handler_spec env d s1 w1)
        as ((wp & att & tot & t & Hs & _) & _).
      assert (Hc : calls_since P w1
                     (snd (send_provide_register_structure_handler env d s1 w1))).
      { unfold send_provide_register_structure_handler.
        destruct (processing_register_address s1) as [address|];
          [destruct (processing_register_type s1) as [type|]|].
        - match goal with
          | |- context [send_data_to_device ?e (_ :: _ :: ?r) ?a ?s' ?w'] =>
              pose proof (calls_send_data_to_device PROVIDE_REGISTER_STRUCTURE
                            r a s' w' Hcid1) as Hd;
              destruct (send_data_to_device e
                          (Packet_DISCOVER
                           :: PairingCommand_value PROVIDE_REGISTER_STRUCTURE :: r)
                          a s' w')
                as [[[o p'] s'']  w'']
          end.
          exact Hd.
        - apply calls_since_same, client_calls_logger.
        - apply calls_since_same, client_calls_logger. }
      destruct (send_provide_register_structure_handler env d s1 w1) as [s2 w2].
      cbn [fst snd] in *. exists s2, w2. split; [reflexivity|].
      split; [rewrite Hs, client_id_touch; exact Hcid1|].
      eapply calls_since_trans; eassumption.
    - exists s1, w1. split; [reflexivity|]. split; assumption. }
  destruct H2 as (s2 & w2 & -> & Hcid2 & Hw2).
  destruct (bool_decide (pairing_cmd s2 = PAIRING_FINISHED)); [|exact Hw2].
  unfold send_finalize_pairing_handler.
  match goal with
  | |- context [send_data_to_device ?e (_ :: _ :: ?r) ?a ?s' ?w'] =>
      pose proof (calls_send_data_to_device PAIRING_FINISHED r a s' w' Hcid2) as Hd;
      destruct (send_data_to_device e
                  (Packet_DISCOVER :: PairingCommand_value PAIRING_FINISHED :: r)
                  a s' w')
        as [[[o p'] s''] w'']
  end.
  cbn [snd] in *. eapply calls_since_trans; eassumption.
Qed.

Lemma calls_discover_device s w :
  calls_since P w (snd (discover_device env s w)).
Proof. apply calls_since_same, client_calls_discover_device. Qed.

Lemma calls_loop s w :
  client_id s = cid -> calls_since P w (snd (loop env s w)).
Proof.
  intros Hcid. unfold loop.
  destruct (pairing_enabled s); cbn [negb]; [|apply calls_since_refl].
  assert (H1 : exists s1 w1,
            (if MAX_TOTAL_TRANSMIT_ATTEMPTS <=? total_attempts s
             then let '(s0, w0) := disable s w in
                  (s0, logger MaximumTotalAttemptsReached w0)
             else (s, w)) = (s1, w1)
            /\ client_id s1 = cid /\ calls_since P w w1).
  { destruct (MAX_TOTAL_TRANSMIT_ATTEMPTS <=? total_attempts s).
    - cbn [disable]. eexists _, _. split; [reflexivity|]. split.
      + destruct s. exact Hcid.
      + apply calls_since_same. rewrite !client_calls_logger. reflexivity.
    - exists s, w. split; [reflexivity|]. split; [exact Hcid | apply calls_since_refl]. }
  destruct H1 as (s1 & w1 & -> & Hcid1 & Hw1).
  eapply calls_since_trans; [exact Hw1|]. clear Hw1.
  destruct (broadcasting_search_finished s1); cbn [negb].
  - destruct (pairing_device s1) as [d|]; [|apply calls_since_refl].
    assert (H2 : exists g w2,
              (if MAX_TRANSMIT_ATTEMPTS <=? attempts s1 then (true, w1)
               else let '(now, w0) := time_time env w1 in
                    (PrimFloat.leb MAX_PAIRING_DELAY
                       (PrimFloat.sub now (last_request_send_timestamp s1)), w0))
              = (g, w2) /\ calls_since P w1 w2).
    { destruct (MAX_TRANSMIT_ATTEMPTS <=? attempts s1).
      - exists true, w1. split; [reflexivity | apply calls_since_refl].
      - pose proof (client_calls_time_time env w1) as Ht.
        destruct (time_time env w1) as [now w0]. cbn [snd] in Ht.
        eexists _, _. split; [reflexivity | apply calls_since_same, Ht]. }
    destruct H2 as (g & w2 & -> & Hw2).
    eapply calls_since_trans; [exact Hw2|].
    destruct g.
    + eapply calls_since_trans; [|apply calls_discover_device].
      apply calls_since_same, client_calls_logger.
    + destruct (waiting_for_packet s1); [apply calls_since_refl|].
      apply calls_send_pairing_cmd.
      rewrite client_id_move_to_next_cmd. exact Hcid1.
  - destruct (attempts s1 <? MAX_SEARCHING_ATTEMPTS).
    + destruct (waiting_for_packet s1).
      * destruct (PrimFloat.eqb (last_request_send_timestamp s1) 0).
        -- apply calls_broadcast_search_devices_handler, Hcid1.
        -- pose proof (client_calls_time_time env w1) as Ht.
           destruct (time_time env w1) as [now w0]. cbn [snd] in Ht.
           destruct (PrimFloat.leb SEARCHING_DELAY _).
           ++ eapply calls_since_trans;
                [apply calls_since_same, Ht
                |apply calls_broadcast_search_devices_handler, Hcid1].
           ++ apply calls_since_same, Ht.
      * apply calls_broadcast_search_devices_handler, Hcid1.
    + apply calls_discover_device.
Qed.

End ClientCalls.

Lemma client_id_loop env s w : client_id (fst (loop env s w)) = client_id s.
Proof.
  pose proof (loop_tick env s w) as H.
  destruct H; rewrite ?client_id_touch, ?client_id_move_to_next_cmd;
    try reflexivity;
    try (destruct s; reflexivity);
    try (rewrite (proj1 (client_id_discover_device _ _ _)); destruct s; reflexivity).
Qed.

Lemma step_client_id env sw e :
  is_enable e = false ->
  client_id (fst (step env sw e)) = client_id (fst sw).
Proof.
  destruct sw as [s w]. intros He.
  destruct e; try discriminate; cbn [step fst].
  - apply client_id_loop.
  - destruct s, w. reflexivity.
  - unfold append_device. destruct (find _ _); destruct s; reflexivity.
  - destruct s. reflexivity.
  - destruct s. reflexivity.
  - destruct s. reflexivity.
  - destruct s. reflexivity.
  - destruct s. reflexivity.
  - unfold move_to_next_register_for_init.
    repeat match goal with
           | |- context [if ?b then _ else _] => destruct b
           | |- context [match ?x with Some _ => _ | None => _ end] => destruct x
           end; destruct s; reflexivity.
  - apply client_id_discover_device.
Qed.


Lemma headed_app (payload suffix : list Z) :
  discover_headed payload -> discover_headed (payload ++ suffix).
Proof. intros [rest ->]. exists (rest ++ suffix). reflexivity. Qed.

Lemma calls_broadcast_to_each_headed env ids payload wt w :
  appending_client env -> discover_headed payload ->
  calls_since (fun c => discover_headed (call_payload c)) w
    (snd (broadcast_to_each env ids payload wt w)).
Proof.
  intros Happ. revert payload w.
  induction ids as [|id ids IH]; intros payload w Hp; [apply calls_since_refl|].
  cbn [broadcast_to_each].
  match goal with
  | |- context [client_call ?e ?cl ?w0] =>
      pose proof (calls_since_client_call
                    (fun c => discover_headed (call_payload c)) e cl w0 Hp) as Hc;
      destruct (client_calls_client_call e cl w0) as [_ Hres];
      destruct (Happ (length (client_calls w0)) cl) as [sfx Hsfx];
      destruct (client_call e cl w0) as [[r payload'] w']
  end.
  cbn [fst snd] in *. rewrite <- Hres in Hsfx. cbn [snd call_payload] in Hsfx.
  subst payload'.
  eapply calls_since_trans; [exact Hc|]. apply IH, headed_app, Hp.
Qed.

Lemma calls_send_to_each_headed env ids address data result w :
  appending_client env -> discover_headed data ->
  calls_since (fun c => discover_headed (call_payload c)) w
    (snd (send_to_each env ids address data result w)).
Proof.
  intros Happ. revert data result w.
  induction ids as [|id ids IH]; intros data result w Hp; [apply calls_since_refl|].
  cbn [send_to_each].
  match goal with
  | |- context [client_call ?e ?cl ?w0] =>
      pose proof (calls_since_client_call
                    (fun c => discover_headed (call_payload c)) e cl w0 Hp) as Hc;
      destruct (client_calls_client_call e cl w0) as [_ Hres];
      destruct (Happ (length (client_calls w0)) cl) as [sfx Hsfx];
      destruct (client_call e cl w0) as [[r data'] w']
  end.
  cbn [fst snd] in *. rewrite <- Hres in Hsfx. cbn [snd call_payload] in Hsfx.
  subst data'.
  eapply calls_since_trans; [exact Hc|]. apply IH, headed_app, Hp.
Qed.

Lemma calls_loop_headed env s w :
  appending_client env ->
  calls_since (fun c => discover_headed (call_payload c)) w (snd (loop env s w)).
Proof.
  intros Happ.
  apply (calls_loop env (fun c => discover_headed (call_payload c)) (client_id s));
    [| |reflexivity].
  - intros s' payload w' Hcid Hp. unfold broadcast.
    destruct (client_id s') as [ids|].
    + apply calls_broadcast_to_each_headed; assumption.
    + match goal with
      | |- context [client_call ?e ?cl ?w0] =>
          pose proof (calls_since_client_call
                        (fun c => discover_headed (call_payload c)) e cl w0 Hp) as Hc;
          destruct (client_call e cl w0) as [[r payload'] w'']
      end.
      exact Hc.
  - intros address data w' Hp.
    destruct (client_id s) as [ids|].
    + apply calls_send_to_each_headed; assumption.
    + apply (calls_since_client_call (fun c => discover_headed (call_payload c))).
      exact Hp.
Qed.

Lemma client_calls_step_other env s w e :
  e <> Loop ->
  client_calls (snd (step env (s, w) e)) = client_calls w.
Proof.
  intros He. destruct e; cbn [step snd]; try reflexivity.
  - contradiction.
  - apply client_calls_logger.
  - apply client_calls_logger.
  - apply client_calls_discover_device.
Qed.

Lemma loop_or_not (e : Event) : e = Loop \/ e <> Loop.
Proof. destruct e; first [left; reflexivity | right; discriminate]. Qed.

Lemma headed_frame_checks (payload : list Z) :
  discover_headed payload ->
  Pjon.version_ok spec_enums (Pjon.encode payload) = true /\
  Pjon.kind_ok spec_enums (Pjon.encode payload) = true.
Proof.
  intros [rest ->]. unfold Pjon.version_ok, Pjon.kind_ok, Pjon.encode.
  rewrite !PjonFacts.py_index_nonneg
    by (cbn [app length]; rewrite ?length_app; cbn [length]; lia).
  split; reflexivity.
Qed.

(** Every payload the pairing handler hands to the client, in any run and
    for any list of clients, opens with the protocol version V1 and the
    packet kind DISCOVER, provided the clients only append to the list they
    are given (as [PjonClient.send_packet] does).  The frame [send_packet]
    makes of it therefore passes the version and the kind check of
    [receive]. *)
Theorem requests_are_discover_packets (env : Env) (events : list Event)
    (s : State) (w : World) :
  appending_client env ->
  calls_since
    (fun c => discover_headed (call_payload c) /\
              Pjon.version_ok spec_enums (Pjon.encode (call_payload c)) = true /\
              Pjon.kind_ok spec_enums (Pjon.encode (call_payload c)) = true)
    w (snd (run env (s, w) events)).
Proof.
  intros Happ.
  assert (Hrun : forall sw,
            calls_since (fun c => discover_headed (call_payload c))
              (snd sw) (snd (run env sw events))).
  { induction events as [|e events IH]; intros sw; [apply calls_since_refl|].
    cbn [run fold_left]. eapply calls_since_trans; [|apply IH].
    destruct sw as [s0 w0]. cbn [snd].
    destruct (loop_or_not e) as [->|He].
    - apply calls_loop_headed, Happ.
    - apply calls_since_same, client_calls_step_other, He. }
  destruct (Hrun (s, w)) as (new & Hnew & Hall). cbn [snd] in Hnew.
  exists new. split; [exact Hnew|].
  eapply List.Forall_impl; [|exact Hall].
  intros c Hc. split; [exact Hc | apply headed_frame_checks, Hc].
Qed.

Lemma requests_are_discover_packets_witness :
  calls_since
    (fun c => discover_headed (call_payload c) /\
              Pjon.version_ok spec_enums (Pjon.encode (call_payload c)) = true /\
              Pjon.kind_ok spec_enums (Pjon.encode (call_payload c)) = true)
    fresh_world
    (snd (run pjon_client_env (initial_state, fresh_world) (example_search 2))).
Proof.
  apply (requests_are_discover_packets pjon_client_env (example_search 2)
           initial_state fresh_world).
  exact pjon_client_appends.
Defined.

(** A handler enabled with an empty list of clients never calls a client:
    in any run without a further [enable], the list of client calls stays
    as it is, and the client list stays empty. *)
Theorem empty_client_list_sends_nothing (env : Env) (events : list Event)
    (s : State) (w : World) :
  client_id s = Some [] ->
  forallb (fun e => negb (is_enable e)) events = true ->
  client_calls (snd (run env (s, w) events)) = client_calls w /\
  client_id (fst (run env (s, w) events)) = Some [].
Proof.
  intros Hcid Hev.
  assert (Hrun : forall sw,
            client_id (fst sw) = Some [] ->
            client_calls (snd (run env sw events)) = client_calls (snd sw) /\
            client_id (fst (run env sw events)) = Some []).
  { induction events as [|e events IH]; intros sw Hsw; [split; [reflexivity|exact Hsw]|].
    cbn [forallb] in Hev. apply andb_true_iff in Hev. destruct Hev as [He Hev].
    apply negb_true_iff in He.
    cbn [run fold_left].
    assert (Hid : client_id (fst (step env sw e)) = Some [])
      by (rewrite step_client_id; assumption).
    destruct (IH Hev (step env sw e) Hid) as [Hcalls Hid'].
    split; [|exact Hid'].
    unfold run in Hcalls. rewrite Hcalls.
    destruct sw as [s0 w0]. cbn [fst snd] in *.
    destruct (loop_or_not e) as [->|Hne];
      [|apply client_calls_step_other, Hne].
    cbn [step].
    destruct (calls_loop env (fun _ => False) (Some [])) with (s := s0) (w := w0)
      as (new & Hnew & Hall).
    - intros s' payload w' Hs' _. unfold broadcast. rewrite Hs'.
      apply calls_since_refl.
    - intros address data w' _. apply calls_since_refl.
    - exact Hsw.
    - destruct new as [|c new]; [rewrite Hnew; apply app_nil_r|].
      inversion Hall as [|? ? Hfalse _]. contradiction. }
  apply (Hrun (s, w)), Hcid.
Qed.

Lemma empty_client_list_sends_nothing_witness :
  client_calls
    (snd (run example_env (enable (Some (inr [])) initial_state fresh_world)
            (repeat Loop 7)))
  = [].
Proof.
  destruct (enable (Some (inr [])) initial_state fresh_world) as [s w] eqn:Hen.
  injection Hen as <- <-.
  refine (proj1 (empty_client_list_sends_nothing example_env (repeat Loop 7) _ _ _ _));
    reflexivity.
Defined.

Lemma step_disabled env s w e :
  is_enable e = false ->
  pairing_enabled s = false ->
  pairing_enabled (fst (step env (s, w) e)) = false /\
  client_calls (snd (step env (s, w) e)) = client_calls w.
Proof.
  intros He Hs. destruct e; try discriminate; cbn [step fst snd].
  - unfold loop. rewrite Hs. split; [exact Hs | reflexivity].
  - destruct s, w. split; reflexivity.
  - split; [|reflexivity].
    unfold append_device. destruct (find _ _); destruct s; exact Hs.
  - split; [destruct s; exact Hs | reflexivity].
  - split; [destruct s; exact Hs | reflexivity].
  - split; [destruct s; exact Hs | reflexivity].
  - split; [destruct s; exact Hs | reflexivity].
  - split; [destruct s; exact Hs | reflexivity].
  - split; [|reflexivity].
    unfold move_to_next_register_for_init.
    repeat match goal with
           | |- context [if ?b then _ else _] => destruct b
           | |- context [match ?x with Some _ => _ | None => _ end] => destruct x
           end; destruct s; exact Hs.
  - split; [apply client_id_discover_device, Hs | apply client_calls_discover_device].
Qed.

(** Only [enable] switches pairing on: a handler whose pairing is off
    stays off through any calls other than [enable], its [loop] does
    nothing at all, and no client is called. *)
Theorem disabled_handler_is_inert (env : Env) (events : list Event)
    (s : State) (w : World) :
  pairing_enabled s = false ->
  forallb (fun e => negb (is_enable e)) events = true ->
  loop env s w = (s, w) /\
  pairing_enabled (fst (run env (s, w) events)) = false /\
  client_calls (snd (run env (s, w) events)) = client_calls w.
Proof.
  intros Hs Hev. split; [unfold loop; rewrite Hs; reflexivity|].
  revert s w Hs.
  induction events as [|e events IH]; intros s w Hs; [split; [exact Hs | reflexivity]|].
  cbn [forallb] in Hev. apply andb_true_iff in Hev. destruct Hev as [He Hev].
  apply negb_true_iff in He.
  destruct (step_disabled env s w e He Hs) as [Hs' Hc'].
  cbn [run fold_left].
  destruct (step env (s, w) e) as [s' w']. cbn [fst snd] in *.
  destruct (IH Hev s' w' Hs') as [H1 H2].
  split; [exact H1 | unfold run in H2; rewrite H2; exact Hc'].
Qed.

Lemma disabled_handler_is_inert_witness :
  client_calls
    (snd (run example_env (initial_state, fresh_world)
            [Loop; AppendDevice (example_device 7 2); DiscoverDevice; Loop]))
  = [].
Proof.
  refine (proj2 (proj2 (disabled_handler_is_inert example_env
                          [Loop; AppendDevice (example_device 7 2); DiscoverDevice; Loop]
                          initial_state fresh_world _ _)));
    reflexivity.
Defined.

(** ** The cap on the total attempts *)

(** The tick that finds the total-attempts counter at its cap disables
    pairing and, because [loop] goes on after [disable()], broadcasts one
    more DISCOVER(SEARCH) in the same call: the handler is left switched
    off, yet waiting for a DISCOVER packet, with both counters at one. *)
Theorem cap_tick_still_broadcasts (env : Env) (s : State) (w : World) :
  pairing_enabled s = true ->
  MAX_TOTAL_TRANSMIT_ATTEMPTS <= total_attempts s ->
  client_id s = None ->
  let s' := fst (loop env s w) in
  let w' := snd (loop env s w) in
  pairing_enabled s' = false /\
  waiting_for_packet s' = Some Packet_DISCOVER /\
  attempts s' = 1 /\ total_attempts s' = 1 /\
  client_calls w'
  = client_calls w
      ++ [{| call_address := None;
             call_payload := [ProtocolVersion_V1; Packet_DISCOVER;
                              PairingCommand_value SEARCH];
             call_waiting_time := BROADCAST_WAITING_DELAY;
             call_client_id := None |}] /\
  log w'
  = log w ++ [PairingModeDeactivated; MaximumTotalAttemptsReached;
              PreparingToBroadcastSearch].
Proof.
  intros Hen Hcap Hcid s' w'. subst s' w'.
  apply Z.leb_le in Hcap.
  destruct s as [fd pd regs ts wp att tot en cmd pa pt bsf fin cid],
           w as [clock uuids reads calls states messages].
  cbn [pairing_enabled total_attempts client_id] in Hen, Hcap, Hcid. subst en cid.
  unfold loop. cbn [pairing_enabled negb total_attempts]. rewrite Hcap.
  cbn. destruct (client_at env (length calls) _) as [r payload].
  cbn. rewrite <- !app_assoc. repeat split.
Qed.

Lemma cap_tick_still_broadcasts_witness :
  pairing_enabled
    (fst (loop example_env
            (set_total_attempts 100 (fst (enable None initial_state fresh_world)))
            fresh_world))
  = false.
Proof.
  refine (proj1 (cap_tick_still_broadcasts example_env
                   (set_total_attempts 100 (fst (enable None initial_state fresh_world)))
                   fresh_world _ _ _));
    [reflexivity | unfold MAX_TOTAL_TRANSMIT_ATTEMPTS; cbn; lia | reflexivity].
Defined.


(** ** The address of the device taken up *)









(** ** The order of the commands *)

Lemma unknown_register_found (regs : list PairingRegisterRecord) :
  existsb is_unknown regs = true ->
  find (fun r => is_unknown r
                 && (bool_decide (register_type r = INPUT)
                     || bool_decide (register_type r = OUTPUT))) regs = None ->
  find (fun r => is_unknown r && bool_decide (register_type r = ATTRIBUTE)) regs = None ->
  find (fun r => is_unknown r && bool_decide (register_type r = SETTING)) regs = None ->
  False.
Proof.
  intros Hany H1 H2 H3. apply existsb_exists in Hany.
  destruct Hany as (r & Hin & Hr).
  pose proof (find_none _ _ H1 r Hin) as F1.
  pose proof (find_none _ _ H2 r Hin) as F2.
  pose proof (find_none _ _ H3 r Hin) as F3.
  cbn beta in F1, F2, F3. rewrite Hr in F1, F2, F3.
  destruct r; cbn in F1, F2, F3; discriminate.
Qed.

(** [__move_to_next_cmd] goes through the commands in the order
    WRITE_ADDRESS, PROVIDE_REGISTER_STRUCTURE, PAIRING_FINISHED, and never
    to SEARCH.  As long as PAIRING_FINISHED is not among the finished
    commands, the command it sets is not finished; when it is
    PROVIDE_REGISTER_STRUCTURE, a register of data type UNKNOWN has been
    selected to ask for; when it is PAIRING_FINISHED, the address has been
    written and either the registers were provided or none is UNKNOWN.  Once
    all that is done it changes nothing, so the command stays what it
    was. *)
Theorem move_to_next_cmd_order (s : State) :
  let s' := move_to_next_cmd s in
  (finished PAIRING_FINISHED s = false ->
   pairing_cmd s' <> SEARCH /\
   finished (pairing_cmd s') s = false /\
   (pairing_cmd s' = PROVIDE_REGISTER_STRUCTURE ->
    finished WRITE_ADDRESS s = true /\
    exists r, In r (pairing_device_registers s) /\ is_unknown r = true /\
              processing_register_type s' = Some (register_type r) /\
              processing_register_address s' = Some (register_address r)) /\
   (pairing_cmd s' = PAIRING_FINISHED ->
    finished WRITE_ADDRESS s = true /\
    (finished PROVIDE_REGISTER_STRUCTURE s = true
     \/ has_registers_to_init s = false))) /\
  (finished WRITE_ADDRESS s = true ->
   finished PROVIDE_REGISTER_STRUCTURE s = true \/ has_registers_to_init s = false ->
   finished PAIRING_FINISHED s = true ->
   s' = s).
Proof.
  intros s'. subst s'. unfold move_to_next_cmd.
  destruct (finished WRITE_ADDRESS s) eqn:Hw; cbn [negb].
  2:{ split; [|discriminate]. intros Hf.
      assert (Hcmd : pairing_cmd (set_pairing_cmd WRITE_ADDRESS s) = WRITE_ADDRESS)
        by (destruct s; reflexivity).
      rewrite Hcmd. split; [discriminate|]. split; [exact Hw|].
      split; discriminate. }
  destruct (finished PROVIDE_REGISTER_STRUCTURE s) eqn:Hp; cbn [negb andb].
  - split.
    + intros Hf. rewrite Hf. cbn [negb].
      assert (Hcmd : pairing_cmd (set_pairing_cmd PAIRING_FINISHED s) = PAIRING_FINISHED)
        by (destruct s; reflexivity).
      rewrite Hcmd. split; [discriminate|]. split; [exact Hf|].
      split; [discriminate|]. intros _. split; [reflexivity | left; reflexivity].
    + intros _ _ ->. reflexivity.
  - destruct (has_registers_to_init s) eqn:Hregs.
    + split; [|intros _ [H|H]; discriminate]. intros Hf.
      unfold move_to_next_register_for_init.
      assert (Hsame : has_registers_to_init
                (set_processing_register_address None
                   (set_processing_register_type None s)) = true)
        by (destruct s; exact Hregs).
      rewrite Hsame.
      assert (Hregs' : pairing_device_registers
                (set_processing_register_address None
                   (set_processing_register_type None s))
              = pairing_device_registers s) by (destruct s; reflexivity).
      rewrite Hregs'.
      destruct (find (fun r => is_unknown r
                        && (bool_decide (register_type r = INPUT)
                            || bool_decide (register_type r = OUTPUT)))
                  (pairing_device_registers s)) as [r|] eqn:F1;
        [|destruct (find (fun r => is_unknown r && bool_decide (register_type r = ATTRIBUTE))
                      (pairing_device_registers s)) as [r|] eqn:F2;
          [|destruct (find (fun r => is_unknown r && bool_decide (register_type r = SETTING))
                        (pairing_device_registers s)) as [r|] eqn:F3]].
      4:{ exfalso. exact (unknown_register_found _ Hregs F1 F2 F3). }
      all: apply find_some in F1 || apply find_some in F2 || apply find_some in F3.
      all: match goal with
           | H : In _ _ /\ _ |- _ => destruct H as [Hin Hr]
           end.
      all: apply andb_true_iff in Hr; destruct Hr as [Hu Ht].
      all: try apply bool_decide_eq_true_1 in Ht.
      all: destruct s; cbn [pairing_cmd set_pairing_cmd select_register
             set_processing_register_type set_processing_register_address
             set_waiting_for_packet set_attempts processing_register_type
             processing_register_address pairing_device_registers] in *.
      all: split; [discriminate|]; split; [exact Hp|]; split; [|discriminate].
      all: intros _; split; [reflexivity|]; exists r.
      all: rewrite ?Ht; repeat split; assumption.
    + split.
      * intros Hf. rewrite Hf. cbn [negb].
        assert (Hcmd : pairing_cmd (set_pairing_cmd PAIRING_FINISHED s) = PAIRING_FINISHED)
          by (destruct s; reflexivity).
        rewrite Hcmd. split; [discriminate|]. split; [exact Hf|].
        split; [discriminate|]. intros _. split; [reflexivity | right; reflexivity].
      * intros _ _ ->. reflexivity.
Qed.

Lemma move_to_next_cmd_order_witness :
  pairing_cmd
    (move_to_next_cmd
       (append_pairing_cmd WRITE_ADDRESS
          (append_input_register 1000 0 UNKNOWN None initial_state)))
  = PROVIDE_REGISTER_STRUCTURE /\
  move_to_next_cmd
    (set_finished_cmd [WRITE_ADDRESS; PROVIDE_REGISTER_STRUCTURE; PAIRING_FINISHED]
       initial_state)
  = set_finished_cmd [WRITE_ADDRESS; PROVIDE_REGISTER_STRUCTURE; PAIRING_FINISHED]
      initial_state.
Proof.
  split; [reflexivity|].
  apply (move_to_next_cmd_order
           (set_finished_cmd [WRITE_ADDRESS; PROVIDE_REGISTER_STRUCTURE; PAIRING_FINISHED]
              initial_state));
    [reflexivity | left; reflexivity | reflexivity].
Defined.


(** ** The request for the structure of a register *)

(** The request [__send_provide_register_structure_handler] sends for the
    register selected: to the address of the device, the payload version,
    DISCOVER, PROVIDE_REGISTER_STRUCTURE, the register type and the register
    address as two bytes, the high one first.  For an address of 16 bits the
    payload consists of bytes and the two address bytes give the address
    back; for any other address it does not, and [PjonClient.send_packet]
    raises [ValueError] on it before anything is sent. *)
Theorem provide_register_request (env : Env) (d : PairingDeviceRecord)
    (s : State) (w : World) (address : Z) (type : RegisterType) :
  processing_register_address s = Some address ->
  processing_register_type s = Some type ->
  client_id s = None ->
  let payload :=
    [ProtocolVersion_V1; Packet_DISCOVER;
     PairingCommand_value PROVIDE_REGISTER_STRUCTURE; RegisterType_value type;
     Z.shiftr address 8; Z.land address 0xFF] in
  client_calls (snd (send_provide_register_structure_handler env d s w))
  = client_calls w
      ++ [{| call_address := Some (device_address d); call_payload := payload;
             call_waiting_time := 0; call_client_id := None |}] /\
  (0 <= address < 65536 ->
   forallb is_byte payload = true /\
   Z.lor (Z.shiftl (Z.shiftr address 8) 8) (Z.land address 0xFF) = address) /\
  (~ 0 <= address < 65536 ->
   forall enums penv fuel a wt pw,
     Pjon.send_packet enums penv fuel a payload wt pw
     = (Raised ValueError, payload, pw)).
Proof.
  intros Ha Ht Hcid payload. split; [|split].
  - unfold send_provide_register_structure_handler. rewrite Ha, Ht.
    rewrite send_data_to_device_returns. unfold send_data_inserted.
    destruct s as [fd pd regs ts wp att tot en cmd pa pt bsf fin cid],
             w as [clock uuids reads calls states messages].
    cbn [client_id] in Hcid. subst cid.
    cbn [mark_request_sent set_waiting_for_packet set_attempts set_total_attempts
         attempts total_attempts time_time set_last_request_send_timestamp
         logger client_id client_call].
    destruct (client_at env (length calls) _) as [[] data']; reflexivity.
  - intros Hrange.
    destruct (PjonFacts.crc_split_join address Hrange) as (Hhi & Hlo & Hjoin).
    split; [|exact Hjoin].
    subst payload. cbn [forallb]. rewrite Hhi, Hlo. destruct type; reflexivity.
  - intros Hrange enums penv fuel a wt pw.
    assert (Hhi : is_byte (Z.shiftr address 8) = false).
    { unfold is_byte. rewrite Z.shiftr_div_pow2 by lia. change (2 ^ 8) with 256.
      apply andb_false_iff.
      destruct (Z.lt_ge_cases address 0) as [Hneg|Hpos].
      - left. apply Z.leb_gt. apply Z.div_lt_upper_bound; lia.
      - right. apply Z.ltb_ge. apply Z.div_le_lower_bound; lia. }
    unfold Pjon.send_packet, py_bytes.
    assert (Hb : forallb is_byte payload = false).
    { subst payload. cbn [forallb]. rewrite Hhi.
      destruct type; cbn; rewrite ?andb_false_r; reflexivity. }
    rewrite Hb. reflexivity.
Qed.

Lemma provide_register_request_witness :
  client_calls
    (snd (send_provide_register_structure_handler example_env (example_device 7 2)
            (select_register INPUT 258 initial_state) fresh_world))
  = [{| call_address := Some 255; call_payload := [1; 4; 3; 1; 1; 2];
        call_waiting_time := 0; call_client_id := None |}].
Proof.
  exact (proj1 (provide_register_request example_env (example_device 7 2)
                  (select_register INPUT 258 initial_state) fresh_world 258 INPUT
                  eq_refl eq_refl eq_refl)).
Defined.

End PairingMore.

(** * Further properties of the connector *)

Module ConnectorMore.
Import Pairing Connector ConnectorFacts.

(** ** start *)

Lemma reset_states_fmap (registry : gmap Z ConnectionState) :
  reset_states registry = (fun _ => STATE_UNKNOWN) <$> registry.
Proof.
  apply map_eq. intros k. rewrite reset_states_lookup, lookup_fmap. reflexivity.
Qed.

(** [start()] clears the stopped flag and sets the state of every device
    of the registry to UNKNOWN: the registry afterwards has the same
    devices, all UNKNOWN.  Doing so twice is as doing so once, so that
    [stop()] followed by [start()] leaves the registry as [stop()] left it,
    with the connector running again; neither touches the components or
    the number of packets to be sent. *)
Theorem start_resets_every_state {C : Type} (c : Connector C) :
  stopped (start c) = false /\
  devices_registry (start c) = (fun _ => STATE_UNKNOWN) <$> devices_registry c /\
  dom (devices_registry (start c)) = dom (devices_registry c) /\
  devices_registry (start (stop c)) = devices_registry (stop c) /\
  stopped (start (stop c)) = false /\
  components (start (stop c)) = components c /\
  packets_to_be_sent (start (stop c)) = packets_to_be_sent c /\
  connector_log (start (stop c))
  = connector_log c ++ [ConnectorStopped; ConnectorStarted].
Proof.
  split; [reflexivity|].
  split; [apply reset_states_fmap|].
  split; [cbn [start devices_registry]; rewrite reset_states_fmap; apply dom_fmap_L|].
  split.
  { cbn [start stop devices_registry]. rewrite !reset_states_fmap, <- map_fmap_compose.
    reflexivity. }
  split; [reflexivity|]. split; [reflexivity|]. split; [reflexivity|].
  cbn [start stop connector_log]. rewrite <- app_assoc. reflexivity.
Qed.

(** ** A tick of the running connector *)

Lemma loop_running {C : Type} (parts : Components C) (c : Connector C) :
  stopped c = false ->
  let c1 := call ConsumerLoop (consumer_loop parts)
              (call ReceiverLoop (receiver_loop parts) c) in
  let c2 := if pairing_is_enabled parts (components c1)
            then call PairingLoop (pairing_loop parts) c1
            else if packets_to_be_sent c =? 0
                 then call PublisherLoop (publisher_loop parts) c1
                 else c1 in
  let client := client_loop parts (devices_registry c2, components c2) in
  loop parts c
  = mkConnector false (fst client) (fst (snd client)) (snd (snd client))
      (calls c2 ++ [ClientLoop]) (connector_log c).
Proof.
  intros Hs c1 c2 client. unfold loop. rewrite Hs. cbn [andb].
  fold c1.
  assert (Hs1 : stopped c1 = false)
    by (subst c1; rewrite !call_stopped; exact Hs).
  assert (Hp1 : packets_to_be_sent c1 = packets_to_be_sent c)
    by (subst c1; rewrite !call_packets_to_be_sent; reflexivity).
  assert (Hl1 : connector_log c1 = connector_log c)
    by (subst c1; rewrite !call_connector_log; reflexivity).
  rewrite Hs1, Hp1. fold c2. fold client.
  assert (Hs2 : stopped c2 = false).
  { subst c2. destruct (pairing_is_enabled parts (components c1));
      [|destruct (packets_to_be_sent c =? 0)]; rewrite ?call_stopped; exact Hs1. }
  assert (Hl2 : connector_log c2 = connector_log c).
  { subst c2. destruct (pairing_is_enabled parts (components c1));
      [|destruct (packets_to_be_sent c =? 0)]; rewrite ?call_connector_log;
      exact Hl1. }
  destruct client as [pending [registry after]]. cbn [fst snd].
  rewrite Hs2, Hl2. reflexivity.
Qed.

(** A [loop()] call on a connector that is not stopped runs the receiver
    and the consumer first and the client last.  Between them it runs the
    pairing handler when pairing is enabled once the receiver and the
    consumer have run, and otherwise the publisher, but only if the client
    reported no packet left to send in the tick before; it keeps the number
    the client returns for the next tick.  The registry and the components
    after the tick are what these loops, run in this order on the registry
    they share with the connector, leave behind.  The tick never stops the
    connector and writes no log message, however often it is called. *)
Theorem running_loop {C : Type} (parts : Components C) (c : Connector C)
    (n : nat) :
  stopped c = false ->
  let inner :=
    consumer_loop parts (receiver_loop parts (devices_registry c, components c)) in
  let pairing := pairing_is_enabled parts (snd inner) in
  let mid := if pairing then [PairingLoop]
             else if packets_to_be_sent c =? 0 then [PublisherLoop] else [] in
  let before_client :=
    if pairing then pairing_loop parts inner
    else if packets_to_be_sent c =? 0 then publisher_loop parts inner else inner in
  calls (loop parts c)
  = calls c ++ [ReceiverLoop; ConsumerLoop] ++ mid ++ [ClientLoop] /\
  packets_to_be_sent (loop parts c) = fst (client_loop parts before_client) /\
  (devices_registry (loop parts c), components (loop parts c))
  = snd (client_loop parts before_client) /\
  stopped (Nat.iter n (loop parts) c) = false /\
  connector_log (Nat.iter n (loop parts) c) = connector_log c.
Proof.
  intros Hs inner pairing mid before_client.
  rewrite (loop_running parts c Hs). cbv zeta.
  set (c1 := call ConsumerLoop (consumer_loop parts)
               (call ReceiverLoop (receiver_loop parts) c)).
  assert (Hshared1 : (devices_registry c1, components c1) = inner).
  { subst c1 inner. rewrite !call_shared. reflexivity. }
  assert (Hcomp1 : components c1 = snd inner) by (rewrite <- Hshared1; reflexivity).
  assert (Hcalls1 : calls c1 = calls c ++ [ReceiverLoop; ConsumerLoop]).
  { subst c1. rewrite !call_calls, <- app_assoc. reflexivity. }
  rewrite Hcomp1. fold pairing.
  set (c2 := if pairing then call PairingLoop (pairing_loop parts) c1
             else if packets_to_be_sent c =? 0
                  then call PublisherLoop (publisher_loop parts) c1 else c1).
  assert (Hshared2 : (devices_registry c2, components c2) = before_client).
  { subst c2 before_client. destruct pairing; [|destruct (packets_to_be_sent c =? 0)];
      rewrite ?call_shared, Hshared1; reflexivity. }
  assert (Hcalls2 : calls c2 = calls c ++ [ReceiverLoop; ConsumerLoop] ++ mid).
  { subst c2 mid. destruct pairing; [|destruct (packets_to_be_sent c =? 0)];
      rewrite ?call_calls, Hcalls1, <- ?app_assoc, ?app_nil_r; reflexivity. }
  rewrite Hshared2. cbn [calls packets_to_be_sent devices_registry components].
  split; [rewrite Hcalls2, <- !app_assoc; reflexivity|].
  split; [reflexivity|].
  split; [destruct (client_loop parts before_client) as [p [r a]]; reflexivity|].
  induction n as [|n [IH1 IH2]]; [split; [exact Hs | reflexivity]|].
  rewrite Nat.iter_succ, (loop_running parts _ IH1). cbv zeta.
  cbn [stopped connector_log]. split; [reflexivity | exact IH2].
Qed.

Lemma running_loop_witness :
  calls (loop draining_parts example_connector)
  = [ReceiverLoop; ConsumerLoop; PublisherLoop; ClientLoop].
Proof.
  exact (proj1 (running_loop draining_parts example_connector 0 eq_refl)).
Defined.

End ConnectorMore.

(** * Properties of the logger *)

Module LoggerFacts.
Import Logger.

(** [debug], [info], [warning] and [error] themselves fail only when the
    caller's [extra] is not a dictionary, with the [TypeError] of the merge
    and before the wrapped logger is called.  In every other case they hand
    the wrapped logger exactly one call and end as that call ends, be it in
    a return or in an exception of the wrapped logger.  The call handed on
    carries an [extra] dictionary with a "connector" entry and no keyword
    argument named "extra" besides it.  The entries of the caller's
    [extra] are all passed on, also under the key "connector", where they
    replace the connector's own entry; every other keyword argument is
    passed on as it is. *)
Theorem logger_extra {V R : Type} (connector_entry : V)
    (wrapped : Emitted -> R) (level : Level)
    (msg : string) (args : list V) (kwargs : gmap string KwValue) :
  let r := log_at connector_entry wrapped level msg args kwargs in
  (r = MergeTypeError <-> exists v, kwargs !! "extra" = Some (KwOther v)) /\
  (forall e result, r = Handed e result ->
     result = wrapped e /\
     emitted_level e = level /\ emitted_msg e = msg /\ emitted_args e = args /\
     emitted_kwargs e !! "extra" = None /\
     (forall k, k <> "extra" -> emitted_kwargs e !! k = kwargs !! k) /\
     is_Some (emitted_extra e !! "connector") /\
     (kwargs !! "extra" = None ->
      emitted_extra e = {[ "connector" := connector_entry ]}) /\
     (forall given, kwargs !! "extra" = Some (KwDict given) ->
        (forall k v, given !! k = Some v -> emitted_extra e !! k = Some v) /\
        (given !! "connector" = None ->
         emitted_extra e !! "connector" = Some connector_entry) /\
        (forall k, k <> "connector" -> emitted_extra e !! k = given !! k))).
Proof.
  intros r. subst r. unfold log_at.
  destruct (kwargs !! "extra") as [[given|v]|] eqn:Hextra.
  - split; [split; [discriminate | intros (v & Hv); discriminate]|].
    intros e result He. injection He as <- <-. cbn.
    split; [reflexivity|].
    split; [reflexivity|]. split; [reflexivity|]. split; [reflexivity|].
    split; [apply lookup_delete_eq|].
    split; [intros k Hk; apply lookup_delete_ne; congruence|].
    unfold py_merge, get_connector_extra.
    split.
    { destruct (given !! "connector") as [v|] eqn:Hc.
      - exists v. apply lookup_union_Some_l, Hc.
      - exists connector_entry. rewrite lookup_union_r by exact Hc.
        apply lookup_singleton_eq. }
    split; [discriminate|].
    intros given' Hg. injection Hg as <-.
    split; [intros k v Hk; apply lookup_union_Some_l, Hk|].
    split.
    + intros Hc. rewrite lookup_union_r by exact Hc. apply lookup_singleton_eq.
    + intros k Hk. destruct (given !! k) as [v|] eqn:Hgk.
      * apply lookup_union_Some_l, Hgk.
      * rewrite lookup_union_r by exact Hgk. apply lookup_singleton_ne. congruence.
  - split; [split; [intros _; exists v; reflexivity | reflexivity]|].
    discriminate.
  - split; [split; [discriminate | intros (v & Hv); discriminate]|].
    intros e result He. injection He as <- <-. cbn.
    split; [reflexivity|].
    split; [reflexivity|]. split; [reflexivity|]. split; [reflexivity|].
    split; [exact Hextra|]. split; [reflexivity|].
    split; [exists connector_entry; apply lookup_singleton_eq|].
    split; [reflexivity | discriminate].
Qed.

Lemma logger_extra_witness :
  exists e,
    debug 0 (fun call => emitted_level call) "sent" []
      {[ "extra" := KwDict {[ "device" := 7 ]} ]}
    = Handed e DEBUG /\
    emitted_extra e !! "device" = Some 7 /\
    emitted_extra e !! "connector" = Some 0.
Proof.
  eexists. split; [reflexivity|].
  destruct (logger_extra 0 (fun call => emitted_level call) DEBUG "sent" []
              {[ "extra" := KwDict {[ "device" := 7 ]} ]})
    as [_ Hsome].
  destruct (Hsome _ _ eq_refl) as (_ & _ & _ & _ & _ & _ & _ & _ & Hgiven).
  destruct (Hgiven {[ "device" := 7 ]} eq_refl) as (Hpass & Hconnector & _).
  split; [apply Hpass; reflexivity | apply Hconnector; reflexivity].
Defined.

End LoggerFacts.
